(** * Subdomain monitor: a shallow embedding of [subdomain_monitor.py] and
    [subdomain2.py], and the properties of the monitoring cycle.

    The two scripts poll crt.sh for the host names below each monitored
    domain, keep the names already seen in an SQLite table [subdomains],
    and post an alert to Telegram and Discord for the names that are new.

    Conventions of the embedding:
    - a Python [str] is a [string] whose characters are the code points
      below 256; [str.lower], [str.strip] and [<] are given on that range
      exactly as Python defines them;
    - a Python [set] of host names is a [gset string], a [dict] from host
      name to date a [gmap string string]; where the code iterates a set the
      iteration order is a parameter (any duplicate-free enumeration);
    - the SQLite file is [database]: the table [subdomains], if it exists,
      with its column definitions, UNIQUE constraints and rows;
    - a Python exception is a value of [exn]; code that may raise returns a
      [result];
    - what a cycle does to the outside (log lines, HTTP posts) is appended
      to a trace, in program order. *)

From Stdlib Require Import ZArith NArith Ascii String List Bool Lia.
From stdpp Require Import base decidable option list gmap strings sets fin_maps sorting.

Open Scope string_scope.
Open Scope list_scope.

Set Warnings "-clear-no-such-hyp".

(** ** Python string operations *)

Module PyStr.

(** [str.isspace] on one character (code points below 256). *)
Definition isspace (c : ascii) : bool :=
  let n := N_of_ascii c in
  ((9 <=? n) && (n <=? 13) || (28 <=? n) && (n <=? 32)
   || (n =? 133) || (n =? 160))%N.

(** [str.lower] on one character: A-Z, and the capital letters of
    Latin-1 (U+00C0 to U+00DE without the multiplication sign). *)
Definition lower_char (c : ascii) : ascii :=
  let n := N_of_ascii c in
  if ((65 <=? n) && (n <=? 90)
      || (192 <=? n) && (n <=? 222) && negb (n =? 215))%N
  then ascii_of_N (n + 32) else c.

Fixpoint lower (s : string) : string :=
  match s with
  | EmptyString => EmptyString
  | String c r => String (lower_char c) (lower r)
  end.

Fixpoint lstrip (s : string) : string :=
  match s with
  | EmptyString => EmptyString
  | String c r => if isspace c then lstrip r else s
  end.

Fixpoint rstrip (s : string) : string :=
  match s with
  | EmptyString => EmptyString
  | String c r =>
      match rstrip r with
      | EmptyString => if isspace c then EmptyString else String c EmptyString
      | r' => String c r'
      end
  end.

(** [s.strip()] *)
Definition strip (s : string) : string := rstrip (lstrip s).

(** [s.split('\n')] *)
Fixpoint split_lines (s : string) : list string :=
  match s with
  | EmptyString => [EmptyString]
  | String c r =>
      if Ascii.eqb c "010"%char then EmptyString :: split_lines r
      else match split_lines r with
           | h :: t => String c h :: t
           | [] => [String c EmptyString]
           end
  end.

(** [s.endswith(t)] *)
Fixpoint endswith (s t : string) : bool :=
  String.eqb s t ||
  match s with
  | EmptyString => false
  | String _ r => endswith r t
  end.

(** [t in s] *)
Fixpoint contains (s t : string) : bool :=
  String.prefix t s ||
  match s with
  | EmptyString => false
  | String _ r => contains r t
  end.

(** [s.replace('*.', '')]: every occurrence, scanning from the left. *)
Fixpoint remove_wildcards (s : string) : string :=
  match s with
  | EmptyString => EmptyString
  | String c r =>
      match r with
      | String d r' =>
          if Ascii.eqb c "*"%char && Ascii.eqb d "."%char
          then remove_wildcards r'
          else String c (remove_wildcards r)
      | EmptyString => s
      end
  end.

(** Truth value of a [str]. *)
Definition truthy (s : string) : bool := negb (String.eqb s EmptyString).

(** [a < b] on [str]. *)
Definition lt (a b : string) : bool := String.ltb a b.

End PyStr.

(** ** Normalisation of one candidate name

    The body of the inner loop of [get_subdomains_from_crtsh] (the same in
    both scripts): the name a line of [name_value] contributes for [domain],
    or [None] when the line is skipped. *)

Definition candidate (domain line : string) : option string :=
  let subdomain := PyStr.lower (PyStr.strip line) in
  if PyStr.truthy subdomain && PyStr.contains subdomain domain then
    let subdomain := PyStr.remove_wildcards subdomain in
    if PyStr.endswith subdomain ("." +:+ domain) then Some subdomain else None
  else None.

Example candidate_wildcard :
  candidate "example.com" "*.Foo.Example.com" = Some "foo.example.com".
Proof. reflexivity. Qed.

Example candidate_bare : candidate "example.com" "example.com" = None.
Proof. reflexivity. Qed.

Example candidate_inner : candidate "example.com" " a*.example.com " = None.
Proof. reflexivity. Qed.

(** ** Exceptions *)

Inductive exn :=
  | RequestException      (* requests.exceptions.RequestException and its subclasses *)
  | JSONDecodeError       (* json.JSONDecodeError *)
  | OperationalError      (* sqlite3.OperationalError *)
  | IntegrityError        (* sqlite3.IntegrityError *)
  | TypeError
  | OtherError (name : string)   (* any other subclass of Exception *)
  | KeyboardInterrupt     (* BaseException, not Exception *)
  | SystemExit.           (* BaseException, not Exception *)

#[global] Instance exn_eq_dec : EqDecision exn.
Proof. solve_decision. Defined.

(** What [except Exception] catches. *)
Definition is_Exception (e : exn) : bool :=
  match e with
  | KeyboardInterrupt | SystemExit => false
  | _ => true
  end.

Inductive result (A : Type) :=
  | Ok (a : A)
  | Raise (e : exn).
Arguments Ok {A} a.
Arguments Raise {A} e.

Definition raised {A} (r : result A) : option exn :=
  match r with Ok _ => None | Raise e => Some e end.

(** ** The SQLite table [subdomains] *)

Module Sql.

Inductive value :=
  | VNull
  | VInt (n : Z)
  | VText (s : string).

#[global] Instance value_eq_dec : EqDecision value.
Proof. solve_decision. Defined.

Inductive default_value :=
  | NoDefault
  | CurrentTimestamp      (* DEFAULT CURRENT_TIMESTAMP *)
  | Autoincrement.        (* INTEGER PRIMARY KEY AUTOINCREMENT *)

Record column := Column {
  cname : string;
  cnotnull : bool;
  cdefault : default_value
}.

(** A row maps column names to values. *)
Abbreviation row := (gmap string value).

Record table := Table {
  cols : list column;
  uniques : list (list string);   (* UNIQUE(c1, ..., cn) constraints *)
  rows : list row;                (* in rowid order *)
  sequence : Z                    (* largest id handed out so far *)
}.

(** The database file, as far as the scripts look at it: the table
    [subdomains], or no such table. *)
Definition database := option table.

Definition cell (r : row) (c : string) : value := default VNull (r !! c).

Definition column_names (t : table) : list string := cname <$> cols t.

Definition has_column (t : table) (c : string) : bool :=
  bool_decide (c ∈ column_names t).

(** [PRAGMA table_info(subdomains)], column 1 of each line. *)
Definition table_info (db : database) : list string :=
  match db with
  | Some t => column_names t
  | None => []
  end.

(** [SELECT name FROM sqlite_master WHERE type='table' AND name='subdomains'],
    then [fetchone()] as a truth value. *)
Definition table_exists (db : database) : bool :=
  match db with Some _ => true | None => false end.

(** WHERE clauses of the scripts. *)
Inductive cond :=
  | Always
  | Eq (c : string) (v : value)
  | In (c : string) (vs : list value)
  | And (a b : cond).

Fixpoint cond_columns (w : cond) : list string :=
  match w with
  | Always => []
  | Eq c _ => [c]
  | In c _ => [c]
  | And a b => cond_columns a ++ cond_columns b
  end.

(** A comparison with NULL is never true. *)
Definition sql_eq (a b : value) : bool :=
  match a, b with
  | VNull, _ | _, VNull => false
  | _, _ => bool_decide (a = b)
  end.

Fixpoint holds (w : cond) (r : row) : bool :=
  match w with
  | Always => true
  | Eq c v => sql_eq (cell r c) v
  | In c vs => existsb (sql_eq (cell r c)) vs
  | And a b => holds a r && holds b r
  end.

(** [SELECT columns FROM subdomains WHERE w] and [fetchall()]. *)
Definition select (columns : list string) (w : cond) (db : database)
  : result (list (list value)) :=
  match db with
  | None => Raise OperationalError                 (* no such table *)
  | Some t =>
      if forallb (has_column t) (columns ++ cond_columns w)
      then Ok ((λ r, cell r <$> columns) <$> List.filter (holds w) (rows t))
      else Raise OperationalError                  (* no such column *)
  end.

Definition empty_table (schema : list column) (uniq : list (list string)) : table :=
  Table schema uniq [] 0.

(** [CREATE TABLE subdomains (...)] *)
Definition create_table (schema : list column) (uniq : list (list string))
    (db : database) : result database :=
  match db with
  | Some _ => Raise OperationalError               (* table already exists *)
  | None => Ok (Some (empty_table schema uniq))
  end.

(** [CREATE TABLE IF NOT EXISTS subdomains (...)] *)
Definition create_table_if_not_exists (schema : list column)
    (uniq : list (list string)) (db : database) : database :=
  match db with
  | Some t => Some t
  | None => Some (empty_table schema uniq)
  end.

(** [DROP TABLE subdomains] *)
Definition drop_table (db : database) : result database :=
  match db with
  | None => Raise OperationalError                 (* no such table *)
  | Some _ => Ok None
  end.

(** [ALTER TABLE subdomains ADD COLUMN c]: the rows get NULL there. *)
Definition add_column (c : column) (db : database) : result database :=
  match db with
  | None => Raise OperationalError
  | Some t =>
      if has_column t (cname c) then Raise OperationalError   (* duplicate column *)
      else Ok (Some (Table (cols t ++ [c]) (uniques t)
                           (<[cname c := VNull]> <$> rows t) (sequence t)))
  end.

Fixpoint assigned (c : string) (assign : list (string * value)) : option value :=
  match assign with
  | [] => None
  | (k, v) :: rest => if String.eqb k c then Some v else assigned c rest
  end.

Definition stored_value (t : table) (assign : list (string * value))
    (now : string) (c : column) : value :=
  match assigned (cname c) assign with
  | Some v => v
  | None =>
      match cdefault c with
      | NoDefault => VNull
      | CurrentTimestamp => VText now
      | Autoincrement => VInt (sequence t + 1)
      end
  end.

Definition new_row (t : table) (assign : list (string * value)) (now : string) : row :=
  list_to_map ((λ c, (cname c, stored_value t assign now c)) <$> cols t).

(** Two rows collide on a UNIQUE constraint when they agree on each of its
    columns; NULLs never collide. *)
Definition collide (u : list string) (r r' : row) : bool :=
  forallb (λ c, sql_eq (cell r c) (cell r' c)) u.

Definition breaks_unique (t : table) (r : row) : bool :=
  existsb (λ u, existsb (collide u r) (rows t)) (uniques t).

Definition breaks_notnull (t : table) (r : row) : bool :=
  existsb (λ c, cnotnull c && bool_decide (cell r (cname c) = VNull)) (cols t).

Definition takes_id (t : table) (assign : list (string * value)) : bool :=
  existsb (λ c, match cdefault c, assigned (cname c) assign with
                | Autoincrement, None => true
                | _, _ => false
                end) (cols t).

(** [INSERT INTO subdomains (c1, ..., cn) VALUES (?, ..., ?)], with
    CURRENT_TIMESTAMP read as [now]. *)
Definition insert (assign : list (string * value)) (now : string)
    (db : database) : result database :=
  match db with
  | None => Raise OperationalError
  | Some t =>
      if negb (forallb (λ a, has_column t a.1) assign) then Raise OperationalError
      else
        let r := new_row t assign now in
        if breaks_notnull t r || breaks_unique t r then Raise IntegrityError
        else Ok (Some (Table (cols t) (uniques t) (rows t ++ [r])
                             (if takes_id t assign then sequence t + 1 else sequence t)))
  end.

Fixpoint pairwise_distinct (u : list string) (rs : list row) : bool :=
  match rs with
  | [] => true
  | r :: rest => negb (existsb (collide u r) rest) && pairwise_distinct u rest
  end.

(** [WHERE domain = ? AND subdomain = ?] *)
Definition is_pair (domain subdomain : string) (r : row) : bool :=
  sql_eq (cell r "domain") (VText domain) && sql_eq (cell r "subdomain") (VText subdomain).

Definition touch (domain subdomain now : string) (r : row) : row :=
  if is_pair domain subdomain r then <["last_seen" := VText now]> r else r.

(** [UPDATE subdomains SET last_seen = CURRENT_TIMESTAMP
     WHERE domain = ? AND subdomain = ?] *)
Definition update_last_seen (domain subdomain now : string)
    (db : database) : result database :=
  match db with
  | None => Raise OperationalError
  | Some t =>
      if forallb (has_column t) ["last_seen"; "domain"; "subdomain"] then
        let rows' := touch domain subdomain now <$> rows t in
        if forallb (λ u, bool_decide ("last_seen" ∉ u) || pairwise_distinct u rows')
                   (uniques t)
        then Ok (Some (Table (cols t) (uniques t) rows' (sequence t)))
        else Raise IntegrityError
      else Raise OperationalError
  end.

(** The table both scripts create, and the column [subdomain2.py] adds. *)
Definition schema_v1 : list column :=
  [ Column "id" false Autoincrement;
    Column "domain" true NoDefault;
    Column "subdomain" true NoDefault;
    Column "first_seen" false CurrentTimestamp;
    Column "last_seen" false CurrentTimestamp ].

Definition release_date_column : column := Column "release_date" false NoDefault.

Definition schema_v2 : list column := schema_v1 ++ [release_date_column].

Definition unique_pair : list (list string) := [["domain"; "subdomain"]].

End Sql.

(** ** Iterating a Python set

    The order in which a [set] is iterated is not fixed by the language: it
    is some enumeration of the elements, each once. *)

Record set_iteration := SetIteration {
  order : gset string → list string;
  order_NoDup : ∀ X, NoDup (order X);
  order_elem : ∀ X x, x ∈ order X ↔ x ∈ X
}.

Definition ascending_iteration : set_iteration :=
  SetIteration elements (λ X, NoDup_elements X) (λ X x, elem_of_elements X x).




(** ** [sorted(iterable, key=...)]

    Python's sort is stable and compares keys with [<] only; the stable
    sort of a list is unique, so insertion from the right gives it. *)

Section Sorted.
Context {A K : Type} (lt : K → K → bool) (key : A → K).

Fixpoint insert_sorted (x : A) (l : list A) : list A :=
  match l with
  | [] => [x]
  | y :: rest =>
      if lt (key y) (key x) then y :: insert_sorted x rest else x :: y :: rest
  end.

Definition py_sorted (l : list A) : list A := foldr insert_sorted [] l.

End Sorted.

(** ** The world of a cycle: the database, and the trace of what was
    logged, committed and posted *)

Inductive sink := Telegram | Discord.

#[global] Instance sink_eq_dec : EqDecision sink.
Proof. solve_decision. Defined.

(** The alert text: the header names the domain and the count, then one
    numbered line per name, then the time of detection. *)
Record message := Message {
  msg_domain : string;
  msg_count : nat;                   (* len(new_subdomains) *)
  msg_items : list (nat * string);   (* enumerate(sorted_subdomains, 1) *)
  msg_detected_at : string           (* datetime.now(), formatted *)
}.

Inductive log_line :=
  | DatabaseInitialized
  | MigratingOldDatabase
  | Migrated (n : nat) (default_domain : string)
  | Checking (domain : string)
  | FoundFromCrtsh (n : nat) (domain : string)
  | FoundNew (n : nat) (domain : string) (new_subdomains : gset string)
  | NoNew (domain : string)
  | Saved (n : nat) (domain : string)
  | AlertSent (s : sink) (domain : string)
  | ErrorFetching (domain : string) (e : exn)
  | ErrorParsing (domain : string) (e : exn)
  | ErrorSending (s : sink) (domain : string) (e : exn)
  | ErrorMonitoring (domain : string) (e : exn).

Inductive event :=
  | Log (line : log_line)            (* logging.info / logging.error *)
  | SqlCommit                        (* conn.commit() *)
  | HttpPost (s : sink) (m : message).   (* requests.post(...) is attempted *)

Record world := World {
  store : Sql.database;
  trace : list event
}.

(** Code that reads and changes the world and may raise; what was done
    before the exception stays done. *)
Definition M (A : Type) : Type := world → world * result A.

Definition ret {A} (a : A) : M A := λ w, (w, Ok a).

Definition bind {A B} (m : M A) (k : A → M B) : M B := λ w,
  match m w with
  | (w', Ok a) => k a w'
  | (w', Raise e) => (w', Raise e)
  end.

Definition lift {A} (r : result A) : M A := λ w, (w, r).

Definition emit (ev : event) : M unit := λ w,
  (World (store w) (trace w ++ [ev]), Ok tt).

Definition get_store : M Sql.database := λ w, (w, Ok (store w)).

Definition set_store (db : Sql.database) : M unit := λ w,
  (World db (trace w), Ok tt).

(** [try: m  except <catches> as e: handler e] *)
Definition try_except {A} (m : M A) (catches : exn → bool) (handler : exn → M A) : M A :=
  λ w, match m w with
       | (w', Raise e) => if catches e then handler e w' else (w', Raise e)
       | done => done
       end.

Notation "'let*' x ':=' m 'in' k" := (bind m (λ x, k))
  (at level 10, x name, m at level 100, k at level 200).
Notation "m ';;' k" := (bind m (λ _, k))
  (at level 100, k at level 200, right associativity).

Fixpoint foldM {A B} (f : B → A → result B) (b : B) (l : list A) : result B :=
  match l with
  | [] => Ok b
  | x :: rest =>
      match f b x with
      | Ok b' => foldM f b' rest
      | Raise e => Raise e
      end
  end.

(** ** What the outside gives to one cycle *)

(** One object of the JSON array crt.sh answers with; a key that is
    missing or null reads as the empty string (both are falsy). *)
Record entry := Entry {
  name_value : string;
  entry_timestamp : string;
  not_before : string
}.

Inductive response :=
  | GetRaises (e : exn)      (* requests.get, or a later line of the try, raises e *)
  | BadStatus                (* raise_for_status() raises HTTPError *)
  | NotJson                  (* response.json() raises JSONDecodeError *)
  | Json (data : list entry).

Inductive post_outcome :=
  | Delivered
  | Rejected                 (* raise_for_status() raises HTTPError *)
  | PostRaises (e : exn).    (* requests.post raises e *)

Record env := Env {
  crtsh : response;
  telegram_api : post_outcome;
  discord_webhook : post_outcome;
  current_timestamp : string;      (* SQLite's CURRENT_TIMESTAMP *)
  datetime_now : string;           (* datetime.now().strftime(...) *)
  iteration : set_iteration
}.

(** The fields of [SubdomainMonitor] the cycle reads; an unset token or
    URL ([None] or [''], both falsy) is the empty string. *)
Record monitor := Monitor {
  domains : list string;
  telegram_bot_token : string;
  telegram_chat_id : string;
  discord_webhook_url : string
}.

(** Text cells as Python strings; a cell that is not text equals no [str]. *)
Definition text_of (v : Sql.value) : option string :=
  match v with Sql.VText s => Some s | _ => None end.

(** [row[i]] of a fetched line. *)
Definition cell_at (i : nat) (row : list Sql.value) : Sql.value :=
  default Sql.VNull (row !! i).

(** ** Code shared by the two scripts *)

(** [get_known_subdomains] *)
Definition get_known_subdomains (domain : string) : M (gset string) :=
  let* db := get_store in
  let* fetched := lift (Sql.select ["subdomain"] (Sql.Eq "domain" (Sql.VText domain)) db) in
  ret (list_to_set (omap (λ row, head row ≫= text_of) fetched)).

(** The [try: INSERT ... except sqlite3.IntegrityError: UPDATE ...] of
    [save_new_subdomains]. *)
Definition insert_or_touch (assign : list (string * Sql.value))
    (domain subdomain now : string) (db : Sql.database) : result Sql.database :=
  match Sql.insert assign now db with
  | Raise IntegrityError => Sql.update_last_seen domain subdomain now db
  | other => other
  end.

(** [requests.post(...)], [raise_for_status()] and the handler of
    [RequestException] around them. *)
Definition post (s : sink) (domain : string) (m : message) (o : post_outcome) : M unit :=
  emit (HttpPost s m) ;;
  match o with
  | Delivered => emit (Log (AlertSent s domain))
  | Rejected => emit (Log (ErrorSending s domain RequestException))
  | PostRaises RequestException => emit (Log (ErrorSending s domain RequestException))
  | PostRaises e => lift (Raise e)
  end.

Definition enumerate_from_1 (l : list string) : list (nat * string) :=
  imap (λ i x, (S i, x)) l.

Definition alert_message (E : env) (domain : string) (new_subdomains : gset string)
    (sorted_subdomains : list string) : message :=
  Message domain (size new_subdomains) (enumerate_from_1 sorted_subdomains)
          (datetime_now E).

(** ** [monitor_domain], over the five methods it calls

    [F] is what the fetch returns: a set of names in [subdomain_monitor.py],
    a dict from name to date in [subdomain2.py]. *)

Record steps (F : Type) := Steps {
  step_fetch : string → M F;
  step_names : F → gset string;
  step_known : string → M (gset string);
  step_save : string → gset string → F → M unit;
  step_telegram : string → gset string → F → M unit;
  step_discord : string → gset string → F → M unit
}.
Arguments Steps {F}.
Arguments step_fetch {F}.
Arguments step_names {F}.
Arguments step_known {F}.
Arguments step_save {F}.
Arguments step_telegram {F}.
Arguments step_discord {F}.

Definition notify {F} (S : steps F) (domain : string) (new : gset string) (fetched : F)
  : M unit :=
  step_telegram S domain new fetched ;;
  step_discord S domain new fetched.

Definition monitor_domain_try {F} (S : steps F) (domain : string) : M unit :=
  emit (Log (Checking domain)) ;;
  let* fetched := step_fetch S domain in
  let current_subdomains := step_names S fetched in
  let* known_subdomains := step_known S domain in
  let new_subdomains := current_subdomains ∖ known_subdomains in
  if bool_decide (new_subdomains ≠ ∅) then
    emit (Log (FoundNew (size new_subdomains) domain new_subdomains)) ;;
    step_save S domain new_subdomains fetched ;;
    notify S domain new_subdomains fetched
  else
    emit (Log (NoNew domain)).

Definition monitor_domain_with {F} (S : steps F) (domain : string) : M unit :=
  try_except (monitor_domain_try S domain) is_Exception
             (λ e, emit (Log (ErrorMonitoring domain e))).

(** [threading.Thread(target=...)], started and joined: an exception that
    leaves the target ends that thread and reaches nobody else. *)
Definition thread (target : M unit) : M unit := λ w, ((target w).1, Ok tt).

(** One pass of the loop of [monitor]: a thread per domain of the list,
    all joined before the pass ends. The threads are run here one after
    the other, in the order of the list. *)
Definition monitor_once (cycle : string → M unit) (domains : list string) : M unit :=
  foldr (λ domain rest, thread (cycle domain) ;; rest) (ret tt) domains.

(** ** subdomain2.py *)

Module Subdomain2.
Import Sql.

(** [entry.get('entry_timestamp') or entry.get('not_before') or ''] *)
Definition entry_time (e : entry) : string :=
  if PyStr.truthy (entry_timestamp e) then entry_timestamp e
  else if PyStr.truthy (not_before e) then not_before e
  else "".

(** [if subdomain not in subdomains or
        (entry_time and entry_time < subdomains[subdomain]):
      subdomains[subdomain] = entry_time] *)
Definition keep_earliest (entry_time : string) (subdomains : gmap string string)
    (subdomain : string) : gmap string string :=
  match subdomains !! subdomain with
  | None => <[subdomain := entry_time]> subdomains
  | Some kept =>
      if PyStr.truthy entry_time && PyStr.lt entry_time kept
      then <[subdomain := entry_time]> subdomains
      else subdomains
  end.

Definition scan_line (domain time : string) (subdomains : gmap string string)
    (line : string) : gmap string string :=
  match candidate domain line with
  | Some subdomain => keep_earliest time subdomains subdomain
  | None => subdomains
  end.

Definition scan_entry (domain : string) (subdomains : gmap string string) (e : entry)
  : gmap string string :=
  if PyStr.truthy (name_value e)
  then foldl (scan_line domain (entry_time e)) subdomains (PyStr.split_lines (name_value e))
  else subdomains.

(** The loop [for entry in data] over an empty dict. *)
Definition scan (domain : string) (data : list entry) : gmap string string :=
  foldl (scan_entry domain) ∅ data.

(** [requests.get], [raise_for_status], [response.json] and the loop. *)
Definition request (r : response) (domain : string) : result (gmap string string) :=
  match r with
  | GetRaises e => Raise e
  | BadStatus => Raise RequestException
  | NotJson => Raise JSONDecodeError
  | Json data => Ok (scan domain data)
  end.

Definition get_subdomains_from_crtsh (E : env) (domain : string) : M (gmap string string) :=
  try_except
    (let* subdomains := lift (request (crtsh E) domain) in
     emit (Log (FoundFromCrtsh (size subdomains) domain)) ;;
     ret subdomains)
    (λ e, bool_decide (e = RequestException ∨ e = JSONDecodeError))
    (λ e, emit (Log (match e with
                     | RequestException => ErrorFetching domain e
                     | _ => ErrorParsing domain e
                     end)) ;;
          ret ∅).

(** [release_date = None], replaced by [crtsh_subdomains[subdomain]] when
    the dict is non-empty and has the key. *)
Definition release_date (crtsh_subdomains : gmap string string) (subdomain : string) : value :=
  match crtsh_subdomains !! subdomain with
  | Some d => VText d
  | None => VNull
  end.

Definition save_one (domain : string) (crtsh_subdomains : gmap string string)
    (now : string) (db : database) (subdomain : string) : result database :=
  insert_or_touch
    [("domain", VText domain); ("subdomain", VText subdomain);
     ("release_date", release_date crtsh_subdomains subdomain)]
    domain subdomain now db.

Definition save_new_subdomains (E : env) (domain : string) (new_subdomains : gset string)
    (crtsh_subdomains : gmap string string) : M unit :=
  if bool_decide (new_subdomains = ∅) then ret tt
  else
    let* db := get_store in
    let* db := lift (foldM (save_one domain crtsh_subdomains (current_timestamp E)) db
                           (order (iteration E) new_subdomains)) in
    set_store db ;;
    emit SqlCommit ;;
    emit (Log (Saved (size new_subdomains) domain)).

(** [get_subdomain_dates]: the dict from name to [first_seen]. *)
Definition get_subdomain_dates (E : env) (domain : string) (subdomains : gset string)
  : M (gmap string value) :=
  let* db := get_store in
  let* fetched :=
    lift (select ["subdomain"; "first_seen"]
            (And (Eq "domain" (VText domain))
                 (In "subdomain" (VText <$> order (iteration E) subdomains))) db) in
  ret (foldl (λ result row, match row with
                            | [VText s; v] => <[s := v]> result
                            | _ => result
                            end) ∅ fetched).

Definition far_future : string := "9999-99-99 99:99:99".

(** [lambda s: crtsh_subdomains.get(s, '9999-99-99 99:99:99')] *)
Definition release_key (crtsh_subdomains : gmap string string) (s : string) : string :=
  default far_future (crtsh_subdomains !! s).

(** [sorted(new_subdomains, key=lambda s: crtsh_subdomains.get(s, far_future))] *)
Definition sorted_by_release (E : env) (new_subdomains : gset string)
    (crtsh_subdomains : gmap string string) : list string :=
  py_sorted PyStr.lt (release_key crtsh_subdomains) (order (iteration E) new_subdomains).

(** [<] between the values SQLite hands to Python; between [None] and
    anything, or a number and a [str], Python raises [TypeError]. *)
Definition value_lt (a b : value) : bool :=
  match a, b with
  | VText x, VText y => PyStr.lt x y
  | VInt x, VInt y => (x <? y)%Z
  | _, _ => false
  end.

Definition is_text (v : value) : bool := match v with VText _ => true | _ => false end.
Definition is_int (v : value) : bool := match v with VInt _ => true | _ => false end.

Definition comparable (keys : list value) : bool :=
  (length keys <=? 1)%nat || forallb is_text keys || forallb is_int keys.

(** [sorted(new_subdomains, key=lambda s: subdomain_dates.get(s, far_future))] *)
Definition sorted_by_first_seen (E : env) (new_subdomains : gset string)
    (subdomain_dates : gmap string value) : result (list string) :=
  let key := λ s, default (VText far_future) (subdomain_dates !! s) in
  let names := order (iteration E) new_subdomains in
  if comparable (key <$> names) then Ok (py_sorted value_lt key names)
  else Raise TypeError.

Definition sorted_subdomains (E : env) (domain : string) (new_subdomains : gset string)
    (crtsh_subdomains : gmap string string) : M (list string) :=
  if bool_decide (crtsh_subdomains ≠ ∅)
  then ret (sorted_by_release E new_subdomains crtsh_subdomains)
  else
    let* subdomain_dates := get_subdomain_dates E domain new_subdomains in
    lift (sorted_by_first_seen E new_subdomains subdomain_dates).

Definition send_telegram_alert (self : monitor) (E : env) (domain : string)
    (new_subdomains : gset string) (crtsh_subdomains : gmap string string) : M unit :=
  if negb (PyStr.truthy (telegram_bot_token self))
     || negb (PyStr.truthy (telegram_chat_id self))
     || bool_decide (new_subdomains = ∅)
  then ret tt
  else
    let* sorted := sorted_subdomains E domain new_subdomains crtsh_subdomains in
    post Telegram domain (alert_message E domain new_subdomains sorted) (telegram_api E).

Definition send_discord_alert (self : monitor) (E : env) (domain : string)
    (new_subdomains : gset string) (crtsh_subdomains : gmap string string) : M unit :=
  if negb (PyStr.truthy (discord_webhook_url self)) || bool_decide (new_subdomains = ∅)
  then ret tt
  else
    let* sorted := sorted_subdomains E domain new_subdomains crtsh_subdomains in
    post Discord domain (alert_message E domain new_subdomains sorted) (discord_webhook E).

Definition methods (self : monitor) (E : env) : steps (gmap string string) :=
  Steps (get_subdomains_from_crtsh E) dom get_known_subdomains
        (save_new_subdomains E) (send_telegram_alert self E) (send_discord_alert self E).

Definition monitor_domain (self : monitor) (E : env) (domain : string) : M unit :=
  monitor_domain_with (methods self E) domain.

(** The body of the loop of [monitor], sleep apart; [envs] is what each
    domain's thread meets. *)
Definition monitor_pass (self : monitor) (envs : string → env) : M unit :=
  monitor_once (λ domain, monitor_domain self (envs domain) domain) (domains self).

(** [init_database]: add the column [release_date] to a table that lacks
    it, create the table when there is none. Outside a transaction each
    statement is committed as it runs. *)
Definition init_database : M unit :=
  let* db := get_store in
  let columns := table_info db in
  let* db :=
    (if bool_decide ("release_date" ∉ columns) && table_exists db
     then let* db := lift (add_column release_date_column db) in
          set_store db ;; ret db
     else ret db) in
  set_store (create_table_if_not_exists schema_v2 unique_pair db) ;;
  emit SqlCommit ;;
  emit (Log DatabaseInitialized).

End Subdomain2.

(** ** subdomain_monitor.py *)

Module SubdomainMonitor.
Import Sql.

Definition scan_line (domain : string) (subdomains : gset string) (line : string)
  : gset string :=
  match candidate domain line with
  | Some subdomain => {[subdomain]} ∪ subdomains
  | None => subdomains
  end.

Definition scan_entry (domain : string) (subdomains : gset string) (e : entry)
  : gset string :=
  if PyStr.truthy (name_value e)
  then foldl (scan_line domain) subdomains (PyStr.split_lines (name_value e))
  else subdomains.

Definition scan (domain : string) (data : list entry) : gset string :=
  foldl (scan_entry domain) ∅ data.

Definition request (r : response) (domain : string) : result (gset string) :=
  match r with
  | GetRaises e => Raise e
  | BadStatus => Raise RequestException
  | NotJson => Raise JSONDecodeError
  | Json data => Ok (scan domain data)
  end.

Definition get_subdomains_from_crtsh (E : env) (domain : string) : M (gset string) :=
  try_except
    (let* subdomains := lift (request (crtsh E) domain) in
     emit (Log (FoundFromCrtsh (size subdomains) domain)) ;;
     ret subdomains)
    (λ e, bool_decide (e = RequestException ∨ e = JSONDecodeError))
    (λ e, emit (Log (match e with
                     | RequestException => ErrorFetching domain e
                     | _ => ErrorParsing domain e
                     end)) ;;
          ret ∅).

Definition save_one (domain now : string) (db : database) (subdomain : string)
  : result database :=
  insert_or_touch [("domain", VText domain); ("subdomain", VText subdomain)]
                  domain subdomain now db.

Definition save_new_subdomains (E : env) (domain : string) (new_subdomains : gset string)
  : M unit :=
  if bool_decide (new_subdomains = ∅) then ret tt
  else
    let* db := get_store in
    let* db := lift (foldM (save_one domain (current_timestamp E)) db
                           (order (iteration E) new_subdomains)) in
    set_store db ;;
    emit SqlCommit ;;
    emit (Log (Saved (size new_subdomains) domain)).

(** [sorted(new_subdomains)] *)
Definition sorted_names (E : env) (new_subdomains : gset string) : list string :=
  py_sorted PyStr.lt (λ s, s) (order (iteration E) new_subdomains).

Definition send_telegram_alert (self : monitor) (E : env) (domain : string)
    (new_subdomains : gset string) : M unit :=
  if negb (PyStr.truthy (telegram_bot_token self))
     || negb (PyStr.truthy (telegram_chat_id self))
     || bool_decide (new_subdomains = ∅)
  then ret tt
  else post Telegram domain
            (alert_message E domain new_subdomains (sorted_names E new_subdomains))
            (telegram_api E).

Definition send_discord_alert (self : monitor) (E : env) (domain : string)
    (new_subdomains : gset string) : M unit :=
  if negb (PyStr.truthy (discord_webhook_url self)) || bool_decide (new_subdomains = ∅)
  then ret tt
  else post Discord domain
            (alert_message E domain new_subdomains (sorted_names E new_subdomains))
            (discord_webhook E).

Definition methods (self : monitor) (E : env) : steps (gset string) :=
  Steps (get_subdomains_from_crtsh E) (λ current, current) get_known_subdomains
        (λ domain new _, save_new_subdomains E domain new)
        (λ domain new _, send_telegram_alert self E domain new)
        (λ domain new _, send_discord_alert self E domain new).

Definition monitor_domain (self : monitor) (E : env) (domain : string) : M unit :=
  monitor_domain_with (methods self E) domain.

(** The body of the loop of [monitor], sleep apart. *)
Definition monitor_pass (self : monitor) (envs : string → env) : M unit :=
  monitor_once (λ domain, monitor_domain self (envs domain) domain) (domains self).

(** One line of [old_data] put back under the first domain. *)
Definition migrate_row (default_domain now : string) (db : database)
    (old : list value) : result database :=
  insert [("domain", VText default_domain); ("subdomain", cell_at 0 old);
          ("first_seen", cell_at 1 old); ("last_seen", cell_at 2 old)] now db.

(** [init_database]: a table without the column [domain] is read, dropped,
    created anew and filled again under the first configured domain. The
    DROP and CREATE run outside a transaction and are committed as they
    run; the INSERTs are committed by [conn.commit()]. *)
Definition init_database (self : monitor) (E : env) : M unit :=
  let* db := get_store in
  let columns := table_info db in
  (if bool_decide ("domain" ∉ columns) then
     emit (Log MigratingOldDatabase) ;;
     let* old_data := lift (select ["subdomain"; "first_seen"; "last_seen"] Always db) in
     let* db := lift (drop_table db) in
     set_store db ;;
     let* db := lift (create_table schema_v1 unique_pair db) in
     set_store db ;;
     match old_data, domains self with
     | _ :: _, default_domain :: _ =>
         let* db := lift (foldM (migrate_row default_domain (current_timestamp E))
                                db old_data) in
         emit (Log (Migrated (length old_data) default_domain)) ;;
         set_store db
     | _, _ => ret tt
     end
   else
     set_store (create_table_if_not_exists schema_v1 unique_pair db)) ;;
  emit SqlCommit ;;
  emit (Log DatabaseInitialized).

End SubdomainMonitor.

(** ** The normalisation as the specification words it

    Trim, lowercase, strip one leading wildcard label, and accept the
    result when it ends with a dot followed by the domain. *)

Definition strip_leading_wildcard (s : string) : string :=
  match s with
  | String "*" (String "." r) => r
  | _ => s
  end.

Definition spec_candidate (domain line : string) : option string :=
  let s := strip_leading_wildcard (PyStr.lower (PyStr.strip line)) in
  if PyStr.endswith s ("." +:+ domain) then Some s else None.

(** ** Observations *)

(** The names stored for a domain, as [get_known_subdomains] reads them. *)
Definition known_in (db : Sql.database) (domain : string) : gset string :=
  match db with
  | Some t =>
      list_to_set
        (omap (λ r, text_of (Sql.cell r "subdomain"))
              (List.filter (Sql.holds (Sql.Eq "domain" (Sql.VText domain))) (Sql.rows t)))
  | None => ∅
  end.

(** The names an alert lists, in the order of its lines. *)
Definition names (m : message) : list string := snd <$> msg_items m.

Definition is_post (ev : event) : bool :=
  match ev with HttpPost _ _ => true | _ => false end.



(** * Properties *)

(** ** Strings *)

Lemma prefix_refl s : String.prefix s s = true.
Proof.
  induction s as [|c s IH]; simpl; [done|].
  destruct (ascii_dec c c); [done|congruence].
Qed.

Lemma endswith_spec s t : PyStr.endswith s t = true ↔ ∃ p, s = p +:+ t.
Proof.
  induction s as [|c s IH]; cbn [PyStr.endswith].
  - rewrite orb_false_r, String.eqb_eq. split.
    + intros <-. by exists "".
    + intros [[|a p] Hp]; [done|discriminate].
  - rewrite orb_true_iff, String.eqb_eq, IH. split.
    + intros [<-|[p ->]]; [by exists ""|by exists (String c p)].
    + intros [[|a p] Hp]; [by left|]. right. exists p.
      unfold String.app in Hp. simpl in Hp. by injection Hp.
Qed.

Lemma endswith_contains s t : PyStr.endswith s t = true → PyStr.contains s t = true.
Proof.
  induction s as [|c s IH]; cbn [PyStr.endswith PyStr.contains]; intros H.
  - rewrite orb_false_r in H. apply String.eqb_eq in H as <-. reflexivity.
  - apply orb_true_iff in H as [H|H].
    + apply String.eqb_eq in H as <-. rewrite prefix_refl. reflexivity.
    + rewrite (IH H). apply orb_true_r.
Qed.

Lemma prefix_contains s t : String.prefix t s = true → PyStr.contains s t = true.
Proof. intros H. destruct s; cbn [PyStr.contains]; rewrite H; reflexivity. Qed.

Lemma prefix_tail c t s : String.prefix (String c t) s = true → PyStr.contains s t = true.
Proof.
  destruct s as [|c' s]; [done|].
  cbn [String.prefix]. destruct (ascii_dec c c'); [|done]. intros H.
  cbn [PyStr.contains]. rewrite (prefix_contains _ _ H). apply orb_true_r.
Qed.

Lemma contains_tail c t s : PyStr.contains s (String c t) = true → PyStr.contains s t = true.
Proof.
  induction s as [|c' s IH]; intros H.
  - simpl in H. discriminate.
  - cbn [PyStr.contains] in H. apply orb_true_iff in H as [H|H].
    + by eapply prefix_tail.
    + cbn [PyStr.contains]. rewrite (IH H). apply orb_true_r.
Qed.

Lemma contains_cons c s t : PyStr.contains s t = true → PyStr.contains (String c s) t = true.
Proof. intros H. cbn [PyStr.contains]. rewrite H. apply orb_true_r. Qed.

Lemma endswith_nonempty s c t : PyStr.endswith s (String c t) = true → PyStr.truthy s = true.
Proof. destruct s; simpl; [discriminate|reflexivity]. Qed.

Lemma remove_wildcards_clean s : PyStr.contains s "*." = false → PyStr.remove_wildcards s = s.
Proof.
  induction s as [|c s IH]; [done|].
  intros H. cbn [PyStr.contains] in H. apply orb_false_iff in H as [Hp Hc].
  cbn [PyStr.remove_wildcards]. destruct s as [|d s']; [done|].
  destruct (Ascii.eqb c "*" && Ascii.eqb d ".") eqn:Hw.
  - apply andb_true_iff in Hw as [->%Ascii.eqb_eq ->%Ascii.eqb_eq].
    simpl in Hp. destruct s'; discriminate.
  - f_equal. by apply IH.
Qed.

Lemma strip_leading_cases s :
  (∃ t, s = String "*" (String "." t) ∧ strip_leading_wildcard s = t)
  ∨ strip_leading_wildcard s = s.
Proof.
  destruct s as [|c [|d t]]; try (by right).
  - right. simpl. destruct c as [[] [] [] [] [] [] [] []]; reflexivity.
  - destruct (decide (c = "*"%char ∧ d = "."%char)) as [[-> ->]|Hne].
    + left. by exists t.
    + right. simpl. destruct c as [[] [] [] [] [] [] [] []]; try reflexivity.
      destruct d as [[] [] [] [] [] [] [] []]; try reflexivity. by destruct Hne.
Qed.

Lemma candidate_unfold domain line :
  candidate domain line =
  let s := PyStr.lower (PyStr.strip line) in
  if PyStr.truthy s && PyStr.contains s domain
     && PyStr.endswith (PyStr.remove_wildcards s) ("." +:+ domain)
  then Some (PyStr.remove_wildcards s) else None.
Proof. unfold candidate. cbv zeta. by destruct (_ && _). Qed.

Lemma candidate_agrees (domain line : string) :
  PyStr.contains (strip_leading_wildcard (PyStr.lower (PyStr.strip line))) "*." = false →
  candidate domain line = spec_candidate domain line.
Proof.
  unfold candidate, spec_candidate.
  set (s := PyStr.lower (PyStr.strip line)). intros Hclean.
  destruct (strip_leading_cases s) as [(t & Hs & Ht)|Hid].
  - rewrite Ht in *. rewrite Hs. cbn [PyStr.remove_wildcards].
    replace (Ascii.eqb "*" "*" && Ascii.eqb "." ".") with true by reflexivity.
    rewrite (remove_wildcards_clean _ Hclean).
    destruct (PyStr.endswith t ("." +:+ domain)) eqn:He.
    + assert (PyStr.contains t domain = true) as Hc.
      { eapply contains_tail, endswith_contains, He. }
      replace (PyStr.truthy _) with true by reflexivity.
      by rewrite (contains_cons _ _ _ (contains_cons _ _ _ Hc)).
    + by destruct (_ && _).
  - rewrite Hid in *. rewrite (remove_wildcards_clean _ Hclean).
    destruct (PyStr.endswith s ("." +:+ domain)) eqn:He.
    + assert (PyStr.contains s domain = true) as ->.
      { eapply contains_tail, endswith_contains, He. }
      by rewrite (endswith_nonempty _ _ _ He).
    + by destruct (_ && _).
Qed.

Lemma app_length s t : String.length (s +:+ t) = (String.length s + String.length t)%nat.
Proof. induction s as [|c s IH]; [done|]. unfold String.app in *. simpl. by rewrite IH. Qed.

Lemma strict_suffix_differs label domain : label +:+ "." +:+ domain ≠ domain.
Proof.
  intros H. apply (f_equal String.length) in H.
  rewrite !app_length in H. simpl in H. lia.
Qed.

(** C6, as the code has it. A line of [name_value] is trimmed and
    lowercased; every occurrence of the two characters "*." is removed, not
    only a leading one; the line is kept exactly when the trimmed name is
    not empty, contains the domain, and, wildcards removed, ends with a dot
    followed by the domain. A kept name is a strict subdomain: a label, a
    dot, the domain, never the domain alone. When the trimmed name has no
    "*." after the leading label this is the specification's rule. The raw
    name "*.Foo.Example.com" gives "foo.example.com" for "example.com"; the
    raw name "example.com" is dropped. *)
Theorem candidate_normalisation (domain line : string) :
  let s := PyStr.lower (PyStr.strip line) in
  candidate domain line =
    (if PyStr.truthy s && PyStr.contains s domain
        && PyStr.endswith (PyStr.remove_wildcards s) ("." +:+ domain)
     then Some (PyStr.remove_wildcards s) else None)
  ∧ (∀ h, candidate domain line = Some h →
          (∃ label, h = label +:+ "." +:+ domain) ∧ h ≠ domain)
  ∧ (PyStr.contains (strip_leading_wildcard s) "*." = false →
     candidate domain line = spec_candidate domain line)
  ∧ candidate "example.com" "*.Foo.Example.com" = Some "foo.example.com"
  ∧ candidate "example.com" "example.com" = None.
Proof.
  intros s. split; [apply candidate_unfold|]. split; [|split; [|done]].
  - intros h. rewrite candidate_unfold. cbv zeta. fold s.
    destruct (_ && _) eqn:Hc; [|done]. intros [= <-].
    apply andb_true_iff in Hc as [_ He]. apply endswith_spec in He as [label He].
    split; [by exists label|]. rewrite He. apply strict_suffix_differs.
  - apply candidate_agrees.
Qed.

(** The rule holds of a name whose only wildcard is the leading label. *)
Lemma candidate_normalisation_witness :
  PyStr.contains
    (strip_leading_wildcard (PyStr.lower (PyStr.strip " *.Mail.Example.com "))) "*." = false
  ∧ candidate "example.com" " *.Mail.Example.com "
    = spec_candidate "example.com" " *.Mail.Example.com ".
Proof.
  split; [reflexivity|].
  apply (proj1 (proj2 (proj2 (candidate_normalisation "example.com" " *.Mail.Example.com ")))).
  reflexivity.
Defined.

(** C6 as stated fails: a name with "*." inside ends with ".example.com",
    so the specification's rule keeps it, and the code drops it; two
    leading wildcard labels are both removed by the code. *)
Lemma candidate_inner_wildcard :
  spec_candidate "example.com" "a*.example.com" = Some "a*.example.com"
  ∧ candidate "example.com" "a*.example.com" = None
  ∧ spec_candidate "example.com" "www.*.example.com" = Some "www.*.example.com"
  ∧ candidate "example.com" "www.*.example.com" = Some "www.example.com".
Proof. repeat split; reflexivity. Qed.

(** ** Sorting *)

Section SortedFacts.
Context {A K : Type} `{EqDecision K} (lt : K → K → bool) (key : A → K).
Hypothesis lt_irrefl : ∀ a, lt a a = false.
Hypothesis le_trans : ∀ a b c, lt b a = false → lt c b = false → lt c a = false.
Hypothesis lt_le : ∀ a b, lt a b = true → lt b a = false.

(** [a] may stand before [b]: the key of [b] is not below that of [a]. *)
Definition in_order (a b : A) : Prop := lt (key b) (key a) = false.

Lemma insert_sorted_Permutation x l : insert_sorted lt key x l ≡ₚ x :: l.
Proof.
  induction l as [|y l IH]; [done|]. cbn [insert_sorted].
  destruct (lt (key y) (key x)); [|done].
  rewrite IH. apply Permutation_swap.
Qed.

Lemma py_sorted_Permutation l : py_sorted lt key l ≡ₚ l.
Proof.
  induction l as [|x l IH]; [done|]. cbn [py_sorted foldr].
  rewrite insert_sorted_Permutation. by f_equiv.
Qed.

Lemma insert_sorted_ordered x l :
  StronglySorted in_order l → StronglySorted in_order (insert_sorted lt key x l).
Proof.
  induction l as [|y l IH]; intros Hs; cbn [insert_sorted].
  - repeat constructor.
  - apply StronglySorted_inv in Hs as [Hl Hy].
    destruct (lt (key y) (key x)) eqn:Hyx.
    + constructor; [by apply IH|].
      rewrite insert_sorted_Permutation. constructor; [|done].
      unfold in_order. by apply lt_le.
    + constructor; [by constructor|]. constructor; [done|].
      eapply Forall_impl; [exact Hy|]. intros z Hz. unfold in_order in *.
      by eapply le_trans.
Qed.

Lemma py_sorted_ordered l : StronglySorted in_order (py_sorted lt key l).
Proof.
  induction l as [|x l IH]; [constructor|]. by apply insert_sorted_ordered.
Qed.



End SortedFacts.


Lemma str_lt_false a b : PyStr.lt b a = false ↔ String.leb a b = true.
Proof.
  unfold PyStr.lt, String.ltb, String.leb. rewrite (String.compare_antisym a b).
  destruct (b ?= a)%string; simpl; split; congruence.
Qed.

Lemma str_le_trans a b c : PyStr.lt b a = false → PyStr.lt c b = false → PyStr.lt c a = false.
Proof.
  rewrite !str_lt_false. intros H1 H2.
  pose proof (transitivity (R := String.le) (x := a) (y := b) (z := c)) as Ht.
  unfold String.le in Ht. apply Is_true_true. apply Ht; by apply Is_true_true.
Qed.

Lemma str_lt_le a b : PyStr.lt a b = true → PyStr.lt b a = false.
Proof.
  unfold PyStr.lt, String.ltb. rewrite (String.compare_antisym a b).
  destruct (b ?= a)%string; simpl; congruence.
Qed.

(** ** The order of the names in an alert *)

Lemma snd_imap {A} (f : nat → A → nat * A) (l : list A) :
  (∀ i x, (f i x).2 = x) → snd <$> imap f l = l.
Proof.
  revert f. induction l as [|x l IH]; intros f Hf; [done|].
  cbn. rewrite Hf. f_equal. apply IH. intros i y. apply Hf.
Qed.

Lemma names_enumerate l : snd <$> enumerate_from_1 l = l.
Proof. by apply snd_imap. Qed.

Lemma names_alert_message E domain new l : names (alert_message E domain new l) = l.
Proof. apply names_enumerate. Qed.

Lemma order_Permutation (it : set_iteration) (X : gset string) : order it X ≡ₚ elements X.
Proof.
  apply NoDup_Permutation; [apply order_NoDup|apply NoDup_elements|].
  intros x. by rewrite order_elem, elem_of_elements.
Qed.

Lemma sorted_by_release_Permutation E new crtsh :
  Subdomain2.sorted_by_release E new crtsh ≡ₚ order (iteration E) new.
Proof. apply py_sorted_Permutation. Qed.


Lemma sorted_subdomains_release E domain new crtsh w :
  crtsh ≠ ∅ →
  Subdomain2.sorted_subdomains E domain new crtsh w
  = (w, Ok (Subdomain2.sorted_by_release E new crtsh)).
Proof. intros H. unfold Subdomain2.sorted_subdomains. by rewrite bool_decide_true. Qed.

Lemma truthy_ne s : s ≠ "" → PyStr.truthy s = true.
Proof. by destruct s. Qed.

Lemma send_telegram_alert_release self E domain new crtsh w :
  crtsh ≠ ∅ → new ≠ ∅ →
  telegram_bot_token self ≠ "" → telegram_chat_id self ≠ "" →
  Subdomain2.send_telegram_alert self E domain new crtsh w
  = post Telegram domain
         (alert_message E domain new (Subdomain2.sorted_by_release E new crtsh))
         (telegram_api E) w.
Proof.
  intros Hc Hn Ht Hi. unfold Subdomain2.send_telegram_alert.
  rewrite (truthy_ne _ Ht), (truthy_ne _ Hi), (bool_decide_false _ Hn). cbn [negb orb].
  unfold bind at 1. by rewrite sorted_subdomains_release.
Qed.

Lemma send_discord_alert_release self E domain new crtsh w :
  crtsh ≠ ∅ → new ≠ ∅ → discord_webhook_url self ≠ "" →
  Subdomain2.send_discord_alert self E domain new crtsh w
  = post Discord domain
         (alert_message E domain new (Subdomain2.sorted_by_release E new crtsh))
         (discord_webhook E) w.
Proof.
  intros Hc Hn Hu. unfold Subdomain2.send_discord_alert.
  rewrite (truthy_ne _ Hu), (bool_decide_false _ Hn). cbn [negb orb].
  unfold bind at 1. by rewrite sorted_subdomains_release.
Qed.





Definition example_self : monitor := Monitor ["example.com"] "token" "chat" "https://hook".







(** ** The date kept for a name *)

(** Two log entries for one name: the first carries no timestamp at all,
    the second one does. *)
Definition undated_first : list entry :=
  [ Entry "a.example.com" "" "";
    Entry "a.example.com" "2024-01-01T00:00:00" "" ].

(** C5 at that input. The name is first stored with the empty date; no
    string is below the empty string, so the dated entry never replaces it
    and the fetch returns the empty date. With the two entries swapped the
    fetch returns the timestamp: the result depends on the order. *)
Theorem undated_entry_first_wins :
  Subdomain2.request (Json undated_first) "example.com"
    = Ok {[ "a.example.com" := "" ]}
  ∧ Subdomain2.request (Json (reverse undated_first)) "example.com"
    = Ok {[ "a.example.com" := "2024-01-01T00:00:00" ]}.
Proof. split; by vm_compute. Qed.

Lemma keep_earliest_lookup t m h h' :
  Subdomain2.keep_earliest t m h !! h'
  = if decide (h = h') then
      match m !! h with
      | None => Some t
      | Some kept => if PyStr.truthy t && PyStr.lt t kept then Some t else Some kept
      end
    else m !! h'.
Proof.
  unfold Subdomain2.keep_earliest.
  destruct (m !! h) as [kept|] eqn:Hm; [destruct (_ && _)|];
    destruct (decide (h = h')) as [<-|Hne];
    by rewrite ?lookup_insert_eq, ?lookup_insert_ne.
Qed.

(** Once a name is stored with the empty date no later entry changes it. *)
Lemma keep_earliest_empty_sticks t m h :
  m !! h = Some "" → Subdomain2.keep_earliest t m h = m.
Proof.
  intros Hm. unfold Subdomain2.keep_earliest. rewrite Hm.
  replace (PyStr.lt t "") with false; [by rewrite andb_false_r|].
  unfold PyStr.lt, String.ltb. by destruct t.
Qed.


(** ** The table: INSERT, UPDATE and the stored names *)

Import Sql.

(** The row an INSERT of the scripts adds to the table they create. *)
Definition fresh_v1 (id : Z) (domain subdomain now : string) : row :=
  list_to_map [ ("id", VInt id); ("domain", VText domain); ("subdomain", VText subdomain);
                ("first_seen", VText now); ("last_seen", VText now) ].

Definition fresh_v2 (id : Z) (domain subdomain now : string) (release : value) : row :=
  list_to_map [ ("id", VInt id); ("domain", VText domain); ("subdomain", VText subdomain);
                ("first_seen", VText now); ("last_seen", VText now);
                ("release_date", release) ].

Lemma sql_eq_text x s : sql_eq x (VText s) = true ↔ x = VText s.
Proof.
  destruct x; simpl; try (split; [discriminate|congruence]); try done.
  rewrite bool_decide_eq_true. done.
Qed.

Lemma sql_eq_text_l x s : sql_eq (VText s) x = sql_eq x (VText s).
Proof.
  destruct x; simpl; try done.
  apply bool_decide_ext. split; congruence.
Qed.

Lemma is_pair_spec d h r :
  is_pair d h r = true ↔ cell r "domain" = VText d ∧ cell r "subdomain" = VText h.
Proof. unfold is_pair. by rewrite andb_true_iff, !sql_eq_text. Qed.

Lemma existsb_same {A} (f g : A → bool) (l : list A) :
  (∀ x, f x = g x) → existsb f l = existsb g l.
Proof. intros H. induction l as [|x l IH]; [done|]. cbn. by rewrite H, IH. Qed.

Lemma insert_v2 d h release now rows seq :
  insert [("domain", VText d); ("subdomain", VText h); ("release_date", release)] now
         (Some (Table schema_v2 unique_pair rows seq))
  = if existsb (is_pair d h) rows then Raise IntegrityError
    else Ok (Some (Table schema_v2 unique_pair
                         (rows ++ [fresh_v2 (seq + 1) d h now release]) (seq + 1))).
Proof.
  unfold insert.
  replace (forallb _ _) with true by reflexivity. cbn [negb].
  replace (new_row _ _ now) with (fresh_v2 (seq + 1) d h now release) by reflexivity.
  replace (breaks_notnull _ _) with false by reflexivity. cbn [orb].
  replace (takes_id _ _) with true by reflexivity.
  unfold breaks_unique. cbn [uniques unique_pair existsb Sql.rows]. rewrite orb_false_r.
  apply (f_equal (λ b : bool, if b then _ else _)). apply existsb_same. intros r. unfold collide, is_pair. cbn [forallb].
  rewrite andb_true_r.
  replace (cell (fresh_v2 _ _ _ _ _) "domain") with (VText d) by reflexivity.
  replace (cell (fresh_v2 _ _ _ _ _) "subdomain") with (VText h) by reflexivity.
  by rewrite !sql_eq_text_l.
Qed.

Lemma insert_v1 d h now rows seq :
  insert [("domain", VText d); ("subdomain", VText h)] now
         (Some (Table schema_v1 unique_pair rows seq))
  = if existsb (is_pair d h) rows then Raise IntegrityError
    else Ok (Some (Table schema_v1 unique_pair
                         (rows ++ [fresh_v1 (seq + 1) d h now]) (seq + 1))).
Proof.
  unfold insert.
  replace (forallb _ _) with true by reflexivity. cbn [negb].
  replace (new_row _ _ now) with (fresh_v1 (seq + 1) d h now) by reflexivity.
  replace (breaks_notnull _ _) with false by reflexivity. cbn [orb].
  replace (takes_id _ _) with true by reflexivity.
  unfold breaks_unique. cbn [uniques unique_pair existsb Sql.rows]. rewrite orb_false_r.
  apply (f_equal (λ b : bool, if b then _ else _)). apply existsb_same. intros r.
  unfold collide, is_pair. cbn [forallb]. rewrite andb_true_r.
  replace (cell (fresh_v1 _ _ _ _) "domain") with (VText d) by reflexivity.
  replace (cell (fresh_v1 _ _ _ _) "subdomain") with (VText h) by reflexivity.
  by rewrite !sql_eq_text_l.
Qed.

(** On both tables the UPDATE succeeds: the columns exist and the UNIQUE
    constraint does not involve [last_seen]. *)
Lemma update_created sch d h now rows seq :
  sch = schema_v1 ∨ sch = schema_v2 →
  update_last_seen d h now (Some (Table sch unique_pair rows seq))
  = Ok (Some (Table sch unique_pair (touch d h now <$> rows) seq)).
Proof. intros [-> | ->]; reflexivity. Qed.

(** What recording one name leaves in the table. *)
Definition recorded (sch : list column) (fresh : row) (domain subdomain now : string)
    (rows : list row) (seq : Z) : table :=
  if existsb (is_pair domain subdomain) rows
  then Table sch unique_pair (touch domain subdomain now <$> rows) seq
  else Table sch unique_pair (rows ++ [fresh]) (seq + 1).

Lemma save_one_v2 d crt now rows seq h :
  Subdomain2.save_one d crt now (Some (Table schema_v2 unique_pair rows seq)) h
  = Ok (Some (recorded schema_v2
                (fresh_v2 (seq + 1) d h now (Subdomain2.release_date crt h))
                d h now rows seq)).
Proof.
  unfold Subdomain2.save_one, insert_or_touch, recorded. rewrite insert_v2.
  destruct (existsb _ _); [|done]. apply update_created. by right.
Qed.

Lemma save_one_v1 d now rows seq h :
  SubdomainMonitor.save_one d now (Some (Table schema_v1 unique_pair rows seq)) h
  = Ok (Some (recorded schema_v1 (fresh_v1 (seq + 1) d h now) d h now rows seq)).
Proof.
  unfold SubdomainMonitor.save_one, insert_or_touch, recorded. rewrite insert_v1.
  destruct (existsb _ _); [|done]. apply update_created. by left.
Qed.

(** The UPDATE writes [last_seen] and nothing else, and only in the rows
    of the pair. *)
Lemma touch_cell d h now r c : c ≠ "last_seen" → cell (touch d h now r) c = cell r c.
Proof.
  intros Hc. unfold touch. destruct (is_pair d h r); [|done].
  unfold cell. by rewrite lookup_insert_ne.
Qed.


Lemma touch_last_seen d h now r :
  is_pair d h r = true → cell (touch d h now r) "last_seen" = VText now.
Proof. intros H. unfold touch, cell. by rewrite H, lookup_insert_eq. Qed.

Lemma is_pair_touch d h now d' h' r : is_pair d' h' (touch d h now r) = is_pair d' h' r.
Proof. unfold is_pair. by rewrite !touch_cell. Qed.

Lemma collide_touch d h now r r' :
  collide ["domain"; "subdomain"] (touch d h now r) (touch d h now r')
  = collide ["domain"; "subdomain"] r r'.
Proof. unfold collide. cbn [forallb]. by rewrite !touch_cell. Qed.

(** The rows of a pair. *)
Definition pair_rows (domain subdomain : string) (rows : list row) : list row :=
  List.filter (is_pair domain subdomain) rows.

Lemma pair_rows_touch d h now d' h' rows :
  length (pair_rows d' h' (touch d h now <$> rows)) = length (pair_rows d' h' rows).
Proof.
  unfold pair_rows. induction rows as [|r rows IH]; [done|].
  cbn [fmap list_fmap List.filter]. rewrite is_pair_touch.
  destruct (is_pair d' h' r); cbn [length]; by rewrite IH.
Qed.

Lemma pair_rows_none d h rows :
  existsb (is_pair d h) rows = false → pair_rows d h rows = [].
Proof.
  unfold pair_rows. induction rows as [|r rows IH]; [done|].
  cbn [existsb List.filter]. intros [-> Hr]%orb_false_iff. by apply IH.
Qed.

Lemma pair_rows_app d h rows rows' :
  pair_rows d h (rows ++ rows') = pair_rows d h rows ++ pair_rows d h rows'.
Proof. apply List.filter_app. Qed.

Lemma existsb_touch d h now d' h' rows :
  existsb (is_pair d' h') (touch d h now <$> rows) = existsb (is_pair d' h') rows.
Proof.
  induction rows as [|r rows IH]; [done|].
  cbn [fmap list_fmap existsb]. by rewrite is_pair_touch, IH.
Qed.

Lemma fresh_v1_pair id d h now : is_pair d h (fresh_v1 id d h now) = true.
Proof. apply is_pair_spec. by split. Qed.

Lemma fresh_v2_pair id d h now release : is_pair d h (fresh_v2 id d h now release) = true.
Proof. apply is_pair_spec. by split. Qed.

(** UNIQUE(domain, subdomain) holds of a list of rows. *)
Definition pair_unique (rows : list row) : bool :=
  pairwise_distinct ["domain"; "subdomain"] rows.

Lemma collide_sym u r r' : collide u r r' = collide u r' r.
Proof.
  unfold collide. induction u as [|c u IH]; [done|]. cbn [forallb]. rewrite IH.
  f_equal. unfold sql_eq. destruct (cell r c), (cell r' c); try done;
    apply bool_decide_ext; split; congruence.
Qed.

Lemma pairwise_distinct_snoc u rows r :
  pairwise_distinct u (rows ++ [r])
  = pairwise_distinct u rows && negb (existsb (collide u r) rows).
Proof.
  induction rows as [|r' rows IH]; [done|].
  cbn [app pairwise_distinct existsb]. rewrite IH, existsb_app. cbn [existsb].
  rewrite (collide_sym u r r').
  destruct (existsb (collide u r') rows), (collide u r' r),
    (pairwise_distinct u rows), (existsb (collide u r) rows); reflexivity.
Qed.

Lemma existsb_collide_touch d h now r rows :
  existsb (collide ["domain"; "subdomain"] (touch d h now r)) (touch d h now <$> rows)
  = existsb (collide ["domain"; "subdomain"] r) rows.
Proof.
  induction rows as [|r' rows IH]; [done|].
  cbn [fmap list_fmap existsb]. by rewrite collide_touch, IH.
Qed.

Lemma pairwise_distinct_touch d h now rows :
  pair_unique (touch d h now <$> rows) = pair_unique rows.
Proof.
  unfold pair_unique. induction rows as [|r rows IH]; [done|].
  cbn [fmap list_fmap pairwise_distinct]. by rewrite IH, existsb_collide_touch.
Qed.

Lemma collide_pair d h r r' :
  is_pair d h r = true → collide ["domain"; "subdomain"] r r' = is_pair d h r'.
Proof.
  intros [Hd Hh]%is_pair_spec. unfold collide, is_pair. cbn [forallb].
  by rewrite Hd, Hh, andb_true_r, !sql_eq_text_l.
Qed.

Lemma recorded_unique sch fresh d h now rows seq :
  is_pair d h fresh = true →
  pair_unique rows = true → pair_unique (Sql.rows (recorded sch fresh d h now rows seq)) = true.
Proof.
  intros Hf Hu. unfold recorded. destruct (existsb _ _) eqn:He; cbn [Sql.rows].
  - by rewrite pairwise_distinct_touch.
  - unfold pair_unique in *. rewrite pairwise_distinct_snoc, Hu.
    rewrite (existsb_same _ (is_pair d h)), He; [done|].
    intros r. by apply collide_pair.
Qed.

Lemma recorded_pair_rows sch fresh d h now rows seq :
  is_pair d h fresh = true →
  length (pair_rows d h (Sql.rows (recorded sch fresh d h now rows seq)))
  = if existsb (is_pair d h) rows then length (pair_rows d h rows) else 1%nat.
Proof.
  intros Hf. unfold recorded. destruct (existsb _ _) eqn:He; cbn [Sql.rows].
  - apply pair_rows_touch.
  - rewrite pair_rows_app, (pair_rows_none _ _ _ He). unfold pair_rows.
    cbn [List.filter]. by rewrite Hf.
Qed.


Lemma recorded_eta sch fresh d h now rows seq :
  recorded sch fresh d h now rows seq
  = Table sch unique_pair (Sql.rows (recorded sch fresh d h now rows seq))
          (sequence (recorded sch fresh d h now rows seq)).
Proof. unfold recorded. by destruct (existsb _ _). Qed.







(** ** Running code in [M] *)

Lemma bind_ok {A B} (m : M A) (k : A → M B) w w' a :
  m w = (w', Ok a) → bind m k w = k a w'.
Proof. intros H. unfold bind. by rewrite H. Qed.

Lemma bind_raise {A B} (m : M A) (k : A → M B) w w' e :
  m w = (w', Raise e) → bind m k w = (w', Raise e).
Proof. intros H. unfold bind. by rewrite H. Qed.

Lemma try_except_ok {A} (m : M A) catches handler w w' a :
  m w = (w', Ok a) → try_except m catches handler w = (w', Ok a).
Proof. intros H. unfold try_except. by rewrite H. Qed.

Lemma try_except_raise {A} (m : M A) catches handler w w' e :
  m w = (w', Raise e) →
  try_except m catches handler w = if catches e then handler e w' else (w', Raise e).
Proof. intros H. unfold try_except. by rewrite H. Qed.

(** ** The names stored for a domain *)

Definition known_rows (rows : list row) (domain : string) : gset string :=
  list_to_set (omap (λ r, text_of (cell r "subdomain"))
                    (List.filter (holds (Eq "domain" (VText domain))) rows)).

Lemma known_in_table sch u rows seq d :
  known_in (Some (Table sch u rows seq)) d = known_rows rows d.
Proof. reflexivity. Qed.

Lemma elem_of_known_rows rows d h :
  h ∈ known_rows rows d ↔ ∃ r, r ∈ rows ∧ is_pair d h r = true.
Proof.
  unfold known_rows. rewrite elem_of_list_to_set, list_elem_of_omap. split.
  - intros (r & Hr & Ht). exists r.
    apply list_elem_of_In, List.filter_In in Hr as [Hr Hd]. split; [by apply list_elem_of_In|].
    apply is_pair_spec. cbn [holds] in Hd. apply sql_eq_text in Hd. split; [done|].
    destruct (cell r "subdomain"); simplify_eq/=. done.
  - intros (r & Hr & [Hd Hh]%is_pair_spec). exists r. split.
    + apply list_elem_of_In, List.filter_In. split; [by apply list_elem_of_In|].
      cbn [holds]. by apply sql_eq_text.
    + by rewrite Hh.
Qed.

Lemma stored_known rows d h : existsb (is_pair d h) rows = true ↔ h ∈ known_rows rows d.
Proof.
  rewrite elem_of_known_rows, existsb_exists. split; intros (r & Hr & Hp); exists r;
    (split; [by apply list_elem_of_In|done]).
Qed.

Lemma known_rows_touch d h now rows d' :
  known_rows (touch d h now <$> rows) d' = known_rows rows d'.
Proof.
  apply set_eq. intros x. rewrite <- !stored_known. apply eq_iff_eq_true, existsb_touch.
Qed.

Lemma known_rows_snoc rows r d h d' :
  is_pair d h r = true →
  known_rows (rows ++ [r]) d' = known_rows rows d' ∪ (if decide (d' = d) then {[h]} else ∅).
Proof.
  intros Hp. apply set_eq. intros x. rewrite elem_of_union, <- !stored_known, existsb_app.
  cbn [existsb]. rewrite orb_false_r, orb_true_iff.
  apply or_iff_compat_l. apply is_pair_spec in Hp as [Hd Hh].
  rewrite is_pair_spec, Hd, Hh. destruct (decide (d' = d)) as [->|Hne]; set_solver.
Qed.

Lemma known_rows_recorded sch fresh d h now rows seq d' :
  is_pair d h fresh = true →
  known_rows (Sql.rows (recorded sch fresh d h now rows seq)) d'
  = known_rows rows d' ∪ (if decide (d' = d) then {[h]} else ∅).
Proof.
  intros Hf. unfold recorded. destruct (existsb (is_pair d h) rows) eqn:He; cbn [Sql.rows].
  - rewrite known_rows_touch. apply stored_known in He.
    destruct (decide (d' = d)) as [->|]; set_solver.
  - by apply known_rows_snoc.
Qed.


(** ** The steps of a cycle on a table the scripts created *)

(** The database holds the table with the columns [sch] and the
    constraint UNIQUE(domain, subdomain). *)
Definition created (sch : list column) (db : database) : Prop :=
  ∃ rows seq, db = Some (Table sch unique_pair rows seq).

Lemma first_column_text (l : list row) :
  omap (λ fetched : list value, head fetched ≫= text_of)
       ((λ r : row, cell r <$> ["subdomain"]) <$> l)
  = omap (λ r, text_of (cell r "subdomain")) l.
Proof.
  induction l as [|r l IH]; [done|].
  rewrite fmap_cons. cbn [omap list_omap]. rewrite IH. reflexivity.
Qed.

Lemma get_known_subdomains_created sch d w :
  sch = schema_v1 ∨ sch = schema_v2 → created sch (store w) →
  get_known_subdomains d w = (w, Ok (known_in (store w) d)).
Proof.
  intros Hsch (rows & seq & Hw). unfold get_known_subdomains, get_store, lift, ret, bind.
  rewrite Hw. unfold select.
  replace (forallb _ _) with true by (by destruct Hsch as [-> | ->]).
  cbn [Sql.rows]. do 2 f_equal. rewrite known_in_table. unfold known_rows.
  by rewrite first_column_text.
Qed.

(** Saving a list of names, one after the other, never raises. *)
Lemma save_all_v2 d crt now l rows seq :
  ∃ rows' seq',
    foldM (Subdomain2.save_one d crt now) (Some (Table schema_v2 unique_pair rows seq)) l
    = Ok (Some (Table schema_v2 unique_pair rows' seq'))
    ∧ (∀ d', known_rows rows' d'
             = known_rows rows d' ∪ (if decide (d' = d) then list_to_set l else ∅))
    ∧ (pair_unique rows = true → pair_unique rows' = true).
Proof.
  revert rows seq. induction l as [|h l IH]; intros rows seq.
  - exists rows, seq. split; [done|]. split; [|done].
    intros d'. destruct (decide (d' = d)); set_solver.
  - cbn [foldM]. rewrite save_one_v2, recorded_eta.
    set (fresh := fresh_v2 _ _ _ _ _).
    assert (is_pair d h fresh = true) as Hf by apply fresh_v2_pair.
    destruct (IH (Sql.rows (recorded schema_v2 fresh d h now rows seq))
                 (sequence (recorded schema_v2 fresh d h now rows seq)))
      as (rows' & seq' & -> & Hk & Hu).
    exists rows', seq'. split; [done|]. split.
    + intros d'. rewrite Hk, known_rows_recorded by done.
      destruct (decide (d' = d)); set_solver.
    + intros H. by apply Hu, recorded_unique.
Qed.

Lemma save_all_v1 d now l rows seq :
  ∃ rows' seq',
    foldM (SubdomainMonitor.save_one d now) (Some (Table schema_v1 unique_pair rows seq)) l
    = Ok (Some (Table schema_v1 unique_pair rows' seq'))
    ∧ (∀ d', known_rows rows' d'
             = known_rows rows d' ∪ (if decide (d' = d) then list_to_set l else ∅))
    ∧ (pair_unique rows = true → pair_unique rows' = true).
Proof.
  revert rows seq. induction l as [|h l IH]; intros rows seq.
  - exists rows, seq. split; [done|]. split; [|done].
    intros d'. destruct (decide (d' = d)); set_solver.
  - cbn [foldM]. rewrite save_one_v1, recorded_eta.
    set (fresh := fresh_v1 _ _ _ _).
    assert (is_pair d h fresh = true) as Hf by apply fresh_v1_pair.
    destruct (IH (Sql.rows (recorded schema_v1 fresh d h now rows seq))
                 (sequence (recorded schema_v1 fresh d h now rows seq)))
      as (rows' & seq' & -> & Hk & Hu).
    exists rows', seq'. split; [done|]. split.
    + intros d'. rewrite Hk, known_rows_recorded by done.
      destruct (decide (d' = d)); set_solver.
    + intros H. by apply Hu, recorded_unique.
Qed.

Lemma list_to_set_order (it : set_iteration) (X : gset string) :
  list_to_set (order it X) = X.
Proof. apply set_eq. intros x. by rewrite elem_of_list_to_set, order_elem. Qed.

(** No alert is posted. *)
Definition no_posts (added : list event) : Prop := ∀ s m, HttpPost s m ∉ added.

Lemma save_new_subdomains_v2 E d new crt w :
  created schema_v2 (store w) → new ≠ ∅ →
  ∃ db',
    Subdomain2.save_new_subdomains E d new crt w
    = (World db' (trace w ++ [SqlCommit; Log (Saved (size new) d)]), Ok tt)
    ∧ created schema_v2 db'
    ∧ (∀ d', known_in db' d'
             = known_in (store w) d' ∪ (if decide (d' = d) then new else ∅)).
Proof.
  intros (rows & seq & Hw) Hn. unfold Subdomain2.save_new_subdomains.
  rewrite (bool_decide_false _ Hn).
  destruct (save_all_v2 d crt (current_timestamp E) (order (iteration E) new) rows seq)
    as (rows' & seq' & Hs & Hk & _).
  exists (Some (Table schema_v2 unique_pair rows' seq')).
  unfold bind, get_store, lift, set_store, emit. rewrite Hw, Hs. cbn [store trace].
  split; [by rewrite <- app_assoc|]. split; [by eexists _, _|].
  intros d'. rewrite !known_in_table, Hk, list_to_set_order. done.
Qed.

Lemma save_new_subdomains_v1 E d new w :
  created schema_v1 (store w) → new ≠ ∅ →
  ∃ db',
    SubdomainMonitor.save_new_subdomains E d new w
    = (World db' (trace w ++ [SqlCommit; Log (Saved (size new) d)]), Ok tt)
    ∧ created schema_v1 db'
    ∧ (∀ d', known_in db' d'
             = known_in (store w) d' ∪ (if decide (d' = d) then new else ∅)).
Proof.
  intros (rows & seq & Hw) Hn. unfold SubdomainMonitor.save_new_subdomains.
  rewrite (bool_decide_false _ Hn).
  destruct (save_all_v1 d (current_timestamp E) (order (iteration E) new) rows seq)
    as (rows' & seq' & Hs & Hk & _).
  exists (Some (Table schema_v1 unique_pair rows' seq')).
  unfold bind, get_store, lift, set_store, emit. rewrite Hw, Hs. cbn [store trace].
  split; [by rewrite <- app_assoc|]. split; [by eexists _, _|].
  intros d'. rewrite !known_in_table, Hk, list_to_set_order. done.
Qed.


(** ** One cycle, for any five steps that keep their contracts *)

Definition is_log (ev : event) : Prop :=
  match ev with Log _ => True | _ => False end.

(** The alert [m] is for [domain] and lists the names of [new], each once. *)
Definition lists (domain : string) (new : gset string) (m : message) : Prop :=
  msg_domain m = domain ∧ NoDup (names m) ∧ ∀ h, h ∈ names m ↔ h ∈ new.

Definition posted_to (s : sink) (ev : event) : bool :=
  match ev with HttpPost s' _ => bool_decide (s' = s) | _ => false end.

Lemma emit_run ev w : emit ev w = (World (store w) (trace w ++ [ev]), Ok tt).
Proof. reflexivity. Qed.

Lemma commit_before_post pre rest p s m q :
  Forall is_log pre →
  pre ++ SqlCommit :: rest = p ++ HttpPost s m :: q → SqlCommit ∈ p.
Proof.
  intros Hpre. revert p. induction Hpre as [|x pre Hx Hpre IH]; intros p Heq.
  - destruct p as [|y p]; simplify_eq/=. left.
  - destruct p as [|y p]; simplify_eq/=; [done|]. right. by apply IH.
Qed.

Section Cycle.
Context {F : Type} (S : steps F) (good : database → Prop) (enabled : sink → bool)
        (domain : string).

(** What an alert step adds to the trace: when the sink is configured,
    one post and lines of the log after it; otherwise nothing. *)
Definition alert_events (s : sink) (new : gset string) (added : list event) : Prop :=
  if enabled s
  then ∃ m tail, added = HttpPost s m :: tail ∧ lists domain new m ∧ Forall is_log tail
  else added = [].

Record contract : Prop := Contract {
  fetch_quiet : ∀ w, ∃ added r,
    step_fetch S domain w = (World (store w) (trace w ++ added), r) ∧ Forall is_log added;
  known_reads : ∀ w, good (store w) →
    step_known S domain w = (w, Ok (known_in (store w) domain));
  save_commits : ∀ w new f, good (store w) → new ≠ ∅ → ∃ db',
    step_save S domain new f w
    = (World db' (trace w ++ [SqlCommit; Log (Saved (size new) domain)]), Ok tt)
    ∧ good db'
    ∧ ∀ d', known_in db' d'
            = known_in (store w) d' ∪ (if decide (d' = domain) then new else ∅);
  telegram_alerts : ∀ w new f, new ≠ ∅ → new ⊆ step_names S f → ∃ added r,
    step_telegram S domain new f w = (World (store w) (trace w ++ added), r)
    ∧ alert_events Telegram new added;
  discord_alerts : ∀ w new f, new ≠ ∅ → new ⊆ step_names S f → ∃ added r,
    step_discord S domain new f w = (World (store w) (trace w ++ added), r)
    ∧ alert_events Discord new added
}.

(** The names the fetch of this cycle returns; none when it raises. *)
Definition fetched (w : world) : gset string :=
  match (step_fetch S domain (World (store w) (trace w ++ [Log (Checking domain)]))).2 with
  | Ok f => step_names S f
  | Raise _ => ∅
  end.

(** What the body of the [try] adds to the trace. *)
Definition body_events (new : gset string) (added : list event) (r : result unit) : Prop :=
  if decide (new = ∅) then Forall is_log added
  else ∃ pre ta da,
      added = pre ++ [SqlCommit; Log (Saved (size new) domain)] ++ ta ++ da
      ∧ Forall is_log pre ∧ alert_events Telegram new ta
      ∧ ((∃ e, r = Raise e) ∧ da = [] ∨ alert_events Discord new da).

Lemma monitor_domain_try_run (C : contract) w :
  good (store w) →
  let new := fetched w ∖ known_in (store w) domain in
  ∃ db' added r,
    monitor_domain_try S domain w = (World db' (trace w ++ added), r)
    ∧ good db'
    ∧ (new = ∅ → db' = store w)
    ∧ (∀ d', known_in db' d'
             = known_in (store w) d' ∪ (if decide (d' = domain) then new else ∅))
    ∧ body_events new added r.
Proof.
  intros Hgood new. unfold monitor_domain_try.
  erewrite bind_ok by apply emit_run.
  set (w0 := World (store w) (trace w ++ [Log (Checking domain)])).
  destruct (fetch_quiet C w0) as (fa & rf & Hf & Hfa).
  assert (fetched w = match rf with Ok f => step_names S f | Raise _ => ∅ end) as Hfetched.
  { unfold fetched. fold w0. by rewrite Hf. }
  assert (∀ db d', db = store w → new = ∅ →
            known_in db d' = known_in (store w) d' ∪ (if decide (d' = domain) then new else ∅))
    as Hsame.
  { intros db d' -> ->. destruct (decide (d' = domain)); set_solver. }
  destruct rf as [f|e].
  - erewrite bind_ok by exact Hf.
    set (w1 := World (store w0) (trace w0 ++ fa)).
    erewrite bind_ok by (apply (known_reads C w1); exact Hgood).
    change (store w1) with (store w). rewrite <- Hfetched. fold new.
    destruct (decide (new = ∅)) as [Hn|Hn].
    + rewrite (bool_decide_false _ (λ H, H Hn)), emit_run.
      exists (store w), ([Log (Checking domain)] ++ fa ++ [Log (NoNew domain)]), (Ok tt).
      split; [cbn [w1 w0 store trace]; by rewrite <- !app_assoc|].
      split; [done|]. split; [done|]. split; [intros; by apply Hsame|].
      unfold body_events. rewrite decide_True by done.
      apply Forall_app. split; [by repeat constructor|].
      apply Forall_app. split; [done|by repeat constructor].
    + rewrite (bool_decide_true _ Hn).
      erewrite bind_ok by apply emit_run.
      set (w2 := World (store w1) (trace w1 ++ [Log (FoundNew (size new) domain new)])).
      destruct (save_commits C w2 new f Hgood Hn) as (db' & Hs & Hgood' & Hk).
      erewrite bind_ok by exact Hs.
      set (w3 := World db' _).
      assert (new ⊆ step_names S f) as Hsub by (rewrite <- Hfetched in *; set_solver).
      destruct (telegram_alerts C w3 new f Hn Hsub) as (ta & rt & Ht & Hta).
      unfold notify. destruct rt as [[]|e].
      * erewrite bind_ok by exact Ht.
        destruct (discord_alerts C (World (store w3) (trace w3 ++ ta)) new f Hn Hsub)
          as (da & rd & Hd & Hda).
        rewrite Hd. exists db', ([Log (Checking domain)] ++ fa
          ++ [Log (FoundNew (size new) domain new)]
          ++ [SqlCommit; Log (Saved (size new) domain)] ++ ta ++ da), rd.
        split; [cbn [w3 w2 w1 w0 store trace]; by rewrite <- !app_assoc|].
        split; [done|]. split; [done|]. split; [exact Hk|].
        unfold body_events. rewrite decide_False by done.
        exists ([Log (Checking domain)] ++ fa ++ [Log (FoundNew (size new) domain new)]), ta, da.
        split; [by rewrite <- !app_assoc|]. split; [|by auto].
        apply Forall_app. split; [by repeat constructor|].
        apply Forall_app. split; [done|by repeat constructor].
      * erewrite bind_raise by exact Ht.
        exists db', ([Log (Checking domain)] ++ fa
          ++ [Log (FoundNew (size new) domain new)]
          ++ [SqlCommit; Log (Saved (size new) domain)] ++ ta ++ []), (Raise e).
        split; [cbn [w3 w2 w1 w0 store trace]; by rewrite <- !app_assoc, app_nil_r|].
        split; [done|]. split; [done|]. split; [exact Hk|].
        unfold body_events. rewrite decide_False by done.
        exists ([Log (Checking domain)] ++ fa ++ [Log (FoundNew (size new) domain new)]), ta, [].
        split; [by rewrite <- !app_assoc|]. split; [|by eauto].
        apply Forall_app. split; [by repeat constructor|].
        apply Forall_app. split; [done|by repeat constructor].
  - erewrite bind_raise by exact Hf.
    assert (new = ∅) as Hn by (unfold new; rewrite Hfetched; set_solver).
    exists (store w), ([Log (Checking domain)] ++ fa), (Raise e).
    split; [cbn [w0 store trace]; by rewrite <- !app_assoc|].
    split; [done|]. split; [done|]. split; [intros; by apply Hsame|].
    unfold body_events. rewrite decide_True by done.
    apply Forall_app. split; [by repeat constructor|done].
Qed.

(** What the whole cycle adds to the trace: every alert lists the new
    names; a sink gets at most one alert; no alert is posted before the
    commit; nothing but log lines when no name is new; and when names are
    new every configured sink gets its alert, unless the cycle ends in an
    error. *)
Definition cycle_events (new : gset string) (added : list event) (r : result unit) : Prop :=
  (∀ s m, HttpPost s m ∈ added → lists domain new m)
  ∧ (∀ s, (length (List.filter (posted_to s) added) ≤ 1)%nat)
  ∧ (∀ p s m q, added = p ++ HttpPost s m :: q → SqlCommit ∈ p)
  ∧ (new = ∅ → Forall is_log added)
  ∧ (new ≠ ∅ → ∀ s, enabled s = true →
       (∃ m, HttpPost s m ∈ added)
       ∨ (∃ e, Log (ErrorMonitoring domain e) ∈ added)
       ∨ (∃ e, r = Raise e)).

Lemma alert_events_cases s new evs :
  alert_events s new evs →
  evs = [] ∨ ∃ m tail, evs = HttpPost s m :: tail ∧ lists domain new m ∧ Forall is_log tail.
Proof. unfold alert_events. destruct (enabled s); auto. Qed.

Lemma log_not_post l s m : Forall is_log l → HttpPost s m ∉ l.
Proof. intros Hl Hin. rewrite Forall_forall in Hl. exact (Hl _ Hin). Qed.

Lemma log_no_posts l s : Forall is_log l → List.filter (posted_to s) l = [].
Proof.
  induction 1 as [|x l Hx Hl IH]; [done|]. cbn [List.filter].
  destruct x; first [done | apply IH].
Qed.

Lemma alert_events_post s new evs s' m :
  alert_events s new evs → HttpPost s' m ∈ evs → lists domain new m.
Proof.
  intros [->|(m0 & tail & -> & Hm & Ht)]%alert_events_cases Hin.
  - by apply elem_of_nil in Hin.
  - apply elem_of_cons in Hin as [[= -> ->]|Hin]; [done|].
    by apply log_not_post in Hin.
Qed.

Lemma alert_events_count s new evs s' :
  alert_events s new evs →
  (length (List.filter (posted_to s') evs) ≤ if decide (s' = s) then 1 else 0)%nat.
Proof.
  intros [->|(m0 & tail & -> & Hm & Ht)]%alert_events_cases.
  - cbn. destruct (decide _); lia.
  - cbn [List.filter posted_to]. rewrite (log_no_posts _ _ Ht).
    destruct (decide (s' = s)) as [->|Hne].
    + rewrite bool_decide_true by done. cbn. lia.
    + rewrite bool_decide_false by congruence. cbn. lia.
Qed.

Lemma body_to_cycle new added rb hl r :
  body_events new added rb →
  Forall is_log hl →
  (∀ e, rb = Raise e → (∃ e', Log (ErrorMonitoring domain e') ∈ hl) ∨ (∃ e', r = Raise e')) →
  cycle_events new (added ++ hl) r.
Proof.
  unfold body_events. intros Hb Hhl Hr. destruct (decide (new = ∅)) as [Hn|Hn].
  - assert (Forall is_log (added ++ hl)) as Hall by (by apply Forall_app).
    split; [intros s m Hin; by apply log_not_post in Hin|].
    split; [intros s; rewrite log_no_posts by done; cbn; lia|].
    split.
    { intros p s m q Heq. exfalso. eapply (log_not_post _ s m Hall).
      rewrite Heq. apply elem_of_app. right. left. }
    split; [done|]. intros H. by destruct H.
  - destruct Hb as (pre & ta & da & -> & Hpre & Hta & Hda).
    assert (da = [] ∨ alert_events Discord new da) as Hda'.
    { destruct Hda as [[_ ->]|?]; auto. }
    split.
    { intros s m Hin. rewrite !elem_of_app in Hin.
      destruct Hin as [[Hin|[Hin|[Hin|Hin]]]|Hin].
      - by apply log_not_post in Hin.
      - apply elem_of_cons in Hin as [?|Hin]; [done|].
        apply elem_of_cons in Hin as [?|Hin]; [done|]. by apply elem_of_nil in Hin.
      - by eapply (alert_events_post Telegram new ta).
      - destruct Hda' as [->|Hd]; [by apply elem_of_nil in Hin|].
        by eapply (alert_events_post Discord new da).
      - by apply log_not_post in Hin. }
    split.
    { intros s. rewrite !List.filter_app, !length_app.
      rewrite (log_no_posts pre), (log_no_posts hl) by done. cbn [List.filter posted_to length].
      pose proof (alert_events_count Telegram new ta s Hta) as H1.
      assert (length (List.filter (posted_to s) da)
              ≤ if decide (s = Discord) then 1 else 0)%nat as H2.
      { destruct Hda' as [->|Hd]; [cbn; destruct (decide _); lia|].
        by apply (alert_events_count Discord new). }
      destruct (decide (s = Telegram)), (decide (s = Discord)); try lia. congruence. }
    split.
    { intros p s m q Heq. eapply (commit_before_post pre); [done|].
      rewrite <- Heq. cbn. by rewrite <- !app_assoc. }
    split; [done|]. intros _ s Hs.
    assert (∀ s0 evs, alert_events s0 new evs → enabled s0 = true →
              ∃ m, HttpPost s0 m ∈ evs) as Hex.
    { intros s0 evs Hev Hen. unfold alert_events in Hev. rewrite Hen in Hev.
      destruct Hev as (m & tail & -> & _). exists m. left. }
    destruct s.
    + left. destruct (Hex _ _ Hta Hs) as [m Hm]. exists m. set_solver.
    + destruct Hda as [[[e He] _]|Hd].
      * right. destruct (Hr e He) as [[e' He']|[e' He']]; [left|right]; exists e'; [|done].
        set_solver.
      * left. destruct (Hex _ _ Hd Hs) as [m Hm]. exists m. set_solver.
Qed.

Lemma monitor_domain_with_run (C : contract) w :
  good (store w) →
  let new := fetched w ∖ known_in (store w) domain in
  ∃ db' added r,
    monitor_domain_with S domain w = (World db' (trace w ++ added), r)
    ∧ good db'
    ∧ (new = ∅ → db' = store w)
    ∧ (∀ d', known_in db' d'
             = known_in (store w) d' ∪ (if decide (d' = domain) then new else ∅))
    ∧ cycle_events new added r
    ∧ (∀ e, r = Raise e → is_Exception e = false).
Proof.
  intros Hgood new.
  destruct (monitor_domain_try_run C w Hgood) as (db' & added & rb & Hrun & Hg & Hs & Hk & Hb).
  fold new in Hs, Hk, Hb. unfold monitor_domain_with, try_except. rewrite Hrun.
  destruct rb as [[]|e].
  - exists db', added, (Ok tt). split; [done|]. repeat (split; [done|]). split; [|done].
    rewrite <- (app_nil_r added). eapply body_to_cycle; [done|done|]. intros e. discriminate.
  - destruct (is_Exception e) eqn:He.
    + rewrite emit_run. cbn [store trace].
      exists db', (added ++ [Log (ErrorMonitoring domain e)]), (Ok tt).
      split; [by rewrite <- app_assoc|]. repeat (split; [done|]). split; [|done].
      eapply body_to_cycle; [done|by repeat constructor|]. intros e' _. left. exists e. left.
    + exists db', added, (Raise e). split; [done|]. repeat (split; [done|]).
      split; [|congruence].
      rewrite <- (app_nil_r added). eapply body_to_cycle; [done|done|]. intros e' _. eauto.
Qed.

End Cycle.


(** ** The steps of the two scripts *)

(** What the handlers of the fetch make of the request. *)
Definition fetch_outcome {F} (nothing : F) (r : result F) : result F :=
  match r with
  | Raise RequestException | Raise JSONDecodeError => Ok nothing
  | other => other
  end.

Definition fetch_log {F} (count : F → nat) (domain : string) (r : result F) : list event :=
  match r with
  | Ok found => [Log (FoundFromCrtsh (count found) domain)]
  | Raise RequestException => [Log (ErrorFetching domain RequestException)]
  | Raise JSONDecodeError => [Log (ErrorParsing domain JSONDecodeError)]
  | Raise _ => []
  end.

Lemma fetch_log_is_log {F} (count : F → nat) domain r : Forall is_log (fetch_log count domain r).
Proof. destruct r as [|[]]; by repeat constructor. Qed.

Lemma get_subdomains_from_crtsh_v2 E d w :
  Subdomain2.get_subdomains_from_crtsh E d w
  = (World (store w) (trace w ++ fetch_log size d (Subdomain2.request (crtsh E) d)),
     fetch_outcome ∅ (Subdomain2.request (crtsh E) d)).
Proof.
  unfold Subdomain2.get_subdomains_from_crtsh, try_except, bind, lift, emit, ret.
  destruct (Subdomain2.request (crtsh E) d) as [found|[]]; cbn; try done;
    by rewrite app_nil_r; destruct w.
Qed.

Lemma get_subdomains_from_crtsh_v1 E d w :
  SubdomainMonitor.get_subdomains_from_crtsh E d w
  = (World (store w) (trace w ++ fetch_log size d (SubdomainMonitor.request (crtsh E) d)),
     fetch_outcome ∅ (SubdomainMonitor.request (crtsh E) d)).
Proof.
  unfold SubdomainMonitor.get_subdomains_from_crtsh, try_except, bind, lift, emit, ret.
  destruct (SubdomainMonitor.request (crtsh E) d) as [found|[]]; cbn; try done;
    by rewrite app_nil_r; destruct w.
Qed.

(** What the handler around [requests.post] logs, and what still leaves. *)
Definition post_log (s : sink) (domain : string) (o : post_outcome) : list event :=
  match o with
  | Delivered => [Log (AlertSent s domain)]
  | Rejected | PostRaises RequestException => [Log (ErrorSending s domain RequestException)]
  | PostRaises _ => []
  end.

Definition post_result (o : post_outcome) : result unit :=
  match o with
  | Delivered | Rejected | PostRaises RequestException => Ok tt
  | PostRaises e => Raise e
  end.

Lemma post_run s d m o w :
  post s d m o w = (World (store w) (trace w ++ HttpPost s m :: post_log s d o), post_result o).
Proof.
  unfold post, bind, emit, lift. cbn [store trace].
  destruct o as [| |[]]; cbn; by rewrite <- ?app_assoc.
Qed.

Lemma post_log_is_log s d o : Forall is_log (post_log s d o).
Proof. destruct o as [| |[]]; by repeat constructor. Qed.

(** Whether a sink is configured. *)
Definition configured (self : monitor) (s : sink) : bool :=
  match s with
  | Telegram => PyStr.truthy (telegram_bot_token self) && PyStr.truthy (telegram_chat_id self)
  | Discord => PyStr.truthy (discord_webhook_url self)
  end.

Lemma truthy_true s : PyStr.truthy s = true → s ≠ "".
Proof. by destruct s. Qed.

Lemma lists_sorted_by_release E d new crt :
  lists d new (alert_message E d new (Subdomain2.sorted_by_release E new crt)).
Proof.
  unfold lists. rewrite names_alert_message. split; [done|].
  pose proof (sorted_by_release_Permutation E new crt) as Hp. split.
  - rewrite Hp. apply order_NoDup.
  - intros h. rewrite Hp. apply order_elem.
Qed.

Lemma lists_sorted_names E d new :
  lists d new (alert_message E d new (SubdomainMonitor.sorted_names E new)).
Proof.
  unfold lists. rewrite names_alert_message. split; [done|].
  assert (SubdomainMonitor.sorted_names E new ≡ₚ order (iteration E) new) as Hp
    by apply py_sorted_Permutation.
  split.
  - rewrite Hp. apply order_NoDup.
  - intros h. rewrite Hp. apply order_elem.
Qed.

Lemma nonempty_subset_dom (new : gset string) (crt : gmap string string) :
  new ≠ ∅ → new ⊆ dom crt → crt ≠ ∅.
Proof. intros Hn Hs ->. rewrite dom_empty_L in Hs. set_solver. Qed.

Lemma telegram_alerts_v2 self E d new crt w :
  new ≠ ∅ → new ⊆ dom crt →
  ∃ added r,
    Subdomain2.send_telegram_alert self E d new crt w = (World (store w) (trace w ++ added), r)
    ∧ alert_events (configured self) d Telegram new added.
Proof.
  intros Hn Hs. unfold alert_events. destruct (configured self Telegram) eqn:Hc.
  - apply andb_true_iff in Hc as [Ht%truthy_true Hi%truthy_true].
    rewrite send_telegram_alert_release by eauto using nonempty_subset_dom.
    rewrite post_run. eexists _, _. split; [done|]. eexists _, _. split; [done|].
    split; [apply lists_sorted_by_release|apply post_log_is_log].
  - exists [], (Ok tt). split; [|done]. unfold Subdomain2.send_telegram_alert.
    cbn [configured] in Hc. rewrite <- negb_andb, Hc. cbn. rewrite app_nil_r. by destruct w.
Qed.

Lemma discord_alerts_v2 self E d new crt w :
  new ≠ ∅ → new ⊆ dom crt →
  ∃ added r,
    Subdomain2.send_discord_alert self E d new crt w = (World (store w) (trace w ++ added), r)
    ∧ alert_events (configured self) d Discord new added.
Proof.
  intros Hn Hs. unfold alert_events. destruct (configured self Discord) eqn:Hc.
  - apply truthy_true in Hc.
    rewrite send_discord_alert_release by eauto using nonempty_subset_dom.
    rewrite post_run. eexists _, _. split; [done|]. eexists _, _. split; [done|].
    split; [apply lists_sorted_by_release|apply post_log_is_log].
  - exists [], (Ok tt). split; [|done]. unfold Subdomain2.send_discord_alert.
    cbn [configured] in Hc. rewrite Hc. cbn. rewrite app_nil_r. by destruct w.
Qed.

Lemma telegram_alerts_v1 self E d new w :
  new ≠ ∅ →
  ∃ added r,
    SubdomainMonitor.send_telegram_alert self E d new w = (World (store w) (trace w ++ added), r)
    ∧ alert_events (configured self) d Telegram new added.
Proof.
  intros Hn. unfold alert_events, SubdomainMonitor.send_telegram_alert.
  rewrite <- negb_andb. change (_ && _) with (configured self Telegram).
  destruct (configured self Telegram) eqn:Hc; cbn [negb orb].
  - rewrite (bool_decide_false _ Hn), post_run.
    eexists _, _. split; [done|]. eexists _, _. split; [done|].
    split; [apply lists_sorted_names|apply post_log_is_log].
  - exists [], (Ok tt). split; [|done]. cbn. rewrite app_nil_r. by destruct w.
Qed.

Lemma discord_alerts_v1 self E d new w :
  new ≠ ∅ →
  ∃ added r,
    SubdomainMonitor.send_discord_alert self E d new w = (World (store w) (trace w ++ added), r)
    ∧ alert_events (configured self) d Discord new added.
Proof.
  intros Hn. unfold alert_events, SubdomainMonitor.send_discord_alert.
  change (PyStr.truthy (discord_webhook_url self)) with (configured self Discord).
  destruct (configured self Discord) eqn:Hc; cbn [negb orb].
  - rewrite (bool_decide_false _ Hn), post_run.
    eexists _, _. split; [done|]. eexists _, _. split; [done|].
    split; [apply lists_sorted_names|apply post_log_is_log].
  - exists [], (Ok tt). split; [|done]. cbn. rewrite app_nil_r. by destruct w.
Qed.

Lemma contract_v2 self E d :
  contract (Subdomain2.methods self E) (created schema_v2) (configured self) d.
Proof.
  split; cbn [Subdomain2.methods step_fetch step_names step_known step_save
              step_telegram step_discord].
  - intros w. rewrite get_subdomains_from_crtsh_v2. eexists _, _. split; [done|].
    apply fetch_log_is_log.
  - intros w Hg. eapply get_known_subdomains_created; [by right|done].
  - intros w new f Hg Hn. by apply save_new_subdomains_v2.
  - intros w new f. apply telegram_alerts_v2.
  - intros w new f. apply discord_alerts_v2.
Qed.

Lemma contract_v1 self E d :
  contract (SubdomainMonitor.methods self E) (created schema_v1) (configured self) d.
Proof.
  split; cbn [SubdomainMonitor.methods step_fetch step_names step_known step_save
              step_telegram step_discord].
  - intros w. rewrite get_subdomains_from_crtsh_v1. eexists _, _. split; [done|].
    apply fetch_log_is_log.
  - intros w Hg. eapply get_known_subdomains_created; [by left|done].
  - intros w new f Hg Hn. by apply save_new_subdomains_v1.
  - intros w new f Hn _. by apply telegram_alerts_v1.
  - intros w new f Hn _. by apply discord_alerts_v1.
Qed.


(** ** Errors inside a cycle *)

(** Code that only appends to the trace. *)
Definition grows {A} (m : M A) : Prop := ∀ w, ∃ added, trace (m w).1 = trace w ++ added.








Lemma grows_thread (m : M unit) : grows m → grows (thread m).
Proof. intros Hm w. apply Hm. Qed.





Section Catch.
Context {F : Type} (S : steps F) (domain : string).

(** The world in which the fetch of a cycle starts. *)
Definition checking (w : world) : world :=
  World (store w) (trace w ++ [Log (Checking domain)]).


Lemma monitor_domain_with_handler w :
  monitor_domain_with S domain w
  = match (monitor_domain_try S domain w).2 with
    | Ok _ => monitor_domain_try S domain w
    | Raise e =>
        if is_Exception e
        then (World (store (monitor_domain_try S domain w).1)
                    (trace (monitor_domain_try S domain w).1
                     ++ [Log (ErrorMonitoring domain e)]), Ok tt)
        else monitor_domain_try S domain w
    end.
Proof.
  unfold monitor_domain_with, try_except.
  destruct (monitor_domain_try S domain w) as [w' [[]|e]]; cbn [fst snd]; [reflexivity|].
  destruct (is_Exception e); reflexivity.
Qed.


Lemma fetch_raises w w1 e :
  step_fetch S domain (checking w) = (w1, Raise e) →
  monitor_domain_try S domain w = (w1, Raise e).
Proof.
  intros Hf. unfold monitor_domain_try. erewrite bind_ok by apply emit_run.
  by erewrite bind_raise.
Qed.

Lemma known_raises w w1 f w2 e :
  step_fetch S domain (checking w) = (w1, Ok f) →
  step_known S domain w1 = (w2, Raise e) →
  monitor_domain_try S domain w = (w2, Raise e).
Proof.
  intros Hf Hk. unfold monitor_domain_try. erewrite bind_ok by apply emit_run.
  erewrite bind_ok by exact Hf. by erewrite bind_raise.
Qed.




End Catch.













(** ** A fetch that fails *)

















(** ** Cycles on the table the scripts created *)

(** What one call of [monitor_domain] does when [new] is the set of names
    it finds new: the names stored for the domain grow by [new], those of
    other domains stay, the store is untouched when [new] is empty, and the
    trace grows as [cycle_events] says. *)
Definition cycle_report (enabled : sink → bool) (domain : string) (new : gset string)
    (cycle : M unit) (w : world) : Prop :=
  ∃ db' added r,
    cycle w = (World db' (trace w ++ added), r)
    ∧ (∀ d', known_in db' d'
             = known_in (store w) d' ∪ (if decide (d' = domain) then new else ∅))
    ∧ (new = ∅ → db' = store w)
    ∧ cycle_events enabled domain new added r.

(** The names a fetch returns: those of the answer, none after a failure. *)
Definition current_v2 (E : env) (domain : string) : gset string :=
  match fetch_outcome ∅ (Subdomain2.request (crtsh E) domain) with
  | Ok crtsh_subdomains => dom crtsh_subdomains
  | Raise _ => ∅
  end.

Definition current_v1 (E : env) (domain : string) : gset string :=
  match fetch_outcome ∅ (SubdomainMonitor.request (crtsh E) domain) with
  | Ok current_subdomains => current_subdomains
  | Raise _ => ∅
  end.

Lemma fetched_v2 self E d w : fetched (Subdomain2.methods self E) d w = current_v2 E d.
Proof.
  unfold fetched, current_v2. cbn [Subdomain2.methods step_fetch step_names].
  by rewrite get_subdomains_from_crtsh_v2.
Qed.

Lemma fetched_v1 self E d w : fetched (SubdomainMonitor.methods self E) d w = current_v1 E d.
Proof.
  unfold fetched, current_v1. cbn [SubdomainMonitor.methods step_fetch step_names].
  by rewrite get_subdomains_from_crtsh_v1.
Qed.

Lemma cycle_v2 self E d w :
  created schema_v2 (store w) →
  created schema_v2 (store (Subdomain2.monitor_domain self E d w).1)
  ∧ cycle_report (configured self) d (current_v2 E d ∖ known_in (store w) d)
                 (Subdomain2.monitor_domain self E d) w.
Proof.
  intros Hg.
  destruct (monitor_domain_with_run _ _ _ _ (contract_v2 self E d) w Hg)
    as (db' & added & r & Hrun & Hg' & Hs & Hk & Hev & _).
  rewrite fetched_v2 in Hs, Hk, Hev. unfold Subdomain2.monitor_domain. rewrite Hrun.
  split; [done|]. by exists db', added, r.
Qed.

Lemma cycle_v1 self E d w :
  created schema_v1 (store w) →
  created schema_v1 (store (SubdomainMonitor.monitor_domain self E d w).1)
  ∧ cycle_report (configured self) d (current_v1 E d ∖ known_in (store w) d)
                 (SubdomainMonitor.monitor_domain self E d) w.
Proof.
  intros Hg.
  destruct (monitor_domain_with_run _ _ _ _ (contract_v1 self E d) w Hg)
    as (db' & added & r & Hrun & Hg' & Hs & Hk & Hev & _).
  rewrite fetched_v1 in Hs, Hk, Hev. unfold SubdomainMonitor.monitor_domain. rewrite Hrun.
  split; [done|]. by exists db', added, r.
Qed.

Lemma cycle_report_known enabled d new cycle w :
  cycle_report enabled d new cycle w →
  ∀ d', known_in (store (cycle w).1) d'
        = known_in (store w) d' ∪ (if decide (d' = d) then new else ∅).
Proof. intros (db' & added & r & -> & Hk & _). exact Hk. Qed.

(** Two cycles for one domain, one after the other. *)
Definition two_cycles (enabled : sink → bool) (domain : string)
    (cycle1 cycle2 : M unit) (current1 current2 : gset string) (w0 : world) : Prop :=
  let known0 := known_in (store w0) domain in
  let w1 := (cycle1 w0).1 in
  let w2 := (cycle2 w1).1 in
  cycle_report enabled domain (current1 ∖ known0) cycle1 w0
  ∧ cycle_report enabled domain (current2 ∖ (current1 ∪ known0)) cycle2 w1
  ∧ known0 ⊆ known_in (store w1) domain
  ∧ known_in (store w1) domain = known0 ∪ current1
  ∧ known_in (store w2) domain = known0 ∪ current1 ∪ current2
  ∧ (current1 ⊆ current2 → known0 ## current2 ∖ current1 →
     current2 ∖ (current1 ∪ known0) = current2 ∖ current1).

Lemma two_cycles_from_reports enabled d cycle1 cycle2 S1 S2 w0 :
  cycle_report enabled d (S1 ∖ known_in (store w0) d) cycle1 w0 →
  cycle_report enabled d (S2 ∖ known_in (store (cycle1 w0).1) d) cycle2 (cycle1 w0).1 →
  two_cycles enabled d cycle1 cycle2 S1 S2 w0.
Proof.
  intros H1 H2. unfold two_cycles. cbv zeta.
  pose proof (cycle_report_known _ _ _ _ _ H1 d) as Hk1.
  pose proof (cycle_report_known _ _ _ _ _ H2 d) as Hk2.
  rewrite decide_True in Hk1, Hk2 by done.
  set (K0 := known_in (store w0) d) in *.
  assert (known_in (store (cycle1 w0).1) d = K0 ∪ S1) as HK1.
  { rewrite Hk1. apply set_eq. intros x. rewrite !elem_of_union, elem_of_difference.
    destruct (decide (x ∈ K0)); tauto. }
  assert (S2 ∖ known_in (store (cycle1 w0).1) d = S2 ∖ (S1 ∪ K0)) as HN2.
  { rewrite HK1. set_solver. }
  rewrite HN2 in H2, Hk2.
  split; [done|]. split; [done|]. split; [set_solver|]. split; [done|].
  split.
  { rewrite Hk2, HK1. apply set_eq. intros x. rewrite !elem_of_union, elem_of_difference,
      elem_of_union. destruct (decide (x ∈ K0)), (decide (x ∈ S1)); tauto. }
  set_solver.
Qed.

(** C1, as the code has it. On the table a script created, one cycle finds
    new exactly the names the fetch returned that are not stored for the
    domain, stores them, and lists exactly them in each alert; what was
    stored stays stored. Of two cycles in a row the second therefore finds
    new the names of its fetch that are neither in the first fetch nor were
    stored before the first cycle: when the second fetch contains the
    first, that is the second minus the first only if none of those names
    was stored before. *)
Theorem new_is_current_minus_known (self : monitor) (E1 E2 : env) (domain : string)
    (rows : list row) (seq : Z) (tr : list event) :
  two_cycles (configured self) domain
    (Subdomain2.monitor_domain self E1 domain) (Subdomain2.monitor_domain self E2 domain)
    (current_v2 E1 domain) (current_v2 E2 domain)
    (World (Some (Table schema_v2 unique_pair rows seq)) tr)
  ∧ two_cycles (configured self) domain
      (SubdomainMonitor.monitor_domain self E1 domain)
      (SubdomainMonitor.monitor_domain self E2 domain)
      (current_v1 E1 domain) (current_v1 E2 domain)
      (World (Some (Table schema_v1 unique_pair rows seq)) tr).
Proof.
  split.
  - assert (created schema_v2
              (store (World (Some (Table schema_v2 unique_pair rows seq)) tr))) as Hg
      by (by eexists _, _).
    destruct (cycle_v2 self E1 domain _ Hg) as [Hg1 H1].
    destruct (cycle_v2 self E2 domain _ Hg1) as [_ H2].
    by apply two_cycles_from_reports.
  - assert (created schema_v1
              (store (World (Some (Table schema_v1 unique_pair rows seq)) tr))) as Hg
      by (by eexists _, _).
    destruct (cycle_v1 self E1 domain _ Hg) as [Hg1 H1].
    destruct (cycle_v1 self E2 domain _ Hg1) as [_ H2].
    by apply two_cycles_from_reports.
Qed.

(** The scenario of the specification: an empty table, a first fetch of
    two names, a second fetch of these and a third. *)
Definition first_env : env :=
  Env (Json [Entry "api.example.com" "2024-01-01T00:00:00" "";
             Entry "www.example.com" "2024-01-02T00:00:00" ""])
      Delivered Delivered "2024-03-01 00:00:00" "2024-03-01 01:00:00" ascending_iteration.

Definition second_env : env :=
  Env (Json [Entry "api.example.com" "2024-01-01T00:00:00" "";
             Entry "www.example.com" "2024-01-02T00:00:00" "";
             Entry "new.example.com" "2024-02-01T00:00:00" ""])
      Delivered Delivered "2024-03-02 00:00:00" "2024-03-02 01:00:00" ascending_iteration.

Lemma new_is_current_minus_known_witness :
  current_v2 first_env "example.com" ⊆ current_v2 second_env "example.com"
  ∧ known_in (Some (Table schema_v2 unique_pair [] 0)) "example.com"
    ## current_v2 second_env "example.com" ∖ current_v2 first_env "example.com"
  ∧ current_v2 second_env "example.com"
      ∖ (current_v2 first_env "example.com"
         ∪ known_in (Some (Table schema_v2 unique_pair [] 0)) "example.com")
    = current_v2 second_env "example.com" ∖ current_v2 first_env "example.com".
Proof.
  assert (current_v2 first_env "example.com" ⊆ current_v2 second_env "example.com") as Hs.
  { apply (bool_decide_unpack _). by vm_compute. }
  assert (known_in (Some (Table schema_v2 unique_pair [] 0)) "example.com"
          ## current_v2 second_env "example.com" ∖ current_v2 first_env "example.com") as Hd.
  { apply (bool_decide_unpack _). by vm_compute. }
  split; [exact Hs|]. split; [exact Hd|].
  exact (proj2 (proj2 (proj2 (proj2 (proj2 (proj1
           (new_is_current_minus_known example_self first_env second_env "example.com"
              [] 0 [])))))) Hs Hd).
Defined.

(** A name stored long ago, gone from the first fetch, back in the second. *)
Definition old_row : row :=
  fresh_v2 1 "example.com" "old.example.com" "2024-01-01 00:00:00" VNull.

Definition www_env : env :=
  Env (Json [Entry "www.example.com" "2024-01-02T00:00:00" ""])
      Delivered Delivered "2024-03-01 00:00:00" "2024-03-01 01:00:00" ascending_iteration.

Definition www_old_env : env :=
  Env (Json [Entry "www.example.com" "2024-01-02T00:00:00" "";
             Entry "old.example.com" "2024-02-01T00:00:00" ""])
      Delivered Delivered "2024-03-02 00:00:00" "2024-03-02 01:00:00" ascending_iteration.

Definition after_www : world :=
  (Subdomain2.monitor_domain example_self www_env "example.com"
     (World (Some (Table schema_v2 unique_pair [old_row] 1)) [])).1.

(** C1 as stated fails: the second fetch contains the first and one name
    more, but that name is stored already; the second cycle stores nothing
    and posts nothing. *)
Lemma returning_name_is_not_new :
  current_v2 www_env "example.com" = {[ "www.example.com" ]}
  ∧ current_v2 www_old_env "example.com" = {[ "www.example.com"; "old.example.com" ]}
  ∧ current_v2 www_old_env "example.com" ∖ current_v2 www_env "example.com"
    = {[ "old.example.com" ]}
  ∧ Subdomain2.monitor_domain example_self www_old_env "example.com" after_www
    = (World (store after_www)
             (trace after_www ++ [ Log (Checking "example.com");
                                   Log (FoundFromCrtsh 2 "example.com");
                                   Log (NoNew "example.com") ]),
       Ok tt).
Proof. repeat split; by vm_compute. Qed.


(** ** Any number of cycles *)

(** Cycles run one after the other, each for a domain and with what the
    outside gives it. *)
Definition run (cycle : env → string → M unit) (cycles : list (env * string))
    (w : world) : world :=
  foldl (λ w c, (cycle c.1 c.2 w).1) w cycles.




Section Runs.
Context (cycle : env → string → M unit) (good : database → Prop) (enabled : sink → bool).
Hypothesis cycle_ok : ∀ E d w, good (store w) →
  good (store (cycle E d w).1)
  ∧ ∃ new, new ## known_in (store w) d ∧ cycle_report enabled d new (cycle E d) w.




End Runs.








(** ** [init_database] *)

(** C10. In [subdomain_monitor.py], with no table [subdomains] in the
    database, the probe of the columns returns nothing, so the column
    [domain] is missing and the migration branch is taken; its SELECT raises
    OperationalError. The call does not create the table and does not
    commit: the database still has no table. *)
Theorem init_database_needs_table (self : monitor) (E : env) (tr : list event) :
  table_info None = []
  ∧ SubdomainMonitor.init_database self E (World None tr)
    = (World None (tr ++ [Log MigratingOldDatabase]), Raise OperationalError)
  ∧ (∀ db, (SubdomainMonitor.init_database self E (World db tr)).2 = Ok tt →
           table_exists db = true).
Proof.
  split; [done|]. split; [done|].
  intros [t|]; [done|]. discriminate.
Qed.

Lemma init_database_needs_table_witness :
  (SubdomainMonitor.init_database example_self first_env
     (World (Some (empty_table schema_v1 unique_pair)) [])).2 = Ok tt
  ∧ table_exists (Some (empty_table schema_v1 unique_pair)) = true.
Proof.
  split; [reflexivity|].
  apply (proj2 (proj2 (init_database_needs_table example_self first_env [])));
  reflexivity.
Defined.


(** *** The migration of [subdomain_monitor.py] *)

(** An old row put under the default domain, with a new id. *)
Definition migrated_row (id : Z) (default_domain : string) (old : row) : row :=
  list_to_map [ ("id", VInt id); ("domain", VText default_domain);
                ("subdomain", cell old "subdomain");
                ("first_seen", cell old "first_seen");
                ("last_seen", cell old "last_seen") ].

Fixpoint migrated (default_domain : string) (seq : Z) (old : list row) : list row :=
  match old with
  | [] => []
  | r :: rest => migrated_row (seq + 1) default_domain r :: migrated default_domain (seq + 1) rest
  end.

(** What the old rows must be like for the INSERTs to succeed: each name a
    text, no name twice. The times are stored as they were read: SQLite
    keeps a text such as 2024-01-01 00:00:00 as it is. *)
Definition legacy_ok (old : list row) : bool :=
  forallb (λ r, bool_decide (is_Some (text_of (cell r "subdomain")))) old
  && pairwise_distinct ["subdomain"] old.

(** [old_data], as the SELECT of the migration returns it. *)
Definition old_data (old : list row) : list (list value) :=
  (λ r, cell r <$> ["subdomain"; "first_seen"; "last_seen"]) <$> old.

Lemma migrate_row_insert d0 now acc seq r :
  SubdomainMonitor.migrate_row d0 now (Some (Table schema_v1 unique_pair acc seq))
    (cell r <$> ["subdomain"; "first_seen"; "last_seen"])
  = if bool_decide (cell r "subdomain" = VNull)
       || existsb (λ a, sql_eq (VText d0) (cell a "domain")
                        && sql_eq (cell r "subdomain") (cell a "subdomain")) acc
    then Raise IntegrityError
    else Ok (Some (Table schema_v1 unique_pair (acc ++ [migrated_row (seq + 1) d0 r])
                         (seq + 1))).
Proof.
  unfold SubdomainMonitor.migrate_row, insert.
  replace (forallb _ _) with true by reflexivity. cbn [negb].
  replace (cell_at 0 _) with (cell r "subdomain") by reflexivity.
  replace (cell_at 1 _) with (cell r "first_seen") by reflexivity.
  replace (cell_at 2 _) with (cell r "last_seen") by reflexivity.
  replace (new_row _ _ now) with (migrated_row (seq + 1) d0 r) by reflexivity.
  replace (takes_id _ _) with true by reflexivity.
  replace (breaks_notnull _ _) with (bool_decide (cell r "subdomain" = VNull)).
  2:{ unfold breaks_notnull, migrated_row. cbn [cols schema_v1 existsb cnotnull cname andb orb].
      change (cell (list_to_map _) "subdomain") with (cell r "subdomain").
      rewrite (bool_decide_false (VText d0 = VNull)) by done.
      by rewrite orb_false_r. }
  unfold breaks_unique. cbn [uniques unique_pair existsb Sql.rows]. rewrite orb_false_r.
  apply (f_equal (λ b : bool, if b then _ else _)). f_equal.
  apply existsb_same. intros a. unfold collide. cbn [forallb]. rewrite andb_true_r.
  replace (cell (migrated_row _ _ _) "domain") with (VText d0) by reflexivity.
  by replace (cell (migrated_row _ _ _) "subdomain") with (cell r "subdomain") by reflexivity.
Qed.

Lemma sql_eq_sym a b : sql_eq a b = sql_eq b a.
Proof. destruct a, b; try done; cbn; apply bool_decide_ext; split; congruence. Qed.

Lemma migrated_row_cells id d0 r :
  cell (migrated_row id d0 r) "domain" = VText d0
  ∧ cell (migrated_row id d0 r) "subdomain" = cell r "subdomain"
  ∧ cell (migrated_row id d0 r) "first_seen" = cell r "first_seen"
  ∧ cell (migrated_row id d0 r) "last_seen" = cell r "last_seen"
  ∧ cell (migrated_row id d0 r) "id" = VInt id.
Proof. by repeat split. Qed.

Lemma migrate_all d0 now old acc seq :
  legacy_ok old = true →
  (∀ r a, r ∈ old → a ∈ acc →
          sql_eq (cell r "subdomain") (cell a "subdomain") = false) →
  foldM (SubdomainMonitor.migrate_row d0 now) (Some (Table schema_v1 unique_pair acc seq))
        (old_data old)
  = Ok (Some (Table schema_v1 unique_pair (acc ++ migrated d0 seq old)
                    (seq + Z.of_nat (length old)))).
Proof.
  revert acc seq. induction old as [|r old IH]; intros acc seq Hok Hacc.
  - cbn. by rewrite app_nil_r, Z.add_0_r.
  - unfold legacy_ok in Hok. cbn [forallb pairwise_distinct] in Hok.
    apply andb_true_iff in Hok as [[Hnull Hnulls]%andb_true_iff [Hr Hdist]%andb_true_iff].
    change (old_data (r :: old))
      with ((cell r <$> ["subdomain"; "first_seen"; "last_seen"]) :: old_data old).
    cbn [foldM]. rewrite migrate_row_insert.
    apply negb_true_iff in Hr. apply bool_decide_eq_true in Hnull as [s Hs].
    rewrite bool_decide_false by (intros Hn; by rewrite Hn in Hs). cbn [orb].
    assert (existsb (λ a, sql_eq (VText d0) (cell a "domain")
                          && sql_eq (cell r "subdomain") (cell a "subdomain")) acc = false)
      as ->.
    { apply not_true_iff_false. intros (a & Ha & Hc)%existsb_exists.
      apply andb_true_iff in Hc as [_ Hc].
      rewrite (Hacc r a) in Hc; [done|left|by apply list_elem_of_In]. }
    rewrite IH.
    + cbn [migrated length]. rewrite <- app_assoc. do 3 f_equal. lia.
    + unfold legacy_ok. by rewrite Hnulls, Hdist.
    + intros r' a Hr' [Ha|Ha]%elem_of_app.
      * apply Hacc; [by right|done].
      * apply list_elem_of_singleton in Ha as ->.
        destruct (migrated_row_cells (seq + 1) d0 r) as (_ & -> & _).
        rewrite sql_eq_sym.
        destruct (sql_eq (cell r "subdomain") (cell r' "subdomain")) eqn:He; [|done].
        exfalso. apply not_true_iff_false in Hr. apply Hr, existsb_exists.
        exists r'. split; [by apply list_elem_of_In|].
        unfold collide. cbn [forallb]. by rewrite He.
Qed.


Lemma filter_always (l : list row) : List.filter (holds Always) l = l.
Proof. induction l as [|r l IH]; [done|]. simpl. by f_equal. Qed.

Lemma select_legacy t :
  forallb (has_column t) ["subdomain"; "first_seen"; "last_seen"] = true →
  select ["subdomain"; "first_seen"; "last_seen"] Always (Some t) = Ok (old_data (rows t)).
Proof.
  intros H. unfold select. cbn [cond_columns]. rewrite app_nil_r, H.
  by rewrite filter_always.
Qed.

(** The line the migration logs when there was something to move. *)
Definition migrated_log (default_domain : string) (old : list row) : list event :=
  match old with
  | [] => []
  | _ :: _ => [Log (Migrated (length old) default_domain)]
  end.

Lemma old_data_length old : length (old_data old) = length old.
Proof. unfold old_data. by rewrite length_fmap. Qed.

Lemma init_database_migrates d0 rest tok chat url E t tr :
  has_column t "domain" = false →
  forallb (has_column t) ["subdomain"; "first_seen"; "last_seen"] = true →
  legacy_ok (rows t) = true →
  SubdomainMonitor.init_database (Monitor (d0 :: rest) tok chat url) E (World (Some t) tr)
  = (World (Some (Table schema_v1 unique_pair (migrated d0 0 (rows t))
                        (Z.of_nat (length (rows t)))))
           (tr ++ Log MigratingOldDatabase
               :: migrated_log d0 (rows t) ++ [SqlCommit; Log DatabaseInitialized]),
     Ok tt).
Proof.
  intros Hd Hc Hok. unfold SubdomainMonitor.init_database.
  unfold bind at 1. cbn [get_store store table_info].
  rewrite bool_decide_true
    by (unfold has_column in Hd; by apply bool_decide_eq_false in Hd).
  unfold bind at 1. unfold bind at 1. rewrite emit_run. cbn [store trace].
  unfold bind at 1. unfold lift at 1. rewrite (select_legacy t Hc).
  unfold bind at 1. unfold lift at 1. cbn [drop_table].
  unfold bind at 1. unfold set_store at 1.
  unfold bind at 1. unfold lift at 1. cbn [create_table].
  unfold bind at 1. unfold set_store at 1. cbn [store trace].
  destruct (rows t) as [|r old] eqn:Hrows.
  - cbn [old_data fmap list_fmap domains]. unfold ret at 1.
    unfold bind at 1. rewrite emit_run. cbn [store trace]. rewrite emit_run.
    cbn [store trace migrated migrated_log length app]. rewrite <- !app_assoc. reflexivity.
  - change (old_data (r :: old))
      with ((cell r <$> ["subdomain"; "first_seen"; "last_seen"]) :: old_data old).
    cbn [domains].
    change ((cell r <$> ["subdomain"; "first_seen"; "last_seen"]) :: old_data old)
      with (old_data (r :: old)).
    unfold bind at 1. unfold lift at 1. unfold empty_table.
    rewrite (migrate_all d0 (current_timestamp E) (r :: old) [] 0 Hok)
      by (intros ? ? _ Ha; by apply elem_of_nil in Ha).
    unfold bind at 1. rewrite emit_run. cbn [store trace]. unfold set_store at 1.
    unfold bind at 1. rewrite emit_run. cbn [store trace]. rewrite emit_run.
    cbn [store trace migrated_log]. rewrite old_data_length, app_nil_l, Z.add_0_l.
    rewrite <- !app_assoc. reflexivity.
Qed.


Lemma migrated_length d0 seq old : length (migrated d0 seq old) = length old.
Proof. revert seq. induction old as [|r old IH]; intros seq; [done|]. cbn. by rewrite IH. Qed.

Lemma migrated_lookup d0 seq old i r :
  old !! i = Some r →
  migrated d0 seq old !! i = Some (migrated_row (seq + Z.of_nat i + 1) d0 r).
Proof.
  revert seq i. induction old as [|r0 old IH]; intros seq i H; [done|].
  destruct i as [|i].
  - cbn in H. simplify_eq. cbn [migrated]. by rewrite Z.add_0_r.
  - cbn [migrated]. rewrite lookup_cons. rewrite lookup_cons in H.
    rewrite (IH (seq + 1)%Z i H). do 2 f_equal. lia.
Qed.

Lemma migrated_other_domain d' h d0 seq old :
  d' ≠ d0 → existsb (is_pair d' h) (migrated d0 seq old) = false.
Proof.
  intros Hd. revert seq. induction old as [|r old IH]; intros seq; [done|].
  cbn [migrated existsb]. rewrite IH, orb_false_r.
  unfold is_pair. replace (cell (migrated_row _ _ _) "domain") with (VText d0) by reflexivity.
  cbn [sql_eq]. rewrite bool_decide_false by congruence. done.
Qed.

(** A table that has the column [domain] is left as it is. *)
Lemma init_database_keeps self E t tr :
  has_column t "domain" = true →
  SubdomainMonitor.init_database self E (World (Some t) tr)
  = (World (Some t) (tr ++ [SqlCommit; Log DatabaseInitialized]), Ok tt).
Proof.
  intros Hd. unfold SubdomainMonitor.init_database.
  unfold bind at 1. cbn [get_store store table_info].
  rewrite bool_decide_false
    by (unfold has_column in Hd; apply bool_decide_eq_true in Hd; by intros []).
  unfold bind at 1. unfold set_store at 1. cbn [create_table_if_not_exists].
  unfold bind at 1. rewrite emit_run. cbn [store trace]. rewrite emit_run.
  cbn [store trace]. by rewrite <- app_assoc.
Qed.

(** [subdomain2.py]: a table without the column [release_date] gets it,
    NULL in every row; a table that has it is left as it is. *)
Definition with_release_date (t : table) : table :=
  Table (cols t ++ [release_date_column]) (uniques t)
        (<["release_date" := VNull]> <$> rows t) (sequence t).

Lemma init_database_adds_release_date t tr :
  has_column t "release_date" = false →
  Subdomain2.init_database (World (Some t) tr)
  = (World (Some (with_release_date t)) (tr ++ [SqlCommit; Log DatabaseInitialized]), Ok tt).
Proof.
  intros Hd. unfold Subdomain2.init_database.
  unfold bind at 1. cbn [get_store store table_info table_exists].
  rewrite bool_decide_true
    by (unfold has_column in Hd; by apply bool_decide_eq_false in Hd).
  cbn [andb]. unfold bind at 1. unfold bind at 1. unfold lift at 1.
  unfold add_column. cbn [cname release_date_column]. rewrite Hd.
  unfold bind at 1. unfold set_store at 1. unfold ret at 1.
  unfold bind at 1. unfold set_store at 1. cbn [create_table_if_not_exists].
  unfold bind at 1. rewrite emit_run. cbn [store trace]. rewrite emit_run.
  cbn [store trace]. by rewrite <- app_assoc.
Qed.

Lemma init_database_keeps_release_date t tr :
  has_column t "release_date" = true →
  Subdomain2.init_database (World (Some t) tr)
  = (World (Some t) (tr ++ [SqlCommit; Log DatabaseInitialized]), Ok tt).
Proof.
  intros Hd. unfold Subdomain2.init_database.
  unfold bind at 1. cbn [get_store store table_info table_exists].
  rewrite bool_decide_false
    by (unfold has_column in Hd; apply bool_decide_eq_true in Hd; by intros []).
  cbn [andb]. unfold bind at 1. unfold ret at 1.
  unfold bind at 1. unfold set_store at 1. cbn [create_table_if_not_exists].
  unfold bind at 1. rewrite emit_run. cbn [store trace]. rewrite emit_run.
  cbn [store trace]. by rewrite <- app_assoc.
Qed.

Lemma has_release_date t : has_column (with_release_date t) "release_date" = true.
Proof.
  unfold has_column, with_release_date, column_names. cbn [cols].
  apply bool_decide_eq_true. rewrite fmap_app. apply elem_of_app. right. by left.
Qed.

Lemma with_release_date_cell (r : row) c :
  c ≠ "release_date" → cell (<["release_date" := VNull]> r) c = cell r c.
Proof. intros Hc. unfold cell. by rewrite lookup_insert_ne. Qed.


(** C8, as the code has it. Take a table without the column [domain] that
    has the columns [subdomain], [first_seen] and [last_seen], in which
    every name is a text and no name stands twice, and a monitor with at
    least one domain. Then [init_database] of [subdomain_monitor.py]
    returns, and the table it leaves has the new columns and, in the old
    order, one row for each old row: under the first domain, with the name
    and both times of the old row (the ids are handed out anew). A name
    of another domain is then inserted as a new row. A table that has the
    column [domain] is left as it is by a further call. In
    [subdomain2.py], a table without the column [release_date] gets it,
    with every row kept and NULL there, and a further call leaves that
    table as it is. *)
Theorem migration_preserves_rows (d0 : string) (rest : list string)
    (tok chat url : string) (E : env) (t : table) (tr : list event) :
  has_column t "domain" = false →
  forallb (has_column t) ["subdomain"; "first_seen"; "last_seen"] = true →
  legacy_ok (rows t) = true →
  let self := Monitor (d0 :: rest) tok chat url in
  let t' := Table schema_v1 unique_pair (migrated d0 0 (rows t))
                  (Z.of_nat (length (rows t))) in
  (SubdomainMonitor.init_database self E (World (Some t) tr)).2 = Ok tt
  ∧ store (SubdomainMonitor.init_database self E (World (Some t) tr)).1 = Some t'
  ∧ length (rows t') = length (rows t)
  ∧ (∀ i r, rows t !! i = Some r →
       ∃ r', rows t' !! i = Some r'
             ∧ cell r' "domain" = VText d0
             ∧ cell r' "subdomain" = cell r "subdomain"
             ∧ cell r' "first_seen" = cell r "first_seen"
             ∧ cell r' "last_seen" = cell r "last_seen")
  ∧ (∀ d' h now, d' ≠ d0 →
       SubdomainMonitor.save_one d' now (Some t') h
       = Ok (Some (Table schema_v1 unique_pair
                         (rows t' ++ [fresh_v1 (sequence t' + 1) d' h now])
                         (sequence t' + 1))))
  ∧ has_column t' "domain" = true
  ∧ (∀ (self' : monitor) E' u tr', has_column u "domain" = true →
       SubdomainMonitor.init_database self' E' (World (Some u) tr')
       = (World (Some u) (tr' ++ [SqlCommit; Log DatabaseInitialized]), Ok tt))
  ∧ (∀ u tr', has_column u "release_date" = false →
       Subdomain2.init_database (World (Some u) tr')
       = (World (Some (with_release_date u)) (tr' ++ [SqlCommit; Log DatabaseInitialized]),
          Ok tt)
       ∧ length (rows (with_release_date u)) = length (rows u)
       ∧ (∀ i r c, rows u !! i = Some r → c ≠ "release_date" →
            ∃ r', rows (with_release_date u) !! i = Some r' ∧ cell r' c = cell r c)
       ∧ (∀ tr'', Subdomain2.init_database (World (Some (with_release_date u)) tr'')
                  = (World (Some (with_release_date u))
                           (tr'' ++ [SqlCommit; Log DatabaseInitialized]), Ok tt))).
Proof.
  intros Hd Hc Hok. cbv zeta.
  rewrite (init_database_migrates d0 rest tok chat url E t tr Hd Hc Hok).
  cbn [fst snd store rows sequence].
  split; [done|]. split; [done|]. split; [apply migrated_length|].
  split.
  { intros i r Hi. exists (migrated_row (0 + Z.of_nat i + 1) d0 r).
    split; [by apply migrated_lookup|]. by repeat split. }
  split.
  { intros d' h now Hne. rewrite save_one_v1. unfold recorded.
    by rewrite migrated_other_domain. }
  split; [done|].
  split; [intros; by apply init_database_keeps|].
  intros u tr' Hu. split; [by apply init_database_adds_release_date|].
  split; [unfold with_release_date; cbn [rows]; by rewrite length_fmap|].
  split.
  - intros i r c Hi Hne. exists (<["release_date" := VNull]> r).
    split; [|by apply with_release_date_cell].
    unfold with_release_date. cbn [rows]. by rewrite list_lookup_fmap, Hi.
  - intros tr''. apply init_database_keeps_release_date, has_release_date.
Qed.

(** A table as the single-domain version left it, with two names of
    old.com. *)
Definition legacy_schema : list column :=
  [ Column "id" false Autoincrement;
    Column "subdomain" true NoDefault;
    Column "first_seen" false CurrentTimestamp;
    Column "last_seen" false CurrentTimestamp ].

Definition legacy_row (id : Z) (subdomain first_seen last_seen : string) : row :=
  list_to_map [ ("id", VInt id); ("subdomain", VText subdomain);
                ("first_seen", VText first_seen); ("last_seen", VText last_seen) ].

Definition legacy_table : table :=
  Table legacy_schema [["subdomain"]]
        [ legacy_row 1 "a.old.com" "2023-01-01 00:00:00" "2023-06-01 00:00:00";
          legacy_row 2 "b.old.com" "2023-02-01 00:00:00" "2023-07-01 00:00:00" ] 2.

Lemma migration_preserves_rows_witness :
  has_column legacy_table "domain" = false
  ∧ forallb (has_column legacy_table) ["subdomain"; "first_seen"; "last_seen"] = true
  ∧ legacy_ok (rows legacy_table) = true
  ∧ store (SubdomainMonitor.init_database example_self first_env
             (World (Some legacy_table) [])).1
    = Some (Table schema_v1 unique_pair (migrated "example.com" 0 (rows legacy_table)) 2).
Proof.
  split; [reflexivity|]. split; [reflexivity|]. split; [reflexivity|].
  exact (proj1 (proj2 (migration_preserves_rows "example.com" [] "token" "chat"
                         "https://hook" first_env legacy_table []
                         eq_refl eq_refl eq_refl))).
Defined.

(** Tables without the column [domain] that hold rows and are not
    migrated. With no UNIQUE constraint in the old table a name can stand
    twice: the second INSERT raises IntegrityError, after the old table was
    dropped and the new one created, so the rows are gone. Without the
    column [first_seen] the SELECT raises OperationalError. *)
Definition duplicated_table : table :=
  Table legacy_schema []
        [ legacy_row 1 "a.old.com" "2023-01-01 00:00:00" "2023-06-01 00:00:00";
          legacy_row 2 "a.old.com" "2023-02-01 00:00:00" "2023-07-01 00:00:00" ] 2.

Definition undated_table : table :=
  Table [ Column "id" false Autoincrement; Column "subdomain" true NoDefault ] []
        [ list_to_map [ ("id", VInt 1); ("subdomain", VText "a.old.com") ] ] 1.

Lemma migration_loses_duplicated_rows :
  (has_column duplicated_table "domain" = false
   ∧ rows duplicated_table ≠ []
   ∧ SubdomainMonitor.init_database example_self first_env
       (World (Some duplicated_table) [])
     = (World (Some (empty_table schema_v1 unique_pair)) [Log MigratingOldDatabase],
        Raise IntegrityError))
  ∧ (has_column undated_table "domain" = false
     ∧ rows undated_table ≠ []
     ∧ SubdomainMonitor.init_database example_self first_env
         (World (Some undated_table) [])
       = (World (Some undated_table) [Log MigratingOldDatabase],
          Raise OperationalError)).
Proof. repeat split; try discriminate; vm_compute; reflexivity. Qed.



(** * Further properties of the two scripts *)

(** ** A cycle only adds rows *)

(** The rows the INSERTs of [save_new_subdomains] add for the names [l],
    taken in this order, after [seq] ids were handed out. *)
Fixpoint fresh_rows_v2 (domain now : string) (crtsh_subdomains : gmap string string)
    (seq : Z) (l : list string) : list row :=
  match l with
  | [] => []
  | h :: rest =>
      fresh_v2 (seq + 1) domain h now (Subdomain2.release_date crtsh_subdomains h)
      :: fresh_rows_v2 domain now crtsh_subdomains (seq + 1) rest
  end.

Fixpoint fresh_rows_v1 (domain now : string) (seq : Z) (l : list string) : list row :=
  match l with
  | [] => []
  | h :: rest => fresh_v1 (seq + 1) domain h now :: fresh_rows_v1 domain now (seq + 1) rest
  end.

(** The dict, or the set, [monitor_domain] gets from the fetch. *)
Definition dates_v2 (E : env) (domain : string) : gmap string string :=
  match fetch_outcome ∅ (Subdomain2.request (crtsh E) domain) with
  | Ok crtsh_subdomains => crtsh_subdomains
  | Raise _ => ∅
  end.

Lemma dom_dates_v2 E d : dom (dates_v2 E d) = current_v2 E d.
Proof.
  unfold dates_v2, current_v2. destruct (fetch_outcome _ _); [done|]. apply dom_empty_L.
Qed.

Lemma save_all_fresh_v2 d crt now l rows seq :
  NoDup l → (∀ h, h ∈ l → h ∉ known_rows rows d) →
  foldM (Subdomain2.save_one d crt now) (Some (Table schema_v2 unique_pair rows seq)) l
  = Ok (Some (Table schema_v2 unique_pair (rows ++ fresh_rows_v2 d now crt seq l)
                    (seq + Z.of_nat (length l)))).
Proof.
  revert rows seq. induction l as [|h l IH]; intros rows seq Hnd Hnew.
  - cbn. by rewrite app_nil_r, Z.add_0_r.
  - cbn [foldM]. rewrite save_one_v2. unfold recorded.
    assert (existsb (is_pair d h) rows = false) as ->.
    { apply not_true_iff_false. rewrite stored_known. apply Hnew. left. }
    apply NoDup_cons in Hnd as [Hh Hnd]. rewrite IH; [|done|].
    + cbn [fresh_rows_v2 length]. rewrite <- app_assoc. do 3 f_equal. lia.
    + intros h' Hh'. rewrite (known_rows_snoc _ _ d h) by apply fresh_v2_pair.
      rewrite decide_True by done. intros [?| ->%elem_of_singleton]%elem_of_union.
      * by apply (Hnew h'); [right|].
      * done.
Qed.

Lemma save_all_fresh_v1 d now l rows seq :
  NoDup l → (∀ h, h ∈ l → h ∉ known_rows rows d) →
  foldM (SubdomainMonitor.save_one d now) (Some (Table schema_v1 unique_pair rows seq)) l
  = Ok (Some (Table schema_v1 unique_pair (rows ++ fresh_rows_v1 d now seq l)
                    (seq + Z.of_nat (length l)))).
Proof.
  revert rows seq. induction l as [|h l IH]; intros rows seq Hnd Hnew.
  - cbn. by rewrite app_nil_r, Z.add_0_r.
  - cbn [foldM]. rewrite save_one_v1. unfold recorded.
    assert (existsb (is_pair d h) rows = false) as ->.
    { apply not_true_iff_false. rewrite stored_known. apply Hnew. left. }
    apply NoDup_cons in Hnd as [Hh Hnd]. rewrite IH; [|done|].
    + cbn [fresh_rows_v1 length]. rewrite <- app_assoc. do 3 f_equal. lia.
    + intros h' Hh'. rewrite (known_rows_snoc _ _ d h) by apply fresh_v1_pair.
      rewrite decide_True by done. intros [?| ->%elem_of_singleton]%elem_of_union.
      * by apply (Hnew h'); [right|].
      * done.
Qed.

Lemma order_length (it : set_iteration) (X : gset string) : length (order it X) = size X.
Proof. by rewrite (order_Permutation it X). Qed.

Lemma order_empty (it : set_iteration) : order it ∅ = [].
Proof. apply length_zero_iff_nil. by rewrite order_length, size_empty. Qed.

Lemma store_monitor_domain_with {F} (S : steps F) d w :
  store (monitor_domain_with S d w).1 = store (monitor_domain_try S d w).1.
Proof.
  rewrite monitor_domain_with_handler.
  destruct (monitor_domain_try S d w).2 as [|e]; [done|]. by destruct (is_Exception e).
Qed.


Lemma save_new_subdomains_fresh_v2 E d new crt rows seq tr :
  new ≠ ∅ → new ## known_rows rows d →
  Subdomain2.save_new_subdomains E d new crt
    (World (Some (Table schema_v2 unique_pair rows seq)) tr)
  = (World (Some (Table schema_v2 unique_pair
                    (rows ++ fresh_rows_v2 d (current_timestamp E) crt seq
                               (order (iteration E) new))
                    (seq + Z.of_nat (size new))))
           (tr ++ [SqlCommit; Log (Saved (size new) d)]), Ok tt).
Proof.
  intros Hne Hnew. unfold Subdomain2.save_new_subdomains.
  rewrite bool_decide_false by done.
  unfold bind at 1. cbn [get_store store]. unfold bind at 1, lift at 1.
  rewrite save_all_fresh_v2.
  - unfold bind at 1, set_store at 1. unfold bind at 1. rewrite emit_run.
    cbn [store trace]. rewrite emit_run. cbn [store trace].
    by rewrite order_length, <- app_assoc.
  - apply order_NoDup.
  - intros h Hh%order_elem. set_solver.
Qed.

Lemma save_new_subdomains_fresh_v1 E d new rows seq tr :
  new ≠ ∅ → new ## known_rows rows d →
  SubdomainMonitor.save_new_subdomains E d new
    (World (Some (Table schema_v1 unique_pair rows seq)) tr)
  = (World (Some (Table schema_v1 unique_pair
                    (rows ++ fresh_rows_v1 d (current_timestamp E) seq
                               (order (iteration E) new))
                    (seq + Z.of_nat (size new))))
           (tr ++ [SqlCommit; Log (Saved (size new) d)]), Ok tt).
Proof.
  intros Hne Hnew. unfold SubdomainMonitor.save_new_subdomains.
  rewrite bool_decide_false by done.
  unfold bind at 1. cbn [get_store store]. unfold bind at 1, lift at 1.
  rewrite save_all_fresh_v1.
  - unfold bind at 1, set_store at 1. unfold bind at 1. rewrite emit_run.
    cbn [store trace]. rewrite emit_run. cbn [store trace].
    by rewrite order_length, <- app_assoc.
  - apply order_NoDup.
  - intros h Hh%order_elem. set_solver.
Qed.

(** What [monitor_domain_try] leaves in the database, from what its
    steps do there. *)
Lemma store_monitor_domain_try {F} (S : steps F) d w (f : F) db :
  let new := step_names S f ∖ known_in (store w) d in
  (step_fetch S d (World (store w) (trace w ++ [Log (Checking d)]))).2 = Ok f →
  (∀ w', store (step_fetch S d w').1 = store w') →
  (∀ w', store w' = store w → step_known S d w' = (w', Ok (known_in (store w') d))) →
  (∀ w', new ≠ ∅ → store (step_telegram S d new f w').1 = store w') →
  (∀ w', new ≠ ∅ → store (step_discord S d new f w').1 = store w') →
  (∀ w', store w' = store w → new ≠ ∅ →
         ∃ tr', step_save S d new f w' = (World db tr', Ok tt)) →
  (new = ∅ → db = store w) →
  store (monitor_domain_try S d w).1 = db.
Proof.
  intros new Hf Hfs Hk Ht Hd Hs He. unfold monitor_domain_try.
  unfold bind at 1. rewrite emit_run. unfold bind at 1.
  pose proof (Hfs (World (store w) (trace w ++ [Log (Checking d)]))) as Hfs'.
  destruct (step_fetch S d _) as [w1 r1]. cbn [fst snd store] in Hf, Hfs'. subst r1.
  unfold bind at 1. rewrite (Hk w1 Hfs'), Hfs'. fold new.
  destruct (decide (new = ∅)) as [Hnew|Hnew].
  - rewrite bool_decide_false by (by intros []). rewrite emit_run. cbn [fst store].
    by rewrite Hfs', He.
  - rewrite bool_decide_true by done.
    unfold bind at 1. rewrite emit_run. unfold bind at 1.
    destruct (Hs (World (store w1) (trace w1 ++ [Log (FoundNew (size new) d new)]))
                 Hfs' Hnew) as [tr' ->].
    unfold notify, bind at 1.
    pose proof (Ht (World db tr') Hnew) as Ht'.
    destruct (step_telegram S d _ f _) as [w3 [[]|e]]; cbn [fst store] in Ht'; [|done].
    by rewrite Hd.
Qed.


Lemma store_telegram_v2 self E d new crt w :
  new ≠ ∅ → new ⊆ dom crt →
  store (Subdomain2.send_telegram_alert self E d new crt w).1 = store w.
Proof.
  intros H1 H2. destruct (telegram_alerts_v2 self E d new crt w H1 H2) as (? & ? & -> & _).
  done.
Qed.

Lemma store_discord_v2 self E d new crt w :
  new ≠ ∅ → new ⊆ dom crt →
  store (Subdomain2.send_discord_alert self E d new crt w).1 = store w.
Proof.
  intros H1 H2. destruct (discord_alerts_v2 self E d new crt w H1 H2) as (? & ? & -> & _).
  done.
Qed.

Lemma store_telegram_v1 self E d new w :
  new ≠ ∅ → store (SubdomainMonitor.send_telegram_alert self E d new w).1 = store w.
Proof.
  intros H1. by destruct (telegram_alerts_v1 self E d new w H1) as (? & ? & -> & _).
Qed.

Lemma store_discord_v1 self E d new w :
  new ≠ ∅ → store (SubdomainMonitor.send_discord_alert self E d new w).1 = store w.
Proof.
  intros H1. by destruct (discord_alerts_v1 self E d new w H1) as (? & ? & -> & _).
Qed.

Lemma store_cycle_v2 self E d rows seq tr :
  let new := current_v2 E d ∖ known_rows rows d in
  store (Subdomain2.monitor_domain self E d
           (World (Some (Table schema_v2 unique_pair rows seq)) tr)).1
  = Some (Table schema_v2 unique_pair
            (rows ++ fresh_rows_v2 d (current_timestamp E) (dates_v2 E d) seq
                       (order (iteration E) new))
            (seq + Z.of_nat (size new))).
Proof.
  intros new. unfold Subdomain2.monitor_domain. rewrite store_monitor_domain_with.
  subst new. unfold current_v2, dates_v2.
  destruct (fetch_outcome ∅ (Subdomain2.request (crtsh E) d)) as [crt|e] eqn:Hfo.
  - apply (store_monitor_domain_try _ _ _ crt); cbn [step_fetch step_known step_save
      step_telegram step_discord step_names Subdomain2.methods store trace].
    + by rewrite get_subdomains_from_crtsh_v2.
    + intros w'. by rewrite get_subdomains_from_crtsh_v2.
    + intros w' Hw'. apply (get_known_subdomains_created schema_v2); [by right|].
      rewrite Hw'. by eexists _, _.
    + intros w' Hne. apply store_telegram_v2; [done|set_solver].
    + intros w' Hne. apply store_discord_v2; [done|set_solver].
    + intros [db tr'] Hw' Hne. cbn [store] in Hw'. subst db. rewrite known_in_table in *.
      rewrite save_new_subdomains_fresh_v2 by (done || set_solver). by eexists.
    + rewrite known_in_table. intros ->.
      by rewrite order_empty, size_empty, app_nil_r, Z.add_0_r.
  - erewrite (fetch_raises (Subdomain2.methods self E) d).
    2:{ cbn [step_fetch Subdomain2.methods]. rewrite get_subdomains_from_crtsh_v2.
        unfold checking. cbn [store trace]. rewrite Hfo. reflexivity. }
    cbn [fst store]. rewrite difference_disjoint_L by set_solver.
    by rewrite order_empty, size_empty, app_nil_r, Z.add_0_r.
Qed.

Lemma store_cycle_v1 self E d rows seq tr :
  let new := current_v1 E d ∖ known_rows rows d in
  store (SubdomainMonitor.monitor_domain self E d
           (World (Some (Table schema_v1 unique_pair rows seq)) tr)).1
  = Some (Table schema_v1 unique_pair
            (rows ++ fresh_rows_v1 d (current_timestamp E) seq (order (iteration E) new))
            (seq + Z.of_nat (size new))).
Proof.
  intros new. unfold SubdomainMonitor.monitor_domain. rewrite store_monitor_domain_with.
  subst new. unfold current_v1.
  destruct (fetch_outcome ∅ (SubdomainMonitor.request (crtsh E) d)) as [cur|e] eqn:Hfo.
  - apply (store_monitor_domain_try _ _ _ cur); cbn [step_fetch step_known step_save
      step_telegram step_discord step_names SubdomainMonitor.methods store trace].
    + by rewrite get_subdomains_from_crtsh_v1.
    + intros w'. by rewrite get_subdomains_from_crtsh_v1.
    + intros w' Hw'. apply (get_known_subdomains_created schema_v1); [by left|].
      rewrite Hw'. by eexists _, _.
    + intros w' Hne. by apply store_telegram_v1.
    + intros w' Hne. by apply store_discord_v1.
    + intros [db tr'] Hw' Hne. cbn [store] in Hw'. subst db. rewrite known_in_table in *.
      rewrite save_new_subdomains_fresh_v1 by (done || set_solver). by eexists.
    + rewrite known_in_table. intros ->.
      by rewrite order_empty, size_empty, app_nil_r, Z.add_0_r.
  - erewrite (fetch_raises (SubdomainMonitor.methods self E) d).
    2:{ cbn [step_fetch SubdomainMonitor.methods]. rewrite get_subdomains_from_crtsh_v1.
        unfold checking. cbn [store trace]. rewrite Hfo. reflexivity. }
    cbn [fst store]. rewrite difference_disjoint_L by set_solver.
    by rewrite order_empty, size_empty, app_nil_r, Z.add_0_r.
Qed.

Lemma fresh_rows_v2_lookup d now crt seq l i h :
  l !! i = Some h →
  fresh_rows_v2 d now crt seq l !! i
  = Some (fresh_v2 (seq + Z.of_nat i + 1) d h now (Subdomain2.release_date crt h)).
Proof.
  revert seq i. induction l as [|h0 l IH]; intros seq i H; [done|].
  destruct i as [|i].
  - cbn in H. simplify_eq. cbn [fresh_rows_v2]. by rewrite Z.add_0_r.
  - cbn [fresh_rows_v2]. rewrite lookup_cons. rewrite lookup_cons in H.
    rewrite (IH (seq + 1)%Z i H). do 2 f_equal. lia.
Qed.

Lemma fresh_rows_v1_lookup d now seq l i h :
  l !! i = Some h →
  fresh_rows_v1 d now seq l !! i = Some (fresh_v1 (seq + Z.of_nat i + 1) d h now).
Proof.
  revert seq i. induction l as [|h0 l IH]; intros seq i H; [done|].
  destruct i as [|i].
  - cbn in H. simplify_eq. cbn [fresh_rows_v1]. by rewrite Z.add_0_r.
  - cbn [fresh_rows_v1]. rewrite lookup_cons. rewrite lookup_cons in H.
    rewrite (IH (seq + 1)%Z i H). do 2 f_equal. lia.
Qed.

(** X1. A cycle of [monitor_domain] on the created table leaves every row
    that was there as it was and adds, after them, one row for each new
    name, in the order in which the set of new names is iterated: the
    UPDATE of [save_new_subdomains] never runs there, since a new name is
    not stored for the domain and a set holds no name twice. The row of a
    new name has the next id, the domain, the name, and the time of the
    INSERT as [first_seen] and [last_seen]; in [subdomain2.py] it has
    as [release_date] the date of the fetch for the name, a text and never
    NULL. *)
Theorem cycle_only_appends (self : monitor) (E : env) (d : string) (rows : list row)
    (seq : Z) (tr : list event) :
  let new2 := current_v2 E d ∖ known_rows rows d in
  let new1 := current_v1 E d ∖ known_rows rows d in
  let added2 := fresh_rows_v2 d (current_timestamp E) (dates_v2 E d) seq
                              (order (iteration E) new2) in
  let added1 := fresh_rows_v1 d (current_timestamp E) seq (order (iteration E) new1) in
  store (Subdomain2.monitor_domain self E d
           (World (Some (Table schema_v2 unique_pair rows seq)) tr)).1
  = Some (Table schema_v2 unique_pair (rows ++ added2) (seq + Z.of_nat (size new2)))
  ∧ store (SubdomainMonitor.monitor_domain self E d
             (World (Some (Table schema_v1 unique_pair rows seq)) tr)).1
    = Some (Table schema_v1 unique_pair (rows ++ added1) (seq + Z.of_nat (size new1)))
  ∧ (∀ i h, order (iteration E) new2 !! i = Some h →
       ∃ t, dates_v2 E d !! h = Some t
            ∧ added2 !! i
              = Some (fresh_v2 (seq + Z.of_nat i + 1) d h (current_timestamp E) (VText t)))
  ∧ (∀ i h, order (iteration E) new1 !! i = Some h →
       added1 !! i = Some (fresh_v1 (seq + Z.of_nat i + 1) d h (current_timestamp E)))
  ∧ length added2 = size new2 ∧ length added1 = size new1.
Proof.
  cbv zeta. split; [apply store_cycle_v2|]. split; [apply store_cycle_v1|].
  split; [|split; [intros i h; apply fresh_rows_v1_lookup|]].
  - intros i h Hi.
    assert (h ∈ dom (dates_v2 E d)) as [t Ht]%elem_of_dom.
    { rewrite dom_dates_v2. apply list_elem_of_lookup_2, order_elem in Hi. set_solver. }
    exists t. split; [done|]. rewrite (fresh_rows_v2_lookup _ _ _ _ _ _ _ Hi).
    unfold Subdomain2.release_date. by rewrite Ht.
  - split.
    + rewrite <- order_length with (it := iteration E).
      generalize (order (iteration E) (current_v2 E d ∖ known_rows rows d)).
      generalize seq. intros s l. revert s. induction l; intros s; cbn; [done|].
      by rewrite IHl.
    + rewrite <- order_length with (it := iteration E).
      generalize (order (iteration E) (current_v1 E d ∖ known_rows rows d)).
      generalize seq. intros s l. revert s. induction l; intros s; cbn; [done|].
      by rewrite IHl.
Qed.



(** ** The names a fetch collects *)

(** A line of the answer of crt.sh that gives the name [h]. *)
Definition gives (domain : string) (data : list entry) (h : string) : Prop :=
  ∃ e line, e ∈ data ∧ PyStr.truthy (name_value e) = true
            ∧ line ∈ PyStr.split_lines (name_value e)
            ∧ candidate domain line = Some h.

Lemma candidate_strict domain line h :
  candidate domain line = Some h → (∃ label, h = label +:+ "." +:+ domain) ∧ h ≠ domain.
Proof.
  rewrite candidate_unfold. cbv zeta.
  destruct (_ && _) eqn:Hc; [|done]. intros [= <-].
  apply andb_true_iff in Hc as [_ He]. apply endswith_spec in He as [label He].
  split; [by exists label|]. rewrite He. apply strict_suffix_differs.
Qed.

Lemma scan_lines_v1 d acc lines h :
  h ∈ foldl (SubdomainMonitor.scan_line d) acc lines
  ↔ h ∈ acc ∨ ∃ line, line ∈ lines ∧ candidate d line = Some h.
Proof.
  revert acc. induction lines as [|l lines IH]; intros acc.
  - cbn. split; [by left|]. intros [?|(? & []%elem_of_nil & _)]. done.
  - cbn [foldl]. rewrite IH. unfold SubdomainMonitor.scan_line.
    split.
    + intros [H|(line & ? & ?)]; [|right; exists line; split; [by right|done]].
      destruct (candidate d l) as [s|] eqn:Hc; [|by left].
      apply elem_of_union in H as [->%elem_of_singleton|?]; [|by left].
      right. exists l. split; [left|done].
    + intros [H|(line & [->|?]%elem_of_cons & Hl)].
      * left. destruct (candidate d l); set_solver.
      * left. rewrite Hl. set_solver.
      * right. by exists line.
Qed.

Lemma scan_entries_v1 d acc data h :
  h ∈ foldl (SubdomainMonitor.scan_entry d) acc data ↔ h ∈ acc ∨ gives d data h.
Proof.
  revert acc. induction data as [|e data IH]; intros acc.
  - cbn. split; [by left|]. intros [?|(? & ? & []%elem_of_nil & _)]. done.
  - cbn [foldl]. rewrite IH. unfold SubdomainMonitor.scan_entry, gives.
    destruct (PyStr.truthy (name_value e)) eqn:Ht.
    + rewrite scan_lines_v1. split.
      * intros [[?|(line & ? & ?)]|(e' & line & ? & ?)]; [by left| |].
        -- right. exists e, line. split; [left|done].
        -- right. exists e', line. split; [by right|done].
      * intros [?|(e' & line & [->|?]%elem_of_cons & ? & ? & ?)]; [by left; left| |].
        -- left. right. by exists line.
        -- right. by exists e', line.
    + split.
      * intros [?|(e' & line & ? & ?)]; [by left|].
        right. exists e', line. split; [by right|done].
      * intros [?|(e' & line & [->|?]%elem_of_cons & Hn & ?)]; [by left|congruence|].
        right. by exists e', line.
Qed.

Lemma dom_keep_earliest t m h : dom (Subdomain2.keep_earliest t m h) = {[h]} ∪ dom m.
Proof.
  unfold Subdomain2.keep_earliest. destruct (m !! h) as [kept|] eqn:Hm.
  - assert (h ∈ dom m) by (apply elem_of_dom; by eexists).
    destruct (_ && _); [rewrite dom_insert_L|]; set_solver.
  - by rewrite dom_insert_L.
Qed.

Lemma dom_scan_lines d t m lines :
  dom (foldl (Subdomain2.scan_line d t) m lines)
  = foldl (SubdomainMonitor.scan_line d) (dom m) lines.
Proof.
  revert m. induction lines as [|l lines IH]; intros m; [done|].
  cbn [foldl]. rewrite IH. f_equal.
  unfold Subdomain2.scan_line, SubdomainMonitor.scan_line.
  destruct (candidate d l); [apply dom_keep_earliest|done].
Qed.

Lemma dom_scan_entries d m data :
  dom (foldl (Subdomain2.scan_entry d) m data)
  = foldl (SubdomainMonitor.scan_entry d) (dom m) data.
Proof.
  revert m. induction data as [|e data IH]; intros m; [done|].
  cbn [foldl]. rewrite IH. f_equal.
  unfold Subdomain2.scan_entry, SubdomainMonitor.scan_entry.
  destruct (PyStr.truthy _); [apply dom_scan_lines|done].
Qed.

(** X2. The names a fetch collects from the answer of crt.sh are those a
    line of the [name_value] of an entry gives after normalisation, the
    [name_value] not being empty; the dict of [subdomain2.py] has as keys
    exactly the names of the set of [subdomain_monitor.py]; each name is a
    label, a dot and the domain, and never the domain itself. *)
Theorem fetch_collects (domain : string) (data : list entry) (h : string) :
  (h ∈ SubdomainMonitor.scan domain data ↔ gives domain data h)
  ∧ dom (Subdomain2.scan domain data) = SubdomainMonitor.scan domain data
  ∧ (h ∈ dom (Subdomain2.scan domain data) →
       (∃ label, h = label +:+ "." +:+ domain) ∧ h ≠ domain).
Proof.
  assert (h ∈ SubdomainMonitor.scan domain data ↔ gives domain data h) as Hg.
  { unfold SubdomainMonitor.scan. rewrite scan_entries_v1. set_solver. }
  assert (dom (Subdomain2.scan domain data) = SubdomainMonitor.scan domain data) as Hd.
  { unfold Subdomain2.scan. by rewrite dom_scan_entries, dom_empty_L. }
  split; [done|]. split; [done|].
  rewrite Hd, Hg. intros (e & line & _ & _ & _ & Hc).
  by apply (candidate_strict domain line).
Qed.



(** ** The alert of [subdomain_monitor.py] *)

Lemma str_le_antisym a b : PyStr.lt b a = false → PyStr.lt a b = false → a = b.
Proof.
  unfold PyStr.lt, String.ltb. rewrite (String.compare_antisym a b).
  destruct (b ?= a)%string eqn:Hc; simpl; try congruence.
  intros _ _. symmetry. by apply String.compare_eq_iff.
Qed.

#[local] Instance str_le_transitive : Transitive (in_order PyStr.lt (λ s : string, s)).
Proof. intros a b c H1 H2. unfold in_order in *. by apply (str_le_trans a b c). Qed.

#[local] Instance str_le_antisymmetric : AntiSymm (=) (in_order PyStr.lt (λ s : string, s)).
Proof. intros a b H1 H2. unfold in_order in *. by apply str_le_antisym. Qed.

Lemma sorted_names_ordered E new :
  StronglySorted (in_order PyStr.lt (λ s : string, s)) (SubdomainMonitor.sorted_names E new).
Proof. apply py_sorted_ordered; [apply str_le_trans|apply str_lt_le]. Qed.

Lemma sorted_names_Permutation E new : SubdomainMonitor.sorted_names E new ≡ₚ elements new.
Proof.
  unfold SubdomainMonitor.sorted_names. rewrite py_sorted_Permutation.
  apply order_Permutation.
Qed.

Lemma StronglySorted_lookup {A} (R : A → A → Prop) l i j a b :
  StronglySorted R l → (i < j)%nat → l !! i = Some a → l !! j = Some b → R a b.
Proof.
  intros Hs. revert i j. induction Hs as [|x l Hs IH Hx]; intros i j Hij Hi Hj; [done|].
  destruct j as [|j]; [lia|]. rewrite lookup_cons in Hj.
  destruct i as [|i].
  - cbn in Hi. simplify_eq. rewrite Forall_forall in Hx.
    apply Hx. by eapply list_elem_of_lookup_2.
  - rewrite lookup_cons in Hi. apply (IH i j); [lia|done|done].
Qed.

(** X3. The alert of [subdomain_monitor.py] lists the new names in
    ascending order of [str], each once, whatever the order in which the
    set is iterated: a name stands before every greater one. The lines are
    numbered from 1, and the count the message gives is the number of
    lines. *)
Theorem alert_names_ascending (E E' : env) (domain : string) (new : gset string) :
  let l := SubdomainMonitor.sorted_names E new in
  let m := alert_message E domain new l in
  l = SubdomainMonitor.sorted_names E' new
  ∧ l ≡ₚ elements new
  ∧ (∀ i j a b, (i < j)%nat → l !! i = Some a → l !! j = Some b → PyStr.lt a b = true)
  ∧ (∀ i a, l !! i = Some a → msg_items m !! i = Some (S i, a))
  ∧ msg_count m = length (msg_items m)
  ∧ length (msg_items m) = size new.
Proof.
  cbv zeta. split.
  { apply (StronglySorted_unique (in_order PyStr.lt (λ s : string, s)));
      [apply sorted_names_ordered..|].
    by rewrite !sorted_names_Permutation. }
  split; [apply sorted_names_Permutation|]. split.
  { intros i j a b Hij Hi Hj.
    pose proof (StronglySorted_lookup _ _ _ _ _ _ (sorted_names_ordered E new) Hij Hi Hj)
      as Hle.
    unfold in_order in Hle. destruct (PyStr.lt a b) eqn:Hab; [done|]. exfalso.
    assert (a = b) as -> by by apply str_le_antisym.
    assert (NoDup (SubdomainMonitor.sorted_names E new)) as Hnd.
    { rewrite sorted_names_Permutation. apply NoDup_elements. }
    pose proof (NoDup_lookup _ _ _ _ Hnd Hi Hj). lia. }
  split.
  { intros i a Hi. cbn [alert_message msg_items]. unfold enumerate_from_1.
    by rewrite list_lookup_imap, Hi. }
  cbn [alert_message msg_items msg_count]. unfold enumerate_from_1.
  rewrite length_imap, sorted_names_Permutation. done.
Qed.



(** ** The date [subdomain2.py] keeps for a name *)
















(** ** [subdomain2.py] on a table without the column [domain] *)

Lemma get_known_subdomains_no_domain d t tr :
  has_column t "domain" = false →
  get_known_subdomains d (World (Some t) tr) = (World (Some t) tr, Raise OperationalError).
Proof.
  intros Hd. unfold get_known_subdomains.
  unfold bind at 1. cbn [get_store store]. unfold bind at 1, lift at 1.
  unfold select. cbn [cond_columns app forallb]. by rewrite Hd, andb_false_r.
Qed.

Lemma has_column_with_release_date t c :
  c ≠ "release_date" → has_column (with_release_date t) c = has_column t c.
Proof.
  intros Hc. unfold has_column, with_release_date, column_names. cbn [cols].
  apply bool_decide_ext. rewrite fmap_app, elem_of_app. cbn.
  rewrite list_elem_of_singleton. naive_solver.
Qed.

(** X5. [subdomain2.py] does not migrate a table of the single-domain
    version. On a table without the column [domain], [init_database]
    returns, adding the column [release_date] when it is missing, and the
    table still has no column [domain]. Each cycle of [monitor_domain]
    on it then fails in [get_known_subdomains] with OperationalError,
    which the handler of [monitor_domain] logs: the cycle stores nothing,
    commits nothing and sends no alert, whatever crt.sh returned. *)
Theorem single_domain_table_not_migrated (self : monitor) (E : env) (d : string)
    (t : table) (tr : list event) (crt : gmap string string) :
  has_column t "domain" = false →
  fetch_outcome ∅ (Subdomain2.request (crtsh E) d) = Ok crt →
  let t' := if has_column t "release_date" then t else with_release_date t in
  Subdomain2.init_database (World (Some t) tr)
  = (World (Some t') (tr ++ [SqlCommit; Log DatabaseInitialized]), Ok tt)
  ∧ has_column t' "domain" = false
  ∧ Subdomain2.monitor_domain self E d (World (Some t') tr)
    = (World (Some t')
         (tr ++ Log (Checking d) :: fetch_log size d (Subdomain2.request (crtsh E) d)
             ++ [Log (ErrorMonitoring d OperationalError)]),
       Ok tt).
Proof.
  intros Hd Hf t'.
  assert (has_column t' "domain" = false) as Hd'.
  { subst t'. destruct (has_column t "release_date"); [done|].
    by rewrite has_column_with_release_date. }
  split; [|split; [done|]].
  - subst t'. destruct (has_column t "release_date") eqn:Hr.
    + by apply init_database_keeps_release_date.
    + by apply init_database_adds_release_date.
  - unfold Subdomain2.monitor_domain, monitor_domain_with.
    erewrite try_except_raise.
    2:{ eapply (known_raises (Subdomain2.methods self E) d).
        - cbn [step_fetch Subdomain2.methods]. rewrite get_subdomains_from_crtsh_v2.
          rewrite Hf. reflexivity.
        - cbn [step_known Subdomain2.methods store trace checking].
          by apply get_known_subdomains_no_domain. }
    cbn [is_Exception]. rewrite emit_run. cbn [store trace checking].
    by rewrite <- !app_assoc.
Qed.

Lemma single_domain_table_not_migrated_witness :
  has_column legacy_table "domain" = false
  ∧ fetch_outcome ∅ (Subdomain2.request (crtsh first_env) "old.com")
    = Ok (Subdomain2.scan "old.com"
            [Entry "api.example.com" "2024-01-01T00:00:00" "";
             Entry "www.example.com" "2024-01-02T00:00:00" ""])
  ∧ has_column (with_release_date legacy_table) "domain" = false.
Proof.
  split; [reflexivity|]. split; [reflexivity|].
  exact (proj1 (proj2 (single_domain_table_not_migrated example_self first_env "old.com"
                         legacy_table [] _ eq_refl eq_refl))).
Defined.



(** ** A sink that is not configured *)

Section Quiet.
Context {F : Type} (S : steps F) (good : database → Prop) (enabled : sink → bool)
        (domain : string).
Hypothesis C : contract S good enabled domain.

Lemma alert_events_enabled s new evs s' m :
  alert_events enabled domain s new evs → HttpPost s' m ∈ evs → enabled s' = true.
Proof.
  unfold alert_events. destruct (enabled s) eqn:Hs.
  - intros (m0 & tail & -> & _ & Ht) [[= -> ->]|Hin]%elem_of_cons; [done|].
    by apply log_not_post in Hin.
  - intros -> Hin. by apply elem_of_nil in Hin.
Qed.

Lemma body_events_enabled new added r s m :
  body_events enabled domain new added r → HttpPost s m ∈ added → enabled s = true.
Proof.
  unfold body_events. destruct (decide (new = ∅)).
  - intros Hl Hin. by apply log_not_post in Hin.
  - intros (pre & ta & da & -> & Hpre & Hta & Hda) Hin.
    apply elem_of_app in Hin as [Hin|Hin]; [by apply log_not_post in Hin|].
    apply elem_of_app in Hin as [Hin|Hin].
    { apply elem_of_cons in Hin as [|Hin]; [done|].
      apply list_elem_of_singleton in Hin. done. }
    apply elem_of_app in Hin as [Hin|Hin]; [by eapply alert_events_enabled|].
    destruct Hda as [[_ ->]|Hda]; [by apply elem_of_nil in Hin|].
    by eapply alert_events_enabled.
Qed.

Lemma monitor_domain_with_posts w s m :
  good (store w) →
  HttpPost s m ∈ trace (monitor_domain_with S domain w).1 →
  HttpPost s m ∈ trace w ∨ enabled s = true.
Proof.
  intros Hg. destruct (monitor_domain_try_run S good enabled domain C w Hg)
    as (db' & added & r & Heq & _ & _ & _ & Hb).
  rewrite monitor_domain_with_handler, Heq. cbn [fst snd store trace].
  assert (HttpPost s m ∈ trace w ++ added → HttpPost s m ∈ trace w ∨ enabled s = true)
    as Hbody.
  { intros [?|Hin]%elem_of_app; [by left|]. right. by eapply body_events_enabled. }
  destruct r as [|e]; [done|]. destruct (is_Exception e); [|done].
  cbn [fst trace]. intros [?|Hin]%elem_of_app; [auto|].
  by apply list_elem_of_singleton in Hin.
Qed.

End Quiet.

Lemma run_posts_v2 self cycles w s m :
  created schema_v2 (store w) → configured self s = false →
  HttpPost s m ∈ trace (run (Subdomain2.monitor_domain self) cycles w) →
  HttpPost s m ∈ trace w.
Proof.
  intros Hg Hs. revert w Hg. induction cycles as [|[E d] cycles IH]; intros w Hg; [done|].
  cbn [run foldl fst snd]. intros Hin. apply IH in Hin.
  - apply (monitor_domain_with_posts _ _ _ _ (contract_v2 self E d)) in Hin; [|done].
    destruct Hin as [?|Hen]; [done|congruence].
  - by apply cycle_v2.
Qed.

Lemma run_posts_v1 self cycles w s m :
  created schema_v1 (store w) → configured self s = false →
  HttpPost s m ∈ trace (run (SubdomainMonitor.monitor_domain self) cycles w) →
  HttpPost s m ∈ trace w.
Proof.
  intros Hg Hs. revert w Hg. induction cycles as [|[E d] cycles IH]; intros w Hg; [done|].
  cbn [run foldl fst snd]. intros Hin. apply IH in Hin.
  - apply (monitor_domain_with_posts _ _ _ _ (contract_v1 self E d)) in Hin; [|done].
    destruct Hin as [?|Hen]; [done|congruence].
  - by apply cycle_v1.
Qed.

(** X6. A sink that is not configured gets no post: with no webhook URL
    nothing is sent to Discord, and with the bot token or the chat id empty
    nothing is sent to Telegram, in any sequence of cycles of
    [monitor_domain] on the created table, whatever crt.sh returns. *)
Theorem unconfigured_sink_gets_no_post (self : monitor) (cycles : list (env * string))
    (rows : list row) (seq : Z) (tr : list event) (s : sink) (m : message) :
  configured self s = false →
  (HttpPost s m ∈ trace (run (Subdomain2.monitor_domain self) cycles
                             (World (Some (Table schema_v2 unique_pair rows seq)) tr)) →
   HttpPost s m ∈ tr)
  ∧ (HttpPost s m ∈ trace (run (SubdomainMonitor.monitor_domain self) cycles
                               (World (Some (Table schema_v1 unique_pair rows seq)) tr)) →
     HttpPost s m ∈ tr)
  ∧ (configured self Telegram = false ↔
     telegram_bot_token self = "" ∨ telegram_chat_id self = "")
  ∧ (configured self Discord = false ↔ discord_webhook_url self = "").
Proof.
  intros Hs. split; [|split; [|split]].
  - apply run_posts_v2; [by eexists _, _|done].
  - apply run_posts_v1; [by eexists _, _|done].
  - unfold configured, PyStr.truthy. rewrite andb_false_iff, !negb_false_iff.
    by rewrite !String.eqb_eq.
  - unfold configured, PyStr.truthy. by rewrite negb_false_iff, String.eqb_eq.
Qed.

(** A monitor with a bot token and no chat id. *)
Definition no_chat_self : monitor := Monitor ["example.com"] "token" "" "https://hook".

Lemma unconfigured_sink_gets_no_post_witness :
  configured no_chat_self Telegram = false
  ∧ (HttpPost Telegram (Message "example.com" 2 [] "") ∈
       trace (run (Subdomain2.monitor_domain no_chat_self)
                  [(first_env, "example.com"); (second_env, "example.com")]
                  (World (Some (Table schema_v2 unique_pair [] 0)) [])) →
     HttpPost Telegram (Message "example.com" 2 [] "") ∈ @nil event).
Proof.
  split; [reflexivity|].
  exact (proj1 (unconfigured_sink_gets_no_post no_chat_self
                  [(first_env, "example.com"); (second_env, "example.com")]
                  [] 0 [] Telegram (Message "example.com" 2 [] "") eq_refl)).
Defined.



(** * The configuration

    ** [load_config]

    The same function in [subdomain_monitor.py] and [subdomain2.py]:
    the file config.env, when there is one, is read line by line. *)

(** [s.split(c, 1)] for a separator of one character. *)
Fixpoint split_once (c : ascii) (s : string) : list string :=
  match s with
  | EmptyString => [EmptyString]
  | String a r =>
      if Ascii.eqb a c then [EmptyString; r]
      else match split_once c r with
           | h :: t => String a h :: t
           | [] => [String a EmptyString]
           end
  end.

(** [s.startswith(t)] *)
Definition startswith (s t : string) : bool := String.prefix t s.

(** What one line of the file adds: the key and the value, or nothing.
    [key, value = line.split('=', 1)] has two parts to unpack, since [=] is
    in the line. *)
Definition setting (line : string) : option (string * string) :=
  let line := PyStr.strip line in
  if PyStr.truthy line && negb (startswith line "#") then
    if PyStr.contains line "=" then
      match split_once "=" line with
      | [key; value] => Some (key, value)
      | _ => None
      end
    else None
  else None.

Definition load_config_line (config : gmap string string) (line : string)
  : gmap string string :=
  match setting line with
  | Some (key, value) => <[key := value]> config
  | None => config
  end.

(** [file] is [None] when config.env does not exist, and the lines the
    open file yields otherwise. *)
Definition load_config (file : option (list string)) : gmap string string :=
  match file with
  | None => ∅
  | Some lines => foldl load_config_line ∅ lines
  end.

Lemma contains_char_cons c a r :
  PyStr.contains (String a r) (String c "")
  = Ascii.eqb a c || PyStr.contains r (String c "").
Proof.
  cbn [PyStr.contains String.prefix].
  destruct (ascii_dec c a) as [->|Hne].
  - rewrite Ascii.eqb_refl. by destruct r.
  - destruct (Ascii.eqb a c) eqn:H; [|done]. apply Ascii.eqb_eq in H. congruence.
Qed.

Lemma split_once_spec c s :
  if PyStr.contains s (String c "")
  then ∃ k v, split_once c s = [k; v] ∧ s = k +:+ String c v
              ∧ PyStr.contains k (String c "") = false
  else split_once c s = [s].
Proof.
  induction s as [|a r IH].
  - cbn. done.
  - rewrite contains_char_cons. cbn [split_once].
    destruct (Ascii.eqb a c) eqn:Ha.
    + apply Ascii.eqb_eq in Ha as ->. cbn [orb]. by exists "", r.
    + cbn [orb]. destruct (PyStr.contains r (String c "")).
      * destruct IH as (k & v & -> & -> & Hk). exists (String a k), v.
        split; [done|]. split; [done|]. by rewrite contains_char_cons, Ha, Hk.
      * by rewrite IH.
Qed.

Lemma split_once_app c k v :
  PyStr.contains k (String c "") = false → split_once c (k +:+ String c v) = [k; v].
Proof.
  induction k as [|a k IH]; intros Hk.
  - change ("" +:+ String c v) with (String c v). cbn [split_once].
    by rewrite Ascii.eqb_refl.
  - rewrite contains_char_cons in Hk. apply orb_false_iff in Hk as [Ha Hk].
    change (String a k +:+ String c v) with (String a (k +:+ String c v)).
    cbn [split_once]. by rewrite Ha, IH.
Qed.

Lemma contains_char_app c k v : PyStr.contains (k +:+ String c v) (String c "") = true.
Proof.
  induction k as [|a k IH].
  - change ("" +:+ String c v) with (String c v).
    by rewrite contains_char_cons, Ascii.eqb_refl.
  - change (String a k +:+ String c v) with (String a (k +:+ String c v)).
    by rewrite contains_char_cons, IH, orb_true_r.
Qed.

Lemma prefix_empty s : String.prefix "" s = true.
Proof. by destruct s. Qed.

Lemma setting_spec line k v :
  setting line = Some (k, v)
  ↔ PyStr.strip line = k +:+ "=" +:+ v
    ∧ PyStr.contains k "=" = false
    ∧ startswith k "#" = false.
Proof.
  unfold setting. cbv zeta. set (s := PyStr.strip line). split.
  - destruct (PyStr.truthy s && negb (startswith s "#")) eqn:Hc; [|done].
    apply andb_true_iff in Hc as [_ Hh%negb_true_iff].
    pose proof (split_once_spec "=" s) as Hs.
    destruct (PyStr.contains s "="); [|done].
    destruct Hs as (k' & v' & -> & Hs & Hk). intros [= -> ->].
    split; [done|]. split; [done|].
    rewrite Hs in Hh. unfold startswith in *. destruct k as [|a k]; [done|].
    change (String a k +:+ String "=" v) with (String a (k +:+ String "=" v)) in Hh.
    cbn [String.prefix] in *. rewrite !prefix_empty in *.
    by destruct (ascii_dec "#" a).
  - intros (Hs & Hk & Hh). change ("=" +:+ v) with (String "=" v) in Hs. rewrite Hs.
    assert (PyStr.truthy (k +:+ String "=" v) = true) as -> by by destruct k.
    assert (startswith (k +:+ String "=" v) "#" = false) as ->.
    { unfold startswith in *. destruct k as [|a k]; [done|].
      change (String a k +:+ String "=" v) with (String a (k +:+ String "=" v)).
      cbn [String.prefix] in *. rewrite !prefix_empty in *.
      by destruct (ascii_dec "#" a). }
    cbn [negb andb].
    by rewrite (contains_char_app "=" k v), (split_once_app "=" k v Hk).
Qed.

Lemma load_config_snoc lines line :
  load_config (Some (lines ++ [line]))
  = load_config_line (load_config (Some lines)) line.
Proof. unfold load_config. by rewrite foldl_snoc. Qed.

Lemma load_config_lookup lines k v :
  load_config (Some lines) !! k = Some v
  ↔ ∃ before line after,
      lines = before ++ line :: after
      ∧ setting line = Some (k, v)
      ∧ ∀ line' v', line' ∈ after → setting line' ≠ Some (k, v').
Proof.
  induction lines as [|line lines IH] using rev_ind.
  - cbn. rewrite lookup_empty. split; [done|].
    intros (before & line & after & H & _). by destruct before.
  - rewrite load_config_snoc. unfold load_config_line.
    split.
    + destruct (setting line) as [[k' v']|] eqn:Hl.
      * destruct (decide (k' = k)) as [->|Hne].
        -- rewrite lookup_insert_eq. intros [= ->]. exists lines, line, [].
           split; [done|]. split; [done|]. by intros ?? ?%elem_of_nil.
        -- rewrite lookup_insert_ne by done. intros (b & l & a & -> & Hs & Ha)%IH.
           exists b, l, (a ++ [line]). split; [by rewrite <- app_assoc|]. split; [done|].
           intros l' v0 [?| ->%list_elem_of_singleton]%elem_of_app; [by apply Ha|].
           congruence.
      * intros (b & l & a & -> & Hs & Ha)%IH.
        exists b, l, (a ++ [line]). split; [by rewrite <- app_assoc|]. split; [done|].
        intros l' v0 [?| ->%list_elem_of_singleton]%elem_of_app; [by apply Ha|].
        congruence.
    + intros (b & l & a & Heq & Hs & Ha).
      destruct a as [|x a _] using rev_ind.
      * apply app_inj_tail in Heq as [-> ->]. rewrite Hs. by rewrite lookup_insert_eq.
      * rewrite app_comm_cons, app_assoc in Heq. apply app_inj_tail in Heq as [-> ->].
        assert (load_config (Some (b ++ l :: a)) !! k = Some v) as Hprev.
        { apply IH. exists b, l, a. split; [done|]. split; [done|].
          intros l' v0 Hin. apply Ha. apply elem_of_app. by left. }
        destruct (setting x) as [[k' v']|] eqn:Hx; [|done].
        rewrite lookup_insert_ne; [done|]. intros ->.
        apply (Ha x v'); [|done]. apply elem_of_app. right. by left.
Qed.

(** X7. [load_config] returns the empty dict when there is no file.
    Otherwise the dict has the value [v] under the key [k] exactly when
    some line of the file sets [k] to [v] and no later line sets [k]. A
    line sets [k] to [v] exactly when, trimmed, it is [k], the character
    [=], and [v], where [k] has no [=] and does not begin with [#]: the
    value is all that follows the first [=], spaces next to the [=] stay
    in the key and in the value, and blank lines, comments and lines
    without [=] set nothing. *)
Theorem load_config_reads (lines : list string) (k v : string) :
  load_config None = ∅
  ∧ (load_config (Some lines) !! k = Some v
     ↔ ∃ before line after,
         lines = before ++ line :: after
         ∧ setting line = Some (k, v)
         ∧ ∀ line' v', line' ∈ after → setting line' ≠ Some (k, v'))
  ∧ (∀ line, setting line = Some (k, v)
             ↔ PyStr.strip line = k +:+ "=" +:+ v
               ∧ PyStr.contains k "=" = false
               ∧ startswith k "#" = false).
Proof.
  split; [done|]. split; [apply load_config_lookup|]. intros line. apply setting_spec.
Qed.



(** ** The list of domains

    [[domain.strip() for domain in DOMAINS_STR.split(',') if domain.strip()]],
    in [main] of the two scripts and of [test_setup.py]. *)

(** [s.split(c)] for a separator of one character. *)
Fixpoint split_on (c : ascii) (s : string) : list string :=
  match s with
  | EmptyString => [EmptyString]
  | String a r =>
      if Ascii.eqb a c then EmptyString :: split_on c r
      else match split_on c r with
           | h :: t => String a h :: t
           | [] => [String a EmptyString]
           end
  end.

Definition parse_domains (domains_str : string) : list string :=
  List.filter PyStr.truthy (PyStr.strip <$> split_on "," domains_str).

Lemma split_lines_split_on s : PyStr.split_lines s = split_on "010" s.
Proof. induction s as [|a r IH]; [done|]. cbn. by rewrite IH. Qed.

Lemma lstrip_head s :
  PyStr.lstrip s = "" ∨ ∃ c r, PyStr.lstrip s = String c r ∧ PyStr.isspace c = false.
Proof.
  induction s as [|c r IH]; [by left|]. cbn [PyStr.lstrip].
  destruct (PyStr.isspace c) eqn:Hc; [done|]. right. by exists c, r.
Qed.

Lemma rstrip_head c r :
  PyStr.isspace c = false → ∃ r', PyStr.rstrip (String c r) = String c r'.
Proof.
  intros Hc. cbn [PyStr.rstrip]. destruct (PyStr.rstrip r); [|by eexists].
  rewrite Hc. by eexists.
Qed.

Lemma rstrip_rstrip s : PyStr.rstrip (PyStr.rstrip s) = PyStr.rstrip s.
Proof.
  induction s as [|c r IH]; [done|]. cbn [PyStr.rstrip].
  destruct (PyStr.rstrip r) as [|d q] eqn:Hq.
  - destruct (PyStr.isspace c) eqn:Hc; [done|]. cbn [PyStr.rstrip]. by rewrite Hc.
  - change (PyStr.rstrip (String c (String d q)))
      with (match PyStr.rstrip (String d q) with
            | EmptyString => if PyStr.isspace c then EmptyString else String c EmptyString
            | r' => String c r'
            end).
    by rewrite IH.
Qed.

Lemma strip_strip s : PyStr.strip (PyStr.strip s) = PyStr.strip s.
Proof.
  unfold PyStr.strip. destruct (lstrip_head s) as [->|(c & r & -> & Hc)]; [done|].
  destruct (rstrip_head c r Hc) as [r' Hr]. rewrite Hr at 1.
  cbn [PyStr.lstrip]. rewrite Hc, <- Hr. apply rstrip_rstrip.
Qed.

Lemma split_on_clean c s :
  Forall (λ p, PyStr.contains p (String c "") = false) (split_on c s).
Proof.
  induction s as [|a r IH]; [by repeat constructor|]. cbn [split_on].
  destruct (Ascii.eqb a c) eqn:Ha; [by constructor|].
  destruct (split_on c r) as [|h t].
  - constructor; [|done]. by rewrite contains_char_cons, Ha.
  - apply Forall_cons in IH as [Hh Ht]. constructor; [|done].
    by rewrite contains_char_cons, Ha, Hh.
Qed.

Lemma lstrip_clean c s :
  PyStr.contains s (String c "") = false → PyStr.contains (PyStr.lstrip s) (String c "") = false.
Proof.
  induction s as [|a r IH]; [done|]. intros H. cbn [PyStr.lstrip].
  destruct (PyStr.isspace a); [|done]. apply IH.
  rewrite contains_char_cons in H. by apply orb_false_iff in H as [_ H].
Qed.

Lemma rstrip_clean c s :
  PyStr.contains s (String c "") = false → PyStr.contains (PyStr.rstrip s) (String c "") = false.
Proof.
  induction s as [|a r IH]; [done|]. intros H.
  rewrite contains_char_cons in H. apply orb_false_iff in H as [Ha H].
  specialize (IH H). cbn [PyStr.rstrip]. destruct (PyStr.rstrip r) as [|d q].
  - destruct (PyStr.isspace a); [done|]. by rewrite contains_char_cons, Ha.
  - by rewrite contains_char_cons, Ha, IH.
Qed.

Lemma truthy_spec s : PyStr.truthy s = true ↔ s ≠ "".
Proof.
  unfold PyStr.truthy. rewrite negb_true_iff. split.
  - intros H ->. done.
  - intros H. apply not_true_iff_false. by rewrite String.eqb_eq.
Qed.

(** X8. Every domain of the list [main] builds from DOMAINS is not
    empty, has no white space at either end, and has no comma. The list is
    empty exactly when every part between commas is empty or white space
    only. *)
Theorem parse_domains_clean (domains_str : string) :
  Forall (λ d, d ≠ "" ∧ PyStr.strip d = d ∧ PyStr.contains d "," = false)
         (parse_domains domains_str)
  ∧ (parse_domains domains_str = []
     ↔ Forall (λ part, PyStr.strip part = "") (split_on "," domains_str)).
Proof.
  unfold parse_domains. split.
  - apply Forall_forall. intros d Hin.
    apply list_elem_of_In, filter_In in Hin as [Hin Ht]. apply list_elem_of_In in Hin.
    apply list_elem_of_fmap in Hin as (p & -> & Hp).
    split; [by apply truthy_spec|]. split; [apply strip_strip|].
    pose proof (split_on_clean "," domains_str) as Hc. rewrite Forall_forall in Hc.
    unfold PyStr.strip. by apply rstrip_clean, lstrip_clean, Hc.
  - generalize (split_on "," domains_str). intros l.
    induction l as [|p l IH]; [done|]. rewrite fmap_cons, Forall_cons.
    cbn [List.filter]. destruct (PyStr.truthy (PyStr.strip p)) eqn:Ht.
    + split; [done|]. intros [Hp _]. by rewrite Hp in Ht.
    + rewrite IH. split; [|by intros [_ ?]]. intros Hl. split; [|done].
      by destruct (PyStr.strip p).
Qed.



(** ** [main] of [subdomain_monitor.py] *)

(** [os.getenv(key, fallback)] *)
Definition getenv (environ : gmap string string) (key fallback : string) : string :=
  default fallback (environ !! key).

(** [config.get(key) or os.getenv(key, fallback)] *)
Definition config_or_env (config environ : gmap string string) (key fallback : string)
  : string :=
  match config !! key with
  | Some value => if PyStr.truthy value then value else getenv environ key fallback
  | None => getenv environ key fallback
  end.

(** How [main] ends: with the exception of [int], with one of its two
    error messages, or with the monitor it creates and runs. *)
Inductive started :=
  | MainRaises (e : exn)
  | NoAlertMethod
  | NoDomain
  | Monitoring (self : monitor) (interval : Z).

Lemma parse_domains_clean_list domains_str :
  Forall (λ d, d ≠ "" ∧ PyStr.strip d = d ∧ PyStr.contains d "," = false)
         (parse_domains domains_str).
Proof.
  unfold parse_domains. apply Forall_forall. intros d Hin.
  apply list_elem_of_In, filter_In in Hin as [Hin Ht]. apply list_elem_of_In in Hin.
  apply list_elem_of_fmap in Hin as (p & -> & Hp).
  split; [by apply truthy_spec|]. split; [apply strip_strip|].
  pose proof (split_on_clean "," domains_str) as Hc. rewrite Forall_forall in Hc.
  unfold PyStr.strip. by apply rstrip_clean, lstrip_clean, Hc.
Qed.

Section Main.
(** [int] on a [str]: the number, or [None] for ValueError. *)
Variable int_of : string → option Z.

Definition main (file : option (list string)) (environ : gmap string string) : started :=
  let config := load_config file in
  let DOMAINS_STR := config_or_env config environ "DOMAINS" "example.com" in
  let TELEGRAM_BOT_TOKEN := config_or_env config environ "TELEGRAM_BOT_TOKEN" "" in
  let TELEGRAM_CHAT_ID := config_or_env config environ "TELEGRAM_CHAT_ID" "" in
  let DISCORD_WEBHOOK_URL := config_or_env config environ "DISCORD_WEBHOOK_URL" "" in
  match int_of (config_or_env config environ "MONITORING_INTERVAL" "3600") with
  | None => MainRaises (OtherError "ValueError")
  | Some MONITORING_INTERVAL =>
      let domains := parse_domains DOMAINS_STR in
      if negb (PyStr.truthy TELEGRAM_BOT_TOKEN) && negb (PyStr.truthy DISCORD_WEBHOOK_URL)
      then NoAlertMethod
      else if bool_decide (domains = []) then NoDomain
      else Monitoring (Monitor domains TELEGRAM_BOT_TOKEN TELEGRAM_CHAT_ID
                               DISCORD_WEBHOOK_URL)
                      MONITORING_INTERVAL
  end.

(** X9. When [main] of [subdomain_monitor.py] creates the monitor, the
    list of domains is not empty and each domain is a name without white
    space at its ends, and the bot token or the webhook URL is set. The
    chat id is not looked at: with a bot token, no chat id and no webhook
    URL the monitor runs and no sink is configured, so that no cycle
    sends an alert. A value of config.env that is not empty goes before
    the environment. *)
Theorem main_starts (file : option (list string)) (environ : gmap string string)
    (self : monitor) (interval : Z) :
  main file environ = Monitoring self interval →
  domains self ≠ []
  ∧ Forall (λ d, d ≠ "" ∧ PyStr.strip d = d ∧ PyStr.contains d "," = false) (domains self)
  ∧ (telegram_bot_token self ≠ "" ∨ discord_webhook_url self ≠ "")
  ∧ (configured self Telegram = false ∧ configured self Discord = false
     ↔ telegram_chat_id self = "" ∧ discord_webhook_url self = "")
  ∧ (∀ key value fallback, load_config file !! key = Some value → value ≠ "" →
       config_or_env (load_config file) environ key fallback = value).
Proof.
  unfold main. cbv zeta. destruct (int_of _) as [i|]; [|done].
  destruct (negb _ && negb _) eqn:Hsink; [done|].
  destruct (bool_decide _) eqn:Hd; [done|]. intros [= <- <-].
  cbn [domains telegram_bot_token telegram_chat_id discord_webhook_url configured].
  apply bool_decide_eq_false in Hd.
  apply andb_false_iff in Hsink. rewrite !negb_false_iff, !truthy_spec in Hsink.
  split; [done|]. split; [apply parse_domains_clean_list|]. split; [done|]. split.
  - rewrite andb_false_iff.
    rewrite <- !not_true_iff_false, !truthy_spec. split.
    + intros [[Ht|Hc] Hu].
      * destruct Hsink as [?|?]; [done|]. by destruct Hu.
      * split; [by destruct (decide (config_or_env (load_config file) environ
                                        "TELEGRAM_CHAT_ID" "" = "")); [|destruct Hc]|].
        by destruct (decide (config_or_env (load_config file) environ
                               "DISCORD_WEBHOOK_URL" "" = "")); [|destruct Hu].
    + intros [Hc Hu]. rewrite Hc, Hu. split; [right|]; by intros [].
  - intros key value fallback Hk Hv. unfold config_or_env. rewrite Hk.
    by apply truthy_spec in Hv as ->.
Qed.

End Main.

(** A config.env with a bot token and no chat id. *)
Definition token_only_file : list string :=
  [ "# subdomain monitor"; "DOMAINS=example.com, example.org";
    "TELEGRAM_BOT_TOKEN=abc"; "" ].

Definition int_of_3600 (s : string) : option Z :=
  if String.eqb s "3600" then Some 3600%Z else None.

Definition token_only_self : monitor :=
  Monitor ["example.com"; "example.org"] "abc" "" "".

Lemma main_starts_witness :
  main int_of_3600 (Some token_only_file) ∅ = Monitoring token_only_self 3600
  ∧ configured token_only_self Telegram = false
  ∧ configured token_only_self Discord = false.
Proof.
  assert (main int_of_3600 (Some token_only_file) ∅ = Monitoring token_only_self 3600)
    as H by (vm_compute; reflexivity).
  split; [exact H|].
  exact (proj2 (proj1 (proj2 (proj2 (proj2
           (main_starts int_of_3600 (Some token_only_file) ∅ token_only_self 3600 H)))))
           (conj eq_refl eq_refl)).
Defined.



(** * The commands of the Telegram bot of [subdomain2.py]

    The handlers read and write the list of domains and the interval of
    the running monitor, through its getters and setters, and the file
    config.json, through [load_live_config] and [save_live_config]. *)

(** What the network answers to [is_domain_active]: whether
    [socket.gethostbyname] returns, and the status code of a GET, or [None]
    when [requests.get] raises. *)
Record net := Net {
  resolves : string → bool;
  status_code : string → option Z
}.

(** [is_domain_active]: https is tried before http, and the first status
    code below 500 ends the loop. *)
Definition is_domain_active (n : net) (domain : string) : bool :=
  if resolves n domain then
    existsb (λ proto, match status_code n (proto +:+ domain) with
                      | Some code => (code <? 500)%Z
                      | None => false
                      end)
            ["https://"; "http://"]
  else false.

(** config.json as [save_live_config] writes it: an object with the keys
    [domains], a list of names, and [interval], a number, each there or
    not. *)
Record live_config := LiveConfig {
  live_domains : option (list string);
  live_interval : option Z
}.

(** [load_live_config]: the empty object when there is no file. *)
Definition load_live_config (file : option live_config) : live_config :=
  default (LiveConfig None None) file.

(** The fields of the monitor the handlers use. *)
Record running := Running {
  run_domains : list string;
  run_interval : Z
}.

(** [context.bot_data.get('monitor')] and config.json. *)
Record bot := Bot {
  bot_monitor : option running;
  config_json : option live_config
}.

Inductive reply :=
  | NotInitialized
  | UsageAdd
  | AlreadyMonitored (domain : string)
  | NotActive (domain : string)
  | Added (domain : string)
  | UsageDel
  | NotInList (domain : string)
  | Removed (domain : string)
  | UsageInterval
  | BadInterval
  | IntervalChanged (interval : Z)
  | NoDomains
  | Domains (lines : list (string * bool))     (* the name, and whether it is active *)
  | Status (domains : list string) (interval : Z).

(** [l.remove(x)]: the first [x] is taken out. *)
Fixpoint remove_first (x : string) (l : list string) : list string :=
  match l with
  | [] => []
  | y :: rest => if bool_decide (y = x) then rest else y :: remove_first x rest
  end.

Definition add_domain (n : net) (args : list string) (b : bot) : bot * reply :=
  match bot_monitor b with
  | None => (b, NotInitialized)
  | Some monitor =>
      match args with
      | [] => (b, UsageAdd)
      | arg :: _ =>
          let domain := PyStr.lower (PyStr.strip arg) in
          let domains := run_domains monitor in
          if bool_decide (domain ∈ domains) then (b, AlreadyMonitored domain)
          else if negb (is_domain_active n domain) then (b, NotActive domain)
          else
            let domains := domains ++ [domain] in
            let config := load_live_config (config_json b) in
            (Bot (Some (Running domains (run_interval monitor)))
                 (Some (LiveConfig (Some domains) (live_interval config))),
             Added domain)
      end
  end.

Definition del_domain (args : list string) (b : bot) : bot * reply :=
  match bot_monitor b with
  | None => (b, NotInitialized)
  | Some monitor =>
      match args with
      | [] => (b, UsageDel)
      | arg :: _ =>
          let domain := PyStr.lower (PyStr.strip arg) in
          let domains := run_domains monitor in
          if bool_decide (domain ∉ domains) then (b, NotInList domain)
          else
            let domains := remove_first domain domains in
            let config := load_live_config (config_json b) in
            (Bot (Some (Running domains (run_interval monitor)))
                 (Some (LiveConfig (Some domains) (live_interval config))),
             Removed domain)
      end
  end.

Definition list_domains (n : net) (b : bot) : bot * reply :=
  match bot_monitor b with
  | None => (b, NotInitialized)
  | Some monitor =>
      match run_domains monitor with
      | [] => (b, NoDomains)
      | domains => (b, Domains ((λ d, (d, is_domain_active n d)) <$> domains))
      end
  end.

Definition status (b : bot) : bot * reply :=
  match bot_monitor b with
  | None => (b, NotInitialized)
  | Some monitor => (b, Status (run_domains monitor) (run_interval monitor))
  end.

Inductive command :=
  | CmdAdd (args : list string)
  | CmdDel (args : list string)
  | CmdInterval (args : list string)
  | CmdList
  | CmdStatus.

Section Handlers.
(** [int] on a [str]: the number, or [None] for ValueError. *)
Variable int_of : string → option Z.

(** [set_interval]: ValueError, of [int] or raised for a number below 1,
    is caught. *)
Definition set_interval (args : list string) (b : bot) : bot * reply :=
  match bot_monitor b with
  | None => (b, NotInitialized)
  | Some monitor =>
      match args with
      | [] => (b, UsageInterval)
      | arg :: _ =>
          match int_of arg with
          | None => (b, BadInterval)
          | Some interval =>
              if (interval <? 1)%Z then (b, BadInterval)
              else
                let config := load_live_config (config_json b) in
                (Bot (Some (Running (run_domains monitor) interval))
                     (Some (LiveConfig (live_domains config) (Some interval))),
                 IntervalChanged interval)
          end
      end
  end.

Definition handle (n : net) (c : command) (b : bot) : bot * reply :=
  match c with
  | CmdAdd args => add_domain n args b
  | CmdDel args => del_domain args b
  | CmdInterval args => set_interval args b
  | CmdList => list_domains n b
  | CmdStatus => status b
  end.

(** The bot after the commands [cs], each under the network of its time. *)
Definition handle_all (cs : list (net * command)) (b : bot) : bot :=
  foldl (λ b c, (handle c.1 c.2 b).1) b cs.

End Handlers.

(** What config.json holds under a key is what the monitor has. *)
Definition saved_is_running (b : bot) : Prop :=
  match bot_monitor b, config_json b with
  | Some monitor, Some config =>
      (∀ l, live_domains config = Some l → l = run_domains monitor)
      ∧ (∀ i, live_interval config = Some i → i = run_interval monitor)
  | _, _ => True
  end.

Definition distinct_domains (b : bot) : Prop :=
  match bot_monitor b with Some monitor => NoDup (run_domains monitor) | None => True end.

Definition positive_interval (b : bot) : Prop :=
  match bot_monitor b with Some monitor => (1 ≤ run_interval monitor)%Z | None => True end.

Lemma remove_first_in x y l : y ∈ remove_first x l → y ∈ l.
Proof.
  induction l as [|z l IH]; [done|]. cbn [remove_first].
  destruct (bool_decide (z = x)); [by right|].
  intros [->|?]%elem_of_cons; [left|right; by apply IH].
Qed.

Lemma remove_first_NoDup x l : NoDup l → NoDup (remove_first x l) ∧ x ∉ remove_first x l.
Proof.
  induction 1 as [|z l Hz Hl IH]; [split; [constructor|by intros ?%elem_of_nil]|].
  cbn [remove_first]. destruct (bool_decide (z = x)) eqn:Hd.
  - apply bool_decide_eq_true in Hd as ->. done.
  - apply bool_decide_eq_false in Hd. destruct IH as [IH1 IH2]. split.
    + constructor; [|done]. intros ?%remove_first_in. done.
    + intros [->|?]%elem_of_cons; done.
Qed.

Lemma remove_first_snoc x l : x ∉ l → remove_first x (l ++ [x]) = l.
Proof.
  induction l as [|z l IH]; intros Hx.
  - cbn. by rewrite bool_decide_true.
  - cbn [app remove_first]. rewrite bool_decide_false by (intros ->; apply Hx; left).
    rewrite IH; [done|]. intros ?. apply Hx. by right.
Qed.

Lemma remove_first_length x l : x ∈ l → S (length (remove_first x l)) = length l.
Proof.
  induction l as [|z l IH]; [by intros ?%elem_of_nil|]. cbn [remove_first].
  destruct (bool_decide (z = x)) eqn:Hd; [done|]. apply bool_decide_eq_false in Hd.
  intros [->|?]%elem_of_cons; [done|]. cbn [length]. by rewrite IH.
Qed.


Lemma list_domains_same n b : (list_domains n b).1 = b.
Proof.
  unfold list_domains. destruct (bot_monitor b) as [monitor|]; [|done].
  by destruct (run_domains monitor).
Qed.

Lemma handle_keeps int_of n c b :
  let b' := (handle int_of n c b).1 in
  (saved_is_running b → saved_is_running b')
  ∧ (distinct_domains b → distinct_domains b')
  ∧ (positive_interval b → positive_interval b')
  ∧ (bot_monitor b = None → b' = b)
  ∧ (is_Some (bot_monitor b) → is_Some (bot_monitor b')).
Proof.
  destruct b as [[monitor|] file]; cbv zeta.
  2:{ destruct c; cbn; done. }
  unfold saved_is_running, distinct_domains, positive_interval.
  destruct c as [args|args|args| |]; cbn [handle].
  - unfold add_domain. cbn [bot_monitor config_json]. destruct args as [|arg args]; [done|].
    cbv zeta. destruct (bool_decide _) eqn:Hin; [done|].
    destruct (negb _); [done|]. cbn [fst bot_monitor config_json run_domains run_interval
      live_domains live_interval]. apply bool_decide_eq_false in Hin.
    split; [|split; [|done]].
    + intros Hs. split; [by intros l [= <-]|]. destruct file as [config|]; [|done].
      apply Hs.
    + intros Hnd. apply NoDup_app. split; [done|]. split; [|apply NoDup_singleton].
      intros x Hx ->%list_elem_of_singleton. done.
  - unfold del_domain. cbn [bot_monitor config_json]. destruct args as [|arg args]; [done|].
    cbv zeta. destruct (bool_decide _) eqn:Hin; [done|].
    cbn [fst bot_monitor config_json run_domains run_interval live_domains live_interval].
    split; [|split; [|done]].
    + intros Hs. split; [by intros l [= <-]|]. destruct file as [config|]; [|done].
      apply Hs.
    + intros Hnd. by apply remove_first_NoDup.
  - unfold set_interval. cbn [bot_monitor config_json]. destruct args as [|arg args]; [done|].
    destruct (int_of arg) as [i|]; [|done]. destruct (i <? 1)%Z eqn:Hi; [done|].
    cbn [fst bot_monitor config_json run_domains run_interval live_domains live_interval].
    apply Z.ltb_ge in Hi. split; [|done].
    intros Hs. split; [|by intros ? [= <-]]. destruct file as [config|]; [|done].
    apply Hs.
  - rewrite list_domains_same. cbn [bot_monitor config_json]. done.
  - done.
Qed.

(** X10. Whatever commands the bot handles, in whatever order: the
    values config.json holds for [domains] and [interval] stay those of
    the running monitor, a list of domains without a name twice stays so,
    and an interval of at least one second stays so. Without a monitor no
    command changes anything. *)
Theorem commands_keep_invariants (int_of : string → option Z)
    (cs : list (net * command)) (b : bot) :
  let b' := handle_all int_of cs b in
  (saved_is_running b → saved_is_running b')
  ∧ (distinct_domains b → distinct_domains b')
  ∧ (positive_interval b → positive_interval b')
  ∧ (bot_monitor b = None → b' = b)
  ∧ (is_Some (bot_monitor b) → is_Some (bot_monitor b')).
Proof.
  cbv zeta. revert b. induction cs as [|[n c] cs IH]; intros b; [done|].
  cbn [handle_all foldl fst snd].
  destruct (handle_keeps int_of n c b) as (H1 & H2 & H3 & H4 & H5).
  destruct (IH (handle int_of n c b).1) as (I1 & I2 & I3 & I4 & I5).
  unfold handle_all in *. repeat split; [tauto..| |tauto].
  intros Hb. rewrite I4; [by apply H4|]. by rewrite H4.
Qed.

(** X11. [add_domain] adds a name only by putting the name of the
    command, trimmed and in lower case, at the end of the list, in the
    monitor and in config.json, and only when the name is not in the list
    and is active. A name that was added is taken out again by
    [del_domain] with the same argument, which gives back the list of
    before, in the monitor and in config.json. *)
Theorem add_then_del (n : net) (arg : string) (rest : list string) (b b1 : bot)
    (d : string) :
  add_domain n (arg :: rest) b = (b1, Added d) →
  ∃ monitor,
    bot_monitor b = Some monitor
    ∧ d = PyStr.lower (PyStr.strip arg)
    ∧ (d ∉ run_domains monitor)
    ∧ is_domain_active n d = true
    ∧ bot_monitor b1 = Some (Running (run_domains monitor ++ [d]) (run_interval monitor))
    ∧ (config_json b1 ≫= live_domains) = Some (run_domains monitor ++ [d])
    ∧ del_domain (arg :: rest) b1
      = (Bot (Some (Running (run_domains monitor) (run_interval monitor)))
             (Some (LiveConfig (Some (run_domains monitor))
                               (live_interval (load_live_config (config_json b))))),
         Removed d).
Proof.
  unfold add_domain. destruct (bot_monitor b) as [monitor|] eqn:Hm; [|done].
  cbv zeta. destruct (bool_decide _) eqn:Hin; [done|].
  destruct (is_domain_active n _) eqn:Ha; [|done]. cbn [negb].
  intros [= <- <-]. exists monitor. apply bool_decide_eq_false in Hin.
  split; [done|]. split; [done|]. split; [done|]. split; [done|].
  split; [done|]. split; [done|].
  unfold del_domain. cbn [bot_monitor config_json run_domains run_interval].
  rewrite bool_decide_false.
  - by rewrite remove_first_snoc.
  - intros Hno. apply Hno, elem_of_app. right. by left.
Qed.

(** A network on which every name is active. *)
Definition open_net : net := Net (λ _, true) (λ _, Some 200%Z).

Definition example_bot : bot :=
  Bot (Some (Running ["example.com"] 3600)) None.

Lemma add_then_del_witness :
  add_domain open_net [" Example.ORG"] example_bot
  = (Bot (Some (Running ["example.com"; "example.org"] 3600))
         (Some (LiveConfig (Some ["example.com"; "example.org"]) None)),
     Added "example.org")
  ∧ ∃ monitor, bot_monitor example_bot = Some monitor
               ∧ "example.org" = PyStr.lower (PyStr.strip " Example.ORG").
Proof.
  assert (add_domain open_net [" Example.ORG"] example_bot
          = (Bot (Some (Running ["example.com"; "example.org"] 3600))
                 (Some (LiveConfig (Some ["example.com"; "example.org"]) None)),
             Added "example.org")) as H by (vm_compute; reflexivity).
  split; [exact H|].
  destruct (add_then_del open_net " Example.ORG" [] example_bot _ "example.org" H)
    as (monitor & Hm & Hd & _).
  by exists monitor.
Defined.

Lemma remove_first_other x y l : y ≠ x → y ∈ remove_first x l ↔ y ∈ l.
Proof.
  intros Hne. split; [apply remove_first_in|].
  induction l as [|z l IH]; [done|]. cbn [remove_first].
  destruct (bool_decide (z = x)) eqn:Hd.
  - apply bool_decide_eq_true in Hd as ->. by intros [->|?]%elem_of_cons.
  - intros [->|?]%elem_of_cons; [left|right; by apply IH].
Qed.

(** X12. [del_domain] takes out of the list the first occurrence of the
    name of the command, trimmed and in lower case, and nothing else: the
    list is shorter by one and every other name stays. When no name stands
    twice in the list the name is gone; a second occurrence would stay. *)
Theorem del_domain_removes (arg : string) (rest : list string) (b b' : bot) (d : string) :
  del_domain (arg :: rest) b = (b', Removed d) →
  ∃ monitor,
    bot_monitor b = Some monitor
    ∧ d = PyStr.lower (PyStr.strip arg)
    ∧ d ∈ run_domains monitor
    ∧ bot_monitor b'
      = Some (Running (remove_first d (run_domains monitor)) (run_interval monitor))
    ∧ (config_json b' ≫= live_domains) = Some (remove_first d (run_domains monitor))
    ∧ S (length (remove_first d (run_domains monitor))) = length (run_domains monitor)
    ∧ (∀ x, x ≠ d → x ∈ remove_first d (run_domains monitor) ↔ x ∈ run_domains monitor)
    ∧ (NoDup (run_domains monitor) → d ∉ remove_first d (run_domains monitor))
    ∧ remove_first d [d; d] = [d].
Proof.
  unfold del_domain. destruct (bot_monitor b) as [monitor|] eqn:Hm; [|done].
  cbv zeta. destruct (bool_decide _) eqn:Hin; [done|].
  intros [= <- <-]. exists monitor. apply bool_decide_eq_false in Hin.
  assert (PyStr.lower (PyStr.strip arg) ∈ run_domains monitor) as Hd.
  { by destruct (decide (PyStr.lower (PyStr.strip arg) ∈ run_domains monitor));
      [|destruct Hin]. }
  split; [done|]. split; [done|]. split; [done|]. split; [done|]. split; [done|].
  split; [by apply remove_first_length|]. split; [intros; by apply remove_first_other|].
  split; [intros; by apply remove_first_NoDup|].
  cbn. by rewrite bool_decide_true.
Qed.

Definition doubled_bot : bot :=
  Bot (Some (Running ["example.com"; "example.org"; "example.com"] 3600)) None.

Lemma del_domain_removes_witness :
  del_domain ["EXAMPLE.com"] doubled_bot
  = (Bot (Some (Running ["example.org"; "example.com"] 3600))
         (Some (LiveConfig (Some ["example.org"; "example.com"]) None)),
     Removed "example.com")
  ∧ ∃ monitor, bot_monitor doubled_bot = Some monitor
               ∧ "example.com" ∈ run_domains monitor.
Proof.
  assert (del_domain ["EXAMPLE.com"] doubled_bot
          = (Bot (Some (Running ["example.org"; "example.com"] 3600))
                 (Some (LiveConfig (Some ["example.org"; "example.com"]) None)),
             Removed "example.com")) as H by (vm_compute; reflexivity).
  split; [exact H|].
  destruct (del_domain_removes "EXAMPLE.com" [] doubled_bot _ "example.com" H)
    as (monitor & Hm & _ & Hd & _).
  by exists monitor.
Defined.



(** ** [main] of [subdomain2.py]

    The list of domains and the interval are taken from config.json
    first: [live_config.get('domains') or config.get('DOMAINS') or
    os.getenv('DOMAINS', 'example.com')], where an empty list counts as
    missing, and likewise for the interval, where 0 counts as missing. *)

Section Main2.
Variable int_of : string → option Z.

Definition main2 (file : option (list string)) (live_file : option live_config)
    (environ : gmap string string) : started :=
  let config := load_config file in
  let live_config := load_live_config live_file in
  let domains :=
    match live_domains live_config with
    | Some (d :: raw_domains) =>
        List.filter PyStr.truthy (PyStr.strip <$> d :: raw_domains)
    | _ => parse_domains (config_or_env config environ "DOMAINS" "example.com")
    end in
  let TELEGRAM_BOT_TOKEN := config_or_env config environ "TELEGRAM_BOT_TOKEN" "" in
  let TELEGRAM_CHAT_ID := config_or_env config environ "TELEGRAM_CHAT_ID" "" in
  let DISCORD_WEBHOOK_URL := config_or_env config environ "DISCORD_WEBHOOK_URL" "" in
  let interval :=
    match live_interval live_config with
    | Some i => if (i =? 0)%Z
                then int_of (config_or_env config environ "MONITORING_INTERVAL" "3600")
                else Some i
    | None => int_of (config_or_env config environ "MONITORING_INTERVAL" "3600")
    end in
  match interval with
  | None => MainRaises (OtherError "ValueError")
  | Some MONITORING_INTERVAL =>
      if negb (PyStr.truthy TELEGRAM_BOT_TOKEN) && negb (PyStr.truthy DISCORD_WEBHOOK_URL)
      then NoAlertMethod
      else if bool_decide (domains = []) then NoDomain
      else Monitoring (Monitor domains TELEGRAM_BOT_TOKEN TELEGRAM_CHAT_ID
                               DISCORD_WEBHOOK_URL)
                      MONITORING_INTERVAL
  end.

End Main2.

Lemma isspace_lower_char c : PyStr.isspace (PyStr.lower_char c) = PyStr.isspace c.
Proof. destruct c as [[] [] [] [] [] [] [] []]; reflexivity. Qed.

Lemma lstrip_lower s : PyStr.lstrip (PyStr.lower s) = PyStr.lower (PyStr.lstrip s).
Proof.
  induction s as [|c r IH]; [done|]. cbn [PyStr.lower PyStr.lstrip].
  rewrite isspace_lower_char. by destruct (PyStr.isspace c).
Qed.

Lemma rstrip_lower s : PyStr.rstrip (PyStr.lower s) = PyStr.lower (PyStr.rstrip s).
Proof.
  induction s as [|c r IH]; [done|]. cbn [PyStr.lower PyStr.rstrip].
  rewrite IH, isspace_lower_char. destruct (PyStr.rstrip r); [|done].
  by destruct (PyStr.isspace c).
Qed.

Lemma strip_lower s : PyStr.strip (PyStr.lower s) = PyStr.lower (PyStr.strip s).
Proof. unfold PyStr.strip. by rewrite lstrip_lower, rstrip_lower. Qed.

Lemma strip_clean_list l :
  Forall (λ d, d ≠ "" ∧ PyStr.strip d = d) l →
  List.filter PyStr.truthy (PyStr.strip <$> l) = l.
Proof.
  induction 1 as [|d l [Hd Hs] Hl IH]; [done|]. rewrite fmap_cons. cbn [List.filter].
  rewrite Hs. apply truthy_spec in Hd as ->. by rewrite IH.
Qed.

(** X13. A restart of [subdomain2.py] goes on with what the commands of
    the bot saved: when config.json holds a list of domains that is not
    empty, each a name that is not empty and has no white space at its
    ends, and an interval other than 0, [main] creates the monitor with
    this list and this interval, whatever config.env and the environment
    say about them, provided the bot token or the webhook URL is set. The
    name [add_domain] adds has no white space at its ends. When the saved
    list is empty, as after the last domain was removed, [main] falls back
    on DOMAINS of config.env or of the environment. *)
Theorem restart_resumes (int_of : string → option Z) (file : option (list string))
    (environ : gmap string string) (saved : live_config) (l : list string) (i : Z) :
  let token := config_or_env (load_config file) environ "TELEGRAM_BOT_TOKEN" "" in
  let chat := config_or_env (load_config file) environ "TELEGRAM_CHAT_ID" "" in
  let url := config_or_env (load_config file) environ "DISCORD_WEBHOOK_URL" "" in
  live_domains saved = Some l → l ≠ [] →
  Forall (λ d, d ≠ "" ∧ PyStr.strip d = d) l →
  live_interval saved = Some i → i ≠ 0%Z →
  token ≠ "" ∨ url ≠ "" →
  main2 int_of file (Some saved) environ = Monitoring (Monitor l token chat url) i
  ∧ (∀ arg, PyStr.strip (PyStr.lower (PyStr.strip arg)) = PyStr.lower (PyStr.strip arg))
  ∧ main2 int_of file (Some (LiveConfig (Some []) (Some i))) environ
    = main2 int_of file (Some (LiveConfig None (Some i))) environ.
Proof.
  intros token chat url Hl Hne Hclean Hi Hi0 Hsink. split; [|split; [|done]].
  - unfold main2. change (load_live_config (Some saved)) with saved. cbv zeta.
    rewrite Hl, Hi.
    destruct l as [|d l]; [done|]. rewrite strip_clean_list by done.
    apply Z.eqb_neq in Hi0 as ->. fold token chat url.
    assert (negb (PyStr.truthy token) && negb (PyStr.truthy url) = false) as ->.
    { apply andb_false_iff. rewrite !negb_false_iff, !truthy_spec. done. }
    by rewrite bool_decide_false.
  - intros arg. by rewrite strip_lower, strip_strip.
Qed.

Lemma restart_resumes_witness :
  Forall (λ d, d ≠ "" ∧ PyStr.strip d = d) ["example.net"]
  ∧ config_or_env (load_config (Some token_only_file)) ∅ "TELEGRAM_BOT_TOKEN" "" ≠ ""
  ∧ main2 int_of_3600 (Some token_only_file)
          (Some (LiveConfig (Some ["example.net"]) (Some 60%Z))) ∅
    = Monitoring (Monitor ["example.net"] "abc" "" "") 60.
Proof.
  assert (Forall (λ d, d ≠ "" ∧ PyStr.strip d = d) ["example.net"]) as Hc
    by (repeat constructor; discriminate).
  assert (config_or_env (load_config (Some token_only_file)) ∅ "TELEGRAM_BOT_TOKEN" ""
          ≠ "") as Ht by (vm_compute; discriminate).
  split; [exact Hc|]. split; [exact Ht|].
  refine (proj1 (restart_resumes int_of_3600 (Some token_only_file) ∅
                   (LiveConfig (Some ["example.net"]) (Some 60%Z)) ["example.net"] 60
                   eq_refl _ Hc eq_refl _ (or_introl Ht))); discriminate.
Defined.



(** ** The parts in which [database_cmd] sends its message

    [[msg[i:i+4000] for i in range(0, len(msg), 4000)]]; a [str] is the
    list of its characters. *)

(** [range(i, stop, step)], for a step above 0; [fuel] bounds the number
    of values. *)
Fixpoint range_from (fuel i stop step : nat) : list nat :=
  match fuel with
  | 0 => []
  | S fuel => if (i <? stop)%nat then i :: range_from fuel (i + step) stop step else []
  end.

(** [range(0, stop, step)] *)
Definition py_range (stop step : nat) : list nat := range_from stop 0 stop step.

(** [msg[i:j]] for [i ≤ j] *)
Definition slice {A} (msg : list A) (i j : nat) : list A := take (j - i) (drop i msg).

Definition message_parts {A} (msg : list A) : list (list A) :=
  (λ i, slice msg i (i + 4000)) <$> py_range (length msg) 4000.

Lemma range_from_parts {A} (msg : list A) (n fuel i : nat) :
  (0 < n)%nat → (length msg - i ≤ fuel)%nat →
  concat ((λ j, slice msg j (j + n)) <$> range_from fuel i (length msg) n) = drop i msg
  ∧ Forall (λ p, (0 < length p ≤ n)%nat)
           ((λ j, slice msg j (j + n)) <$> range_from fuel i (length msg) n)
  ∧ (length ((λ j, slice msg j (j + n)) <$> range_from fuel i (length msg) n) * n
     < length msg - i + n)%nat
  ∧ (length msg - i
     ≤ length ((λ j, slice msg j (j + n)) <$> range_from fuel i (length msg) n) * n)%nat.
Proof.
  intros Hn. unfold slice. revert i. induction fuel as [|fuel IH]; intros i Hfuel.
  - cbn. rewrite drop_ge by lia. repeat split; [constructor|lia|lia].
  - cbn [range_from]. destruct (i <? length msg)%nat eqn:Hi.
    + apply Nat.ltb_lt in Hi. rewrite fmap_cons. cbn [concat length Nat.mul].
      destruct (IH (i + n)%nat) as (Hc & Hf & Hu & Hl); [lia|].
      rewrite Hc. replace (i + n - i)%nat with n by lia.
      split; [|split; [|split]].
      * rewrite <- (drop_drop msg n i). apply take_drop.
      * constructor; [|done]. rewrite length_take, length_drop. lia.
      * clear Hl. revert Hu.
        generalize (length ((λ j, take (j + n - j) (drop j msg))
                              <$> range_from fuel (i + n) (length msg) n)).
        intros [|L] Hu; cbn [Nat.mul] in *; lia.
      * lia.
    + apply Nat.ltb_ge in Hi. cbn. rewrite drop_ge by lia.
      repeat split; [constructor|lia|lia].
Qed.

(** X14. The parts in which [database_cmd] sends its message, put one
    after the other, are the message; no part is empty and none has more
    than 4000 characters; there are as many parts as the length of the
    message divided by 4000, rounded up. *)
Theorem message_parts_cover {A : Type} (msg : list A) :
  concat (message_parts msg) = msg
  ∧ Forall (λ part, (0 < length part ≤ 4000)%nat) (message_parts msg)
  ∧ length (message_parts msg) = ((length msg + 3999) / 4000)%nat.
Proof.
  unfold message_parts, py_range.
  destruct (range_from_parts msg 4000 (length msg) 0) as (Hc & Hf & Hu & Hl); [lia..|].
  split; [by rewrite Hc, drop_0|]. split; [done|].
  apply (Nat.div_unique _ 4000 _
    (length msg + 3999 - 4000 * length ((λ j, slice msg j (j + 4000))
                                   <$> range_from (length msg) 0 (length msg) 4000)));
    lia.
Qed.



(** * reset_database.py

    The two files the script touches: subdomains.db and
    subdomains.db.backup, each there or not. A database file holds the
    table [subdomains] or no table. *)

Record files := Files {
  db_file : option database;
  backup_file : option database
}.

(** [reset_database]: [os.rename] puts the database in the place of the
    backup, over a backup that is there (as on POSIX systems);
    [sqlite3.connect] then makes a new file, in which CREATE TABLE finds
    no table. *)
Definition reset_database (fs : files) : result files :=
  let fs :=
    match db_file fs with
    | Some old => Files None (Some old)
    | None => fs
    end in
  match create_table schema_v1 unique_pair (default None (db_file fs)) with
  | Ok db => Ok (Files (Some db) (backup_file fs))
  | Raise e => Raise e
  end.

(** The script run as a program: [if confirm.lower() == 'y']. *)
Definition reset_database_main (confirm : string) (fs : files) : result files :=
  if String.eqb (PyStr.lower confirm) "y" then reset_database fs else Ok fs.

Lemma lower_char_y c : PyStr.lower_char c = "y"%char ↔ c = "y"%char ∨ c = "Y"%char.
Proof.
  split.
  - destruct c as [[] [] [] [] [] [] [] []]; vm_compute; intros H;
      first [discriminate H | by left | by right].
  - by intros [->| ->].
Qed.

Lemma lower_y s : PyStr.lower s = "y" ↔ s = "y" ∨ s = "Y".
Proof.
  split.
  - destruct s as [|c [|c' s]]; [done| |done]. cbn [PyStr.lower].
    intros [= [->| ->]%lower_char_y]; [by left|by right].
  - by intros [->| ->].
Qed.

(** X15. [reset_database] never fails: it leaves a database with the
    table of [subdomain_monitor.py], empty, and the database that was
    there, if any, as the backup, in the place of an older backup. Run
    twice, it leaves the empty table as the backup, and the rows of the
    first database are in neither file. [init_database] of
    [subdomain_monitor.py] leaves the new table as it is, and that of
    [subdomain2.py] adds the column [release_date] to it. The program
    resets only when the answer is the letter y, small or capital. *)
Theorem reset_database_backs_up (fs : files) (confirm : string) (self : monitor)
    (E : env) (tr : list event) :
  let fresh := Some (empty_table schema_v1 unique_pair) in
  reset_database fs
  = Ok (Files (Some fresh)
              (match db_file fs with Some old => Some old | None => backup_file fs end))
  ∧ (is_Some (db_file fs) →
     reset_database (Files (Some fresh) (db_file fs))
     = Ok (Files (Some fresh) (Some fresh)))
  ∧ SubdomainMonitor.init_database self E (World fresh tr)
    = (World fresh (tr ++ [SqlCommit; Log DatabaseInitialized]), Ok tt)
  ∧ Subdomain2.init_database (World fresh tr)
    = (World (Some (empty_table schema_v2 unique_pair))
             (tr ++ [SqlCommit; Log DatabaseInitialized]), Ok tt)
  ∧ (reset_database_main confirm fs
     = if bool_decide (confirm = "y" ∨ confirm = "Y") then reset_database fs else Ok fs).
Proof.
  cbv zeta. split; [by destruct fs as [[db|] backup]|]. split; [intros _; reflexivity|].
  split; [by apply init_database_keeps|].
  split; [by rewrite init_database_adds_release_date|].
  unfold reset_database_main. destruct (String.eqb _ _) eqn:Hy.
  - apply String.eqb_eq, lower_y in Hy. by rewrite bool_decide_true.
  - rewrite bool_decide_false; [done|]. intros Hc%lower_y.
    apply String.eqb_neq in Hy. done.
Qed.



(** ** [database_cmd] of the bot of [subdomain2.py] *)


















